(** * RagFlow log analyzer: a shallow embedding of [docker/analyze.py]

    The analyzer reads a log file, cuts it into HISTORY blocks, decodes the
    JSON snapshot carried by each block and rebuilds the distinct
    conversations, newest snapshot first.

    Conventions of the embedding.
    - A Python [str] is a list of characters ([list char]); the characters
      are the code points below 256 and the three box-drawing characters
      that the document pattern of [extract_context_documents] names.  On
      that alphabet the regular expression class [\d] is the ten ASCII
      digits and [str.strip] removes the characters listed in [isspace].
    - Python integers that can go below zero are [Z]; indexes and lengths
      are [nat].
    - The library functions [json.loads], [datetime.strptime],
      [datetime.now], [datetime.timestamp] and the two regular expressions
      of [extract_context_documents] are parameters of the development:
      every theorem holds for any behaviour of theirs, the exceptions they
      raise included.  The modules [Demo] and [DemoTime] give instances of
      them, to run the analyzer on concrete logs. *)

From Stdlib Require Import String Ascii List Arith Bool Lia ZArith DecimalString.
From Stdlib Require Import Sorted Permutation DecimalNat.
Import ListNotations.

Set Implicit Arguments.

(* ================================================================== *)
(** * Python strings                                                   *)
(* ================================================================== *)

(** A character: a code point below 256, or one of the box-drawing
    characters U+251C, U+2500 and U+2514 of the document pattern. *)
Inductive char : Type :=
| Latin (a : ascii)
| BoxVerticalRight
| BoxHorizontal
| BoxUpRight.

(** [ord(c)] *)
Definition code (c : char) : nat :=
  match c with
  | Latin a => nat_of_ascii a
  | BoxVerticalRight => 37 * 256 + 28
  | BoxHorizontal => 37 * 256
  | BoxUpRight => 37 * 256 + 20
  end.

(** [a == b] on characters *)
Definition char_eqb (a b : char) : bool :=
  match a, b with
  | Latin x, Latin y => Ascii.eqb x y
  | BoxVerticalRight, BoxVerticalRight => true
  | BoxHorizontal, BoxHorizontal => true
  | BoxUpRight, BoxUpRight => true
  | _, _ => false
  end.

Definition str := list char.

(** A literal of the source. *)
Definition lit (s : string) : str := map Latin (list_ascii_of_string s).

Definition dquote : char := Latin "034".
Definition newline : char := Latin "010".
Definition backslash : char := Latin "092".

(** A literal whose single quotes stand for double quotes (JSON text). *)
Definition jlit (s : string) : str :=
  map (fun c => if char_eqb c (Latin "'") then dquote else c) (lit s).

Fixpoint str_eqb (a b : str) : bool :=
  match a, b with
  | [], [] => true
  | x :: a', y :: b' => char_eqb x y && str_eqb a' b'
  | _, _ => false
  end.

(** [s.startswith(p)] *)
Fixpoint startswith (p s : str) : bool :=
  match p, s with
  | [], _ => true
  | a :: p', b :: s' => char_eqb a b && startswith p' s'
  | _ :: _, [] => false
  end.

(** [s.find(sub)]: the lowest index where [sub] occurs; [None] is Python's -1. *)
Fixpoint find_at (sub s : str) (k : nat) {struct s} : option nat :=
  if startswith sub s then Some k
  else match s with
       | [] => None
       | _ :: r => find_at sub r (S k)
       end.

Definition find (sub s : str) : option nat := find_at sub s 0.

(** [sub in s] *)
Definition contains (sub s : str) : bool :=
  match find sub s with Some _ => true | None => false end.

(** [str.isspace]: none of the box-drawing characters is white space. *)
Definition isspace (c : char) : bool :=
  let n := code c in
  ((9 <=? n) && (n <=? 13)) || ((28 <=? n) && (n <=? 32))
  || (n =? 133) || (n =? 160).

Fixpoint lstrip (s : str) : str :=
  match s with
  | [] => []
  | c :: r => if isspace c then lstrip r else s
  end.

Definition rstrip (s : str) : str := rev (lstrip (rev s)).

(** [s.strip()] *)
Definition strip (s : str) : str := rstrip (lstrip s).

(** [s.split('\n')]: never empty, one more piece than there are newlines. *)
Fixpoint split_lines (s : str) : list str :=
  match s with
  | [] => [[]]
  | c :: r =>
      if char_eqb c newline then [] :: split_lines r
      else match split_lines r with
           | l :: ls => (c :: l) :: ls
           | [] => [[c]]
           end
  end.

(** ['\n'.join(ls)] *)
Fixpoint join_lines (ls : list str) : str :=
  match ls with
  | [] => []
  | [l] => l
  | l :: rest => l ++ newline :: join_lines rest
  end.

(** [s.replace(old, new)] for a non-empty [old]: left to right, without
    overlap.  The fuel is the length of [s]. *)
Fixpoint replace_fuel (fuel : nat) (old new s : str) : str :=
  match fuel with
  | 0 => s
  | S fuel' =>
      match s with
      | [] => []
      | c :: r =>
          if startswith old s
          then new ++ replace_fuel fuel' old new (skipn (length old) s)
          else c :: replace_fuel fuel' old new r
      end
  end.

Definition replace (old new s : str) : str :=
  replace_fuel (length s) old new s.

(* ================================================================== *)
(** * The two timestamp patterns                                       *)
(* ================================================================== *)

(** The regular expressions of the segmenter are sequences of single
    character classes: a digit [\d] or a literal character. *)
Inductive atom : Type :=
| Digit
| Chr (c : ascii).

Definition is_digit (c : char) : bool :=
  let n := code c in (48 <=? n) && (n <=? 57).

Definition atom_matches (a : atom) (c : char) : bool :=
  match a with
  | Digit => is_digit c
  | Chr x => char_eqb (Latin x) c
  end.

Fixpoint atoms_match (p : list atom) (s : str) : bool :=
  match p, s with
  | [], _ => true
  | a :: p', c :: s' => atom_matches a c && atoms_match p' s'
  | _ :: _, [] => false
  end.

(** [re.match(p, s)]: anchored at the start; the match is the text of
    group 1, which spans the whole pattern. *)
Definition re_match (p : list atom) (s : str) : option str :=
  if atoms_match p s then Some (firstn (length p) s) else None.

Definition D2 : list atom := [Digit; Digit].

(** [^\d{4}-\d{2}-\d{2} \d{2}:\d{2}:\d{2}] *)
Definition TS_SECONDS : list atom :=
  D2 ++ D2 ++ Chr "-" :: D2 ++ Chr "-" :: D2 ++ Chr " " :: D2
     ++ Chr ":" :: D2 ++ Chr ":" :: D2.

(** [^(\d{4}-\d{2}-\d{2} \d{2}:\d{2}:\d{2},\d{3})] *)
Definition TS_MILLIS : list atom :=
  TS_SECONDS ++ [Chr ","; Digit; Digit; Digit].

Definition HISTORY_MARKER : str := lit "[HISTORY][".

(* ================================================================== *)
(** * Bracketed-JSON extraction                                        *)
(* ================================================================== *)

(** The [for k, char in enumerate(json_part)] loop.  [bc], [ins] and
    [esc] are [bracket_count], [in_string] and [escape_next]; the result is
    [json_end], which stays at its initial value [dflt] unless the loop
    breaks. *)
Fixpoint scan_chars (cs : str) (k : nat) (bc : Z) (ins esc : bool)
         (dflt : nat) : nat :=
  match cs with
  | [] => dflt
  | char :: rest =>
      if esc then scan_chars rest (S k) bc ins false dflt
      else if char_eqb char backslash && ins
      then scan_chars rest (S k) bc ins true dflt
      else
        let ins := if char_eqb char dquote && negb esc then negb ins else ins in
        if negb ins then
          if char_eqb char (Latin "[")
          then scan_chars rest (S k) (bc + 1)%Z ins esc dflt
          else if char_eqb char (Latin "]") then
            let bc := (bc - 1)%Z in
            if (bc =? 0)%Z then S k
            else scan_chars rest (S k) bc ins esc dflt
          else scan_chars rest (S k) bc ins esc dflt
        else scan_chars rest (S k) bc ins esc dflt
  end.

Definition find_json_end (json_part : str) : nat :=
  scan_chars json_part 0 0%Z false false (length json_part).

(** [json_str = json_part[:json_end]] *)
Definition extract_json_str (json_part : str) : str :=
  firstn (find_json_end json_part) json_part.

(** The text of a block after the marker, stripped, with the opening
    bracket put back when the payload starts with a brace.  [None] is the
    [continue] of the source. *)
Definition json_part_of (block_content : str) : option str :=
  match find HISTORY_MARKER block_content with
  | None => None
  | Some history_marker =>
      let json_start := history_marker + length HISTORY_MARKER in
      let json_part := strip (skipn json_start block_content) in
      if startswith (lit "[") json_part then Some json_part
      else if startswith (lit "{") json_part
           then Some (lit "[" ++ json_part)
           else None
  end.

(** ** The bracket depth of the specification

    A character is outside a string literal, inside one, or inside one
    right after a backslash.  Only brackets met outside count. *)
Inductive lexmode : Type := Outside | InString | Escaped.

Definition lex_step (m : lexmode) (c : char) : lexmode :=
  match m with
  | Escaped => InString
  | InString =>
      if char_eqb c backslash then Escaped
      else if char_eqb c dquote then Outside else InString
  | Outside => if char_eqb c dquote then InString else Outside
  end.

Definition depth_step (m : lexmode) (d : Z) (c : char) : Z :=
  match m with
  | Outside =>
      if char_eqb c (Latin "[") then (d + 1)%Z
      else if char_eqb c (Latin "]") then (d - 1)%Z else d
  | _ => d
  end.

Fixpoint lex_run (m : lexmode) (d : Z) (s : str) : lexmode * Z :=
  match s with
  | [] => (m, d)
  | c :: r => lex_run (lex_step m c) (depth_step m d c) r
  end.

(** Bracket depth after reading [s] from the start of a payload. *)
Definition bracket_depth (s : str) : Z := snd (lex_run Outside 0%Z s).

Definition mode_in_string (m : lexmode) : bool :=
  match m with Outside => false | _ => true end.

Definition mode_escape (m : lexmode) : bool :=
  match m with Escaped => true | _ => false end.

(* ================================================================== *)
(** * Exceptions and the clock                                         *)
(* ================================================================== *)

(** The exceptions the analyzer can meet.  [JSONDecodeError] is a subclass
    of [ValueError]; the others are subclasses of neither. *)
Inductive exn : Type :=
| ValueError
| JSONDecodeError
| AttributeError
| TypeError
| RecursionError
| OverflowError.

Definition is_ValueError (e : exn) : bool :=
  match e with
  | ValueError | JSONDecodeError => true
  | AttributeError | TypeError | RecursionError | OverflowError => false
  end.

(** [except (json.JSONDecodeError, ValueError)] *)
Definition is_decode_error (e : exn) : bool :=
  match e with
  | JSONDecodeError | ValueError => true
  | AttributeError | TypeError | RecursionError | OverflowError => false
  end.

Inductive result (A : Type) : Type :=
| Ok (a : A)
| Raise (e : exn).

Arguments Ok {A} a.
Arguments Raise {A} e.

Definition bind {A B : Type} (c : result A) (k : A -> result B) : result B :=
  match c with
  | Ok a => k a
  | Raise e => Raise e
  end.

(** [try: c  except <catches>: handler] *)
Definition try_except {A : Type} (c : result A) (catches : exn -> bool)
           (handler : result A) : result A :=
  match c with
  | Ok a => Ok a
  | Raise e => if catches e then handler else Raise e
  end.

Declare Scope py_scope.
Delimit Scope py_scope with py.
Notation "x <- c ;; k" := (bind c (fun x => k))
  (at level 61, c at next level, right associativity) : py_scope.
Open Scope py_scope.

(** Code that reads the wall clock threads the number of readings made
    so far. *)
Definition Py (A : Type) : Type := nat -> result A * nat.

Definition py_ret {A : Type} (a : A) : Py A := fun clock => (Ok a, clock).

Definition py_bind {A B : Type} (c : Py A) (k : A -> Py B) : Py B :=
  fun clock =>
    match c clock with
    | (Ok a, clock') => k a clock'
    | (Raise e, clock') => (Raise e, clock')
    end.

Definition py_lift {A : Type} (r : result A) : Py A := fun clock => (r, clock).

Definition py_try {A : Type} (c : Py A) (catches : exn -> bool)
           (handler : Py A) : Py A :=
  fun clock =>
    match c clock with
    | (Ok a, clock') => (Ok a, clock')
    | (Raise e, clock') =>
        if catches e then handler clock' else (Raise e, clock')
    end.

Notation "x <~ c ;; k" := (py_bind c (fun x => k))
  (at level 61, c at next level, right associativity) : py_scope.

(* ================================================================== *)
(** * Data model                                                       *)
(* ================================================================== *)

(** A naive [datetime]. *)
Record datetime : Type := {
  year : nat; month : nat; day : nat;
  hour : nat; minute : nat; second : nat; microsecond : nat
}.

Definition dt_fields (d : datetime) : list nat :=
  [year d; month d; day d; hour d; minute d; second d; microsecond d].

(** Python orders tuples, and so datetimes, field by field. *)
Fixpoint lex_ltb (a b : list nat) : bool :=
  match a, b with
  | x :: a', y :: b' => (x <? y) || ((x =? y) && lex_ltb a' b')
  | [], _ :: _ => true
  | _, [] => false
  end.

(** [a < b] on datetimes *)
Definition dt_ltb (a b : datetime) : bool := lex_ltb (dt_fields a) (dt_fields b).

(** [a <= b] on datetimes *)
Definition dt_leb (a b : datetime) : bool := negb (dt_ltb b a).

(** A decoded JSON value.  A number keeps the text of its literal; an
    object is the [dict] built by the decoder, looked up by its keys. *)
#[warnings="-register-all"]
Inductive json : Type :=
| JNull
| JBool (b : bool)
| JNum (text : str)
| JStr (s : str)
| JArr (items : list json)
| JObj (fields : list (str * json)).

Record context_document : Type := {
  doc_id : str;
  doc_title : str;
  doc_content : str
}.

Record Message : Type := {
  msg_timestamp : datetime;
  user_message : str;
  claude_response : str;
  context_documents : list context_document
}.

Record Conversation : Type := {
  chat_id : str;
  first_message : str;
  start_time : datetime;
  message_count : nat;
  messages : list Message
}.

(** An entry of [history_blocks]. *)
Record hist_block : Type := {
  timestamp : datetime;
  timestamp_str : str;
  content : str;
  line_number : nat
}.

(** An entry of [found_conversations]. *)
Record found_conv : Type := {
  fc_user_messages : list str;
  fc_conversation : Conversation;
  fc_timestamp : datetime
}.

(** The Python library as the analyzer uses it. *)
Class PyLib : Type := {
  (** [datetime.strptime(date_string, format)]; [None] is its [ValueError]. *)
  strptime : str -> str -> option datetime;
  (** The reading [datetime.now()] returns at its n-th call. *)
  wall_clock : nat -> datetime;
  (** [d.strftime(format)] *)
  strftime : datetime -> str -> str;
  (** [json.loads(text)]: the decoded value, or the exception raised.  That
      is [JSONDecodeError] on a text that is no JSON; [json.loads] also
      raises [RecursionError] on a text nested too deeply and [ValueError]
      on an integer literal with too many digits. *)
  json_loads : str -> result json;
  (** [re.findall] with the document pattern and [re.DOTALL]: the three
      groups of every match, in textual order. *)
  re_findall_documents : str -> list (str * str * str);
  (** [re.sub] deleting the trailing JSON closers of a document content. *)
  re_sub_trailer : str -> str
}.

(* ================================================================== *)
(** * The analyzer                                                     *)
(* ================================================================== *)

Definition FMT_MILLIS : str := lit "%Y-%m-%d %H:%M:%S,%f".
Definition FMT_SECONDS : str := lit "%Y-%m-%d %H:%M:%S".
Definition FMT_ID : str := lit "%Y%m%d_%H%M%S".

(** The sentinel of a user turn without reply. *)
Definition NO_RESPONSE : str := lit "[Keine Claude-Antwort gefunden]".

Section Analyzer.

Context {L : PyLib}.

Definition strptime_py (date_string format : str) : Py datetime :=
  py_lift (match strptime date_string format with
           | Some d => Ok d
           | None => Raise ValueError
           end).

Definition datetime_now : Py datetime :=
  fun clock => (Ok (wall_clock clock), S clock).

(** ** [parse_timestamp] *)
Definition parse_timestamp (timestamp_str : str) : Py datetime :=
  py_try (strptime_py timestamp_str FMT_MILLIS) is_ValueError
    (py_try (strptime_py (firstn 19 timestamp_str) FMT_SECONDS) is_ValueError
       datetime_now).

(** ** [extract_context_documents] *)
Definition extract_context_documents (log_content : str)
  : list context_document :=
  let log_content :=
    if contains (lit "\n") log_content
    then replace (lit "\n") [newline] log_content
    else log_content in
  map (fun m : str * str * str =>
         let '(id, title, content) := m in
         let content_clean := strip content in
         let content_clean := re_sub_trailer content_clean in
         {| doc_id := strip id;
            doc_title := strip title;
            doc_content := content_clean |})
      (re_findall_documents log_content).

(** ** The block segmenter *)

(** The inner [while j < len(lines)] loop; [rest] is [lines[j:]]. *)
Fixpoint collect_block (rest : list str) (j : nat) (block_lines : list str)
  : list str * nat :=
  match rest with
  | [] => (block_lines, j)
  | next_line :: rest' =>
      match re_match TS_SECONDS next_line with
      | Some _ => (block_lines, j)
      | None => collect_block rest' (S j) (block_lines ++ [next_line])
      end
  end.

(** The outer [while i < len(lines)] loop.  Every round moves [i] forward,
    so [len(lines)] rounds are enough. *)
Fixpoint segment_loop (fuel : nat) (lines : list str) (i : nat)
         (history_blocks : list hist_block) : Py (list hist_block) :=
  match fuel with
  | 0 => py_ret history_blocks
  | S fuel' =>
      match nth_error lines i with
      | None => py_ret history_blocks
      | Some line =>
          if contains HISTORY_MARKER line then
            match re_match TS_MILLIS line with
            | Some timestamp_str =>
                timestamp <~ parse_timestamp timestamp_str ;;
                let '(block_lines, j) :=
                  collect_block (skipn (S i) lines) (S i) [line] in
                let block_content := join_lines block_lines in
                segment_loop fuel' lines j
                  (history_blocks ++
                     [{| timestamp := timestamp;
                         timestamp_str := timestamp_str;
                         content := block_content;
                         line_number := i |}])
            | None => segment_loop fuel' lines (S i) history_blocks
            end
          else segment_loop fuel' lines (S i) history_blocks
      end
  end.

Definition segment (lines : list str) : Py (list hist_block) :=
  segment_loop (length lines) lines 0 [].

(** ** Decoding a block *)

Definition json_loads_py (text : str) : result json := json_loads text.

Fixpoint dict_lookup (key : str) (fields : list (str * json)) : option json :=
  match fields with
  | [] => None
  | (k, v) :: rest => if str_eqb k key then Some v else dict_lookup key rest
  end.

(** [msg.get(key, default)]; only a [dict] has the method. *)
Definition py_get (msg : json) (key : str) (default : json) : result json :=
  match msg with
  | JObj fields =>
      Ok (match dict_lookup key fields with
          | Some v => v
          | None => default
          end)
  | _ => Raise AttributeError
  end.

(** [v == s] for a string literal [s] *)
Definition json_is_str (v : json) (s : str) : bool :=
  match v with
  | JStr t => str_eqb t s
  | _ => false
  end.

(** [v.strip()]; only a [str] has the method. *)
Definition py_strip (v : json) : result str :=
  match v with
  | JStr s => Ok (strip s)
  | _ => Raise AttributeError
  end.

(** [msg.get('role') == role] *)
Definition has_role (msg : json) (role : str) : result bool :=
  r <- py_get msg (lit "role") JNull ;;
  Ok (json_is_str r role).

(** [msg.get('content', '').strip()] *)
Definition content_stripped (msg : json) : result str :=
  c <- py_get msg (lit "content") (JStr []) ;;
  py_strip c.

(** [for msg in history_data]: the items of a list, the keys of a dict,
    the characters of a string. *)
Definition py_iter (history_data : json) : result (list json) :=
  match history_data with
  | JArr items => Ok items
  | JObj fields => Ok (map (fun kv => JStr (fst kv)) fields)
  | JStr s => Ok (map (fun c => JStr [c]) s)
  | JNull | JBool _ | JNum _ => Raise TypeError
  end.

(** [[msg.get('content', '').strip() for msg in history_data
      if msg.get('role') == 'user']] *)
Fixpoint user_messages_of (history_data : list json) : result (list str) :=
  match history_data with
  | [] => Ok []
  | msg :: rest =>
      is_user <- has_role msg (lit "user") ;;
      if (is_user : bool) then
        c <- content_stripped msg ;;
        cs <- user_messages_of rest ;;
        Ok (c :: cs)
      else user_messages_of rest
  end.

(** From the text of a block to its decoded items.  [Ok None] is a
    [continue]. *)
Definition decode_block (block_content : str) : result (option (list json)) :=
  match json_part_of block_content with
  | None => Ok None
  | Some json_part =>
      let json_str := extract_json_str json_part in
      history_data <- json_loads_py json_str ;;
      items <- py_iter history_data ;;
      Ok (Some items)
  end.

(** ** The reconstructor *)

Fixpoint strs_eqb (a b : list str) : bool :=
  match a, b with
  | [], [] => true
  | x :: a', y :: b' => str_eqb x y && strs_eqb a' b'
  | _, _ => false
  end.

(** The loop over [found_conversations] that sets [is_subset]. *)
Fixpoint is_subset (user_messages : list str)
         (found_conversations : list found_conv) : bool :=
  match found_conversations with
  | [] => false
  | existing_conv :: rest =>
      let existing_messages := fc_user_messages existing_conv in
      if (length user_messages <=? length existing_messages)
         && strs_eqb user_messages
                     (firstn (length user_messages) existing_messages)
      then true
      else is_subset user_messages rest
  end.

(** [for k in range(j + 1, len(full_history_data))]; [after] is
    [full_history_data[j+1:]]. *)
Fixpoint next_assistant (after : list json) (claude_response : str)
  : result str :=
  match after with
  | [] => Ok claude_response
  | msg :: rest =>
      is_assistant <- has_role msg (lit "assistant") ;;
      if (is_assistant : bool) then content_stripped msg
      else next_assistant rest claude_response
  end.

(** [for j, msg in enumerate(full_history_data)] *)
Fixpoint find_claude_response (full_history_data : list json)
         (user_msg : str) (claude_response : str) : result str :=
  match full_history_data with
  | [] => Ok claude_response
  | msg :: rest =>
      is_user <- has_role msg (lit "user") ;;
      if (is_user : bool) then
        c <- content_stripped msg ;;
        if str_eqb c user_msg then next_assistant rest claude_response
        else find_claude_response rest user_msg claude_response
      else find_claude_response rest user_msg claude_response
  end.

(** [search_user_messages[-1]] *)
Definition last_str (l : list str) : str := last l [].

(** The test made on one [search_block]; [Ok false] covers the
    [continue]s. *)
Definition search_block_matches (search_block : hist_block)
           (target_msg_count : nat) (user_msg : str) : result bool :=
  d <- decode_block (content search_block) ;;
  match d with
  | None => Ok false
  | Some search_history_data =>
      search_user_messages <- user_messages_of search_history_data ;;
      Ok ((length search_user_messages =? target_msg_count)
          && (0 <? length search_user_messages)
          && str_eqb (last_str search_user_messages) user_msg)
  end.

(** [for search_block in history_blocks], each round under its own
    [try]. *)
Fixpoint find_context_docs (history_blocks : list hist_block)
         (target_msg_count : nat) (user_msg : str)
  : result (list context_document) :=
  match history_blocks with
  | [] => Ok []
  | search_block :: rest =>
      match search_block_matches search_block target_msg_count user_msg with
      | Ok true => Ok (extract_context_documents (content search_block))
      | Ok false => find_context_docs rest target_msg_count user_msg
      | Raise e =>
          if is_decode_error e
          then find_context_docs rest target_msg_count user_msg
          else Raise e
      end
  end.

(** [for i, user_msg in enumerate(user_messages)] *)
Fixpoint build_messages (history_blocks : list hist_block)
         (timestamp : datetime) (full_history_data : list json)
         (i : nat) (user_messages : list str) : result (list Message) :=
  match user_messages with
  | [] => Ok []
  | user_msg :: rest =>
      claude_response <-
        find_claude_response full_history_data user_msg NO_RESPONSE ;;
      let target_msg_count := i + 1 in
      context_docs <-
        find_context_docs history_blocks target_msg_count user_msg ;;
      let message :=
        {| msg_timestamp := timestamp;
           user_message := user_msg;
           claude_response := claude_response;
           context_documents := context_docs |} in
      messages <-
        build_messages history_blocks timestamp full_history_data (S i) rest ;;
      Ok (message :: messages)
  end.

Definition str_of_nat (n : nat) : str :=
  lit (NilEmpty.string_of_uint (Nat.to_uint n)).

(** The body of the [try] of the main loop. *)
Definition claim_block (history_blocks : list hist_block)
           (found_conversations : list found_conv) (hist_block : hist_block)
  : result (list found_conv) :=
  let timestamp := timestamp hist_block in
  d <- decode_block (content hist_block) ;;
  match d with
  | None => Ok found_conversations
  | Some history_data =>
      user_messages <- user_messages_of history_data ;;
      match user_messages with
      | [] => Ok found_conversations
      | first :: _ =>
          if is_subset user_messages found_conversations
          then Ok found_conversations
          else
            let conversation_id :=
              lit "conv_" ++ str_of_nat (length found_conversations + 1)
                  ++ lit "_" ++ strftime timestamp FMT_ID in
            messages <-
              build_messages history_blocks timestamp history_data 0
                             user_messages ;;
            let conversation :=
              {| chat_id := conversation_id;
                 first_message := first;
                 start_time := timestamp;
                 message_count := length user_messages;
                 messages := messages |} in
            Ok (found_conversations ++
                  [{| fc_user_messages := user_messages;
                      fc_conversation := conversation;
                      fc_timestamp := timestamp |}])
      end
  end.

(** One round of [for hist_block in history_blocks]. *)
Definition process_block (history_blocks : list hist_block)
           (found_conversations : list found_conv) (hist_block : hist_block)
  : result (list found_conv) :=
  try_except (claim_block history_blocks found_conversations hist_block)
             is_decode_error (Ok found_conversations).

Fixpoint reconstruct (history_blocks : list hist_block)
         (todo : list hist_block) (found_conversations : list found_conv)
  : result (list found_conv) :=
  match todo with
  | [] => Ok found_conversations
  | hist_block :: rest =>
      found <- process_block history_blocks found_conversations hist_block ;;
      reconstruct history_blocks rest found
  end.

End Analyzer.

(** ** Sorting

    [list.sort] is stable, also with [reverse=True]: elements with equal
    keys keep their order.  [before y x] says that [y] has to stay ahead
    of a later element [x]. *)
Section StableSort.

Variable A : Type.
Variable before : A -> A -> bool.

Fixpoint stable_insert (x : A) (sorted : list A) : list A :=
  match sorted with
  | [] => [x]
  | y :: rest =>
      if before y x then y :: stable_insert x rest else x :: sorted
  end.

Definition stable_sort (l : list A) : list A :=
  fold_right stable_insert [] l.

End StableSort.

(** [history_blocks.sort(key=lambda x: x['timestamp'], reverse=True)] *)
Definition sort_blocks_desc (history_blocks : list hist_block)
  : list hist_block :=
  stable_sort (fun y x => dt_ltb (timestamp x) (timestamp y)) history_blocks.

(** [found_conversations.sort(key=lambda x: x['timestamp'])] *)
Definition sort_found_asc (found_conversations : list found_conv)
  : list found_conv :=
  stable_sort (fun y x => dt_ltb (fc_timestamp y) (fc_timestamp x))
              found_conversations.

(** [self.conversations]: the dict, in insertion order. *)
Fixpoint conversations_dict (i : nat) (found_conversations : list found_conv)
  : list (str * Conversation) :=
  match found_conversations with
  | [] => []
  | conv_data :: rest =>
      (lit "conversation_" ++ str_of_nat (i + 1), fc_conversation conv_data)
        :: conversations_dict (S i) rest
  end.

(** ** [analyze_logfile], from the text of the log file *)
Definition analyze_logfile {L : PyLib} (file_content : str)
  : Py (list (str * Conversation)) :=
  let lines := split_lines file_content in
  history_blocks <~ segment lines ;;
  let history_blocks := sort_blocks_desc history_blocks in
  found_conversations <~
    py_lift (reconstruct history_blocks history_blocks []) ;;
  let found_conversations := sort_found_asc found_conversations in
  py_ret (conversations_dict 0 found_conversations).

(* ================================================================== *)
(** * Vocabulary of the specification                                  *)
(* ================================================================== *)

Section Vocabulary.

Context {L : PyLib}.

(** ** Timestamp parser

    The full text in the millisecond format if that parses, else the
    first 19 characters in the second format if that parses, else a reading
    of the wall clock. *)
Definition parse_timestamp_spec (timestamp_str : str) (clock : nat)
  : datetime * nat :=
  match strptime timestamp_str FMT_MILLIS with
  | Some d => (d, clock)
  | None =>
      match strptime (firstn 19 timestamp_str) FMT_SECONDS with
      | Some d => (d, clock)
      | None => (wall_clock clock, S clock)
      end
  end.

(** ** Block segmenter *)

(** A line opens a block when it holds the marker and begins with a
    timestamp in the millisecond format. *)
Definition is_block_start (line : str) : bool :=
  contains HISTORY_MARKER line && atoms_match TS_MILLIS line.

(** A line opens a log entry when it begins with a timestamp. *)
Definition starts_entry (line : str) : bool := atoms_match TS_SECONDS line.

(** The lines that follow a block start, up to the next log entry. *)
Fixpoint block_body (following : list str) : list str :=
  match following with
  | [] => []
  | l :: rest => if starts_entry l then [] else l :: block_body rest
  end.

Definition block_text (lines : list str) (i : nat) : str :=
  join_lines (nth i lines [] :: block_body (skipn (S i) lines)).

(** The offsets of the lines that open a block, in file order. *)
Definition block_starts (lines : list str) : list nat :=
  filter (fun i => is_block_start (nth i lines [])) (seq 0 (length lines)).

(** The blocks opened at the given offsets; the clock is read when a
    timestamp does not parse. *)
Fixpoint blocks_at (lines : list str) (starts : list nat) (clock : nat)
  : list hist_block * nat :=
  match starts with
  | [] => ([], clock)
  | i :: rest =>
      let ts := firstn 23 (nth i lines []) in
      let t := parse_timestamp_spec ts clock in
      let bs := blocks_at lines rest (snd t) in
      ({| timestamp := fst t;
          timestamp_str := ts;
          content := block_text lines i;
          line_number := i |} :: fst bs, snd bs)
  end.

End Vocabulary.

Section ReconstructorVocabulary.

Context {L : PyLib}.

(** ** Conversation reconstructor *)

(** A decoded element is a user turn: an object whose [role] is the text
    [user]. *)
Definition is_user_turn (v : json) : bool :=
  match v with
  | JObj fields =>
      match dict_lookup (lit "role") fields with
      | Some (JStr role) => str_eqb role (lit "user")
      | _ => false
      end
  | _ => false
  end.

(** A decoded value is a [dict]. *)
Definition is_object (v : json) : bool :=
  match v with
  | JObj _ => true
  | _ => false
  end.

(** The ordered user-turn contents of a block that decodes. *)
Definition user_turns_of (b : hist_block) (us : list str) : Prop :=
  exists items,
    decode_block (content b) = Ok (Some items) /\
    user_messages_of items = Ok us.

(** [us] is no longer than [um] and equals [um] cut to its length. *)
Definition is_prefix_of (us um : list str) : Prop :=
  length us <= length um /\ us = firstn (length us) um.



(** The block has as many user turns as the position says (counted from
    one) and its last user turn is [user_msg]. *)
Definition block_matches_turn (b : hist_block) (position : nat)
           (user_msg : str) : Prop :=
  exists us,
    user_turns_of b us /\ length us = position /\ last us [] = user_msg.

(** The entry [e] of [found_conversations] was built from the block [b]. *)
Definition claimed_from (history_blocks : list hist_block) (b : hist_block)
           (e : found_conv) : Prop :=
  exists items first rest,
    decode_block (content b) = Ok (Some items) /\
    user_messages_of items = Ok (first :: rest) /\
    fc_user_messages e = first :: rest /\
    fc_timestamp e = timestamp b /\
    first_message (fc_conversation e) = first /\
    start_time (fc_conversation e) = timestamp b /\
    message_count (fc_conversation e) = length (first :: rest) /\
    build_messages history_blocks (timestamp b) items 0 (first :: rest)
    = Ok (messages (fc_conversation e)).

(** A decoded turn [{"role": role, "content": content}]. *)
Definition turn (role content : str) : json :=
  JObj [(lit "role", JStr role); (lit "content", JStr content)].

(** The turns that follow the user turn number [i], counted from zero. *)
Fixpoint after_user_turn (history_data : list json) (i : nat)
  : result (list json) :=
  match history_data with
  | [] => Ok []
  | msg :: rest =>
      is_user <- has_role msg (lit "user") ;;
      if (is_user : bool) then
        match i with
        | 0 => Ok rest
        | S i' => after_user_turn rest i'
        end
      else after_user_turn rest i
  end.

(** The reply to the user turn number [i]: the stripped content of the
    first assistant turn after it, or the sentinel when there is none. *)
Definition reply_to_turn (history_data : list json) (i : nat) : result str :=
  after <- after_user_turn history_data i ;;
  next_assistant after NO_RESPONSE.

(** What [analyze_logfile] does once the log is cut into blocks. *)
Definition analyze_blocks (blocks : list hist_block)
  : result (list (str * Conversation)) :=
  let history_blocks := sort_blocks_desc blocks in
  found <- reconstruct history_blocks history_blocks [] ;;
  Ok (conversations_dict 0 (sort_found_asc found)).

End ReconstructorVocabulary.

(* ================================================================== *)
(** * An instance of the library, to run the analyzer                  *)
(* ================================================================== *)

Module Demo.

(** ** Timestamps

    The analyzer hands [strptime] only texts matched by [TS_MILLIS], or
    their first 19 characters.  On those, the fields have a fixed width
    and parsing succeeds exactly when they form a date. *)

Definition digit_value (c : char) : nat := code c - 48.

Definition number_at (s : str) (start len : nat) : nat :=
  fold_left (fun n c => 10 * n + digit_value c) (firstn len (skipn start s)) 0.

Definition is_leap (y : nat) : bool :=
  ((y mod 4 =? 0) && negb (y mod 100 =? 0)) || (y mod 400 =? 0).

Definition days_in_month (y m : nat) : nat :=
  match m with
  | 2 => if is_leap y then 29 else 28
  | 4 | 6 | 9 | 11 => 30
  | _ => 31
  end.

Definition make_datetime (y mo d h mi sec us : nat) : option datetime :=
  if (1 <=? y) && (1 <=? mo) && (mo <=? 12) && (1 <=? d)
     && (d <=? days_in_month y mo) && (h <=? 23) && (mi <=? 59)
     && (sec <=? 59)
  then Some {| year := y; month := mo; day := d; hour := h; minute := mi;
               second := sec; microsecond := us |}
  else None.

Definition demo_strptime (date_string format : str) : option datetime :=
  let field := number_at date_string in
  if str_eqb format FMT_MILLIS then
    if atoms_match TS_MILLIS date_string && (length date_string =? 23)
    then make_datetime (field 0 4) (field 5 2) (field 8 2) (field 11 2)
                       (field 14 2) (field 17 2) (1000 * field 20 3)
    else None
  else if str_eqb format FMT_SECONDS then
    if atoms_match TS_SECONDS date_string && (length date_string =? 19)
    then make_datetime (field 0 4) (field 5 2) (field 8 2) (field 11 2)
                       (field 14 2) (field 17 2) 0
    else None
  else None.

Definition pad (width n : nat) : str :=
  let digits := str_of_nat n in
  repeat (Latin "0") (width - length digits) ++ digits.

(** The only format the analyzer prints with is [FMT_ID].  The year is
    printed as the C library of Linux prints it, without padding. *)
Definition demo_strftime (d : datetime) (format : str) : str :=
  str_of_nat (year d) ++ pad 2 (month d) ++ pad 2 (day d) ++ lit "_"
      ++ pad 2 (hour d) ++ pad 2 (minute d) ++ pad 2 (second d).

(** A clock that starts in 2030 and moves by a microsecond a reading. *)
Definition demo_wall_clock (n : nat) : datetime :=
  {| year := 2030; month := 1; day := 1; hour := 0; minute := 0;
     second := 0; microsecond := n |}.

(** ** A JSON decoder

    It reads what [json.loads] reads: arrays, objects, strings with their
    escapes, numbers and the literals.  A number is kept as its literal.
    A string with an escape [\uABCD] of a character outside the alphabet
    has no value here, and the decoder refuses it.  It gives up as
    [json.loads] does on a text nested too deeply and on an integer
    literal with too many digits. *)

Definition json_ws (c : char) : bool :=
  let n := code c in
  (n =? 32) || (n =? 9) || (n =? 10) || (n =? 13).

Fixpoint skip_ws (s : str) : str :=
  match s with
  | [] => []
  | c :: r => if json_ws c then skip_ws r else s
  end.

Definition simple_escape (c : char) : option char :=
  if char_eqb c dquote then Some dquote
  else if char_eqb c backslash then Some backslash
  else if char_eqb c (Latin "/") then Some (Latin "/")
  else if char_eqb c (Latin "n") then Some newline
  else if char_eqb c (Latin "t") then Some (Latin "009")
  else if char_eqb c (Latin "r") then Some (Latin "013")
  else if char_eqb c (Latin "b") then Some (Latin "008")
  else if char_eqb c (Latin "f") then Some (Latin "012")
  else None.

Definition hex_value (c : char) : option nat :=
  let n := code c in
  if (48 <=? n) && (n <=? 57) then Some (n - 48)
  else if (97 <=? n) && (n <=? 102) then Some (n - 87)
  else if (65 <=? n) && (n <=? 70) then Some (n - 55)
  else None.

(** [chr(n)], when the character is one of the alphabet *)
Definition char_of_code (n : nat) : option char :=
  if n <? 256 then Some (Latin (ascii_of_nat n))
  else if n =? code BoxVerticalRight then Some BoxVerticalRight
  else if n =? code BoxHorizontal then Some BoxHorizontal
  else if n =? code BoxUpRight then Some BoxUpRight
  else None.

(** The character of the escape [\uABCD] *)
Definition unicode_char (a b c d : char) : option char :=
  match hex_value a, hex_value b, hex_value c, hex_value d with
  | Some x3, Some x2, Some x1, Some x0 =>
      char_of_code (((x3 * 16 + x2) * 16 + x1) * 16 + x0)
  | _, _, _, _ => None
  end.

(** The text after an opening quote: the decoded string and what follows
    the closing quote. *)
Fixpoint parse_string_body (s : str) (acc : str) : option (str * str) :=
  match s with
  | [] => None
  | c :: r =>
      if char_eqb c dquote then Some (rev acc, r)
      else if char_eqb c backslash then
        match r with
        | e :: r' =>
            if char_eqb e (Latin "u") then
              match r' with
              | x3 :: x2 :: x1 :: x0 :: r'' =>
                  match unicode_char x3 x2 x1 x0 with
                  | Some d => parse_string_body r'' (d :: acc)
                  | None => None
                  end
              | _ => None
              end
            else
              match simple_escape e with
              | Some d => parse_string_body r' (d :: acc)
              | None => None
              end
        | [] => None
        end
      else if code c <? 32 then None
      else parse_string_body r (c :: acc)
  end.

Fixpoint span_digits (s : str) : str * str :=
  match s with
  | [] => ([], [])
  | c :: r =>
      if is_digit c then let '(d, rest) := span_digits r in (c :: d, rest)
      else ([], s)
  end.

(** A fraction: a point and digits, at least one. *)
Definition span_fraction (s : str) : str * str :=
  match s with
  | p :: ((d :: _) as digits) =>
      if char_eqb p (Latin ".") && is_digit d
      then let '(ds, rest) := span_digits digits in (p :: ds, rest)
      else ([], s)
  | _ => ([], s)
  end.

(** An exponent: [e] or [E], an optional sign and digits, at least one. *)
Definition span_exponent (s : str) : str * str :=
  match s with
  | e :: t =>
      if char_eqb e (Latin "e") || char_eqb e (Latin "E") then
        let '(sign, t') :=
          match t with
          | c :: t1 =>
              if char_eqb c (Latin "+") || char_eqb c (Latin "-")
              then ([c], t1) else ([], t)
          | [] => ([], t)
          end in
        match t' with
        | d :: _ =>
            if is_digit d
            then let '(ds, rest) := span_digits t' in
                 (e :: sign ++ ds, rest)
            else ([], s)
        | [] => ([], s)
        end
      else ([], s)
  | [] => ([], s)
  end.

(** A number: an optional minus, then [0] or digits that start with
    another digit, then an optional fraction and an optional exponent.
    The result is the literal, the text after it, and whether the number
    is an integer. *)
Definition parse_number (s : str) : option (str * str * bool) :=
  let '(sign, body) :=
    match s with
    | c :: r => if char_eqb c (Latin "-") then ([c], r) else ([], s)
    | [] => ([], s)
    end in
  match body with
  | [] => None
  | c :: r =>
      if is_digit c then
        let '(int_part, rest) :=
          if char_eqb c (Latin "0") then ([c], r) else span_digits body in
        let '(fraction, rest) := span_fraction rest in
        let '(exponent, rest) := span_exponent rest in
        Some (sign ++ int_part ++ fraction ++ exponent, rest,
              match fraction, exponent with
              | [], [] => true
              | _, _ => false
              end)
      else None
  end.

(** [d[key] = v] on the assoc-list dict: the first binding of a key is
    the only one. *)
Fixpoint dict_set (key : str) (v : json) (fields : list (str * json))
  : list (str * json) :=
  match fields with
  | [] => [(key, v)]
  | (k, w) :: rest =>
      if str_eqb k key then (k, v) :: rest else (k, w) :: dict_set key v rest
  end.

(** The nesting that [json.loads] stands when the analyzer calls it, with
    the recursion limit of 1000 that CPython starts with: entering one
    more array or object raises [RecursionError]. *)
Definition MAX_NESTING : nat := 993.

(** The longest integer literal that [int] converts. *)
Definition MAX_STR_DIGITS : nat := 4300.

Definition no_json {A : Type} : result A := Raise JSONDecodeError.

(** [depth] is the number of arrays and objects around the value. *)
Fixpoint parse_value (fuel : nat) (depth : nat) (s : str)
  : result (json * str) :=
  match fuel with
  | 0 => no_json
  | S fuel' =>
      match s with
      | [] => no_json
      | c :: r =>
          if char_eqb c dquote then
            match parse_string_body r [] with
            | Some (t, rest) => Ok (JStr t, rest)
            | None => no_json
            end
          else if char_eqb c (Latin "[") then
            if MAX_NESTING <=? depth then Raise RecursionError
            else
              match skip_ws r with
              | c' :: r' =>
                  if char_eqb c' (Latin "]") then Ok (JArr [], r')
                  else
                    found <- parse_elements fuel' (S depth) (c' :: r') [] ;;
                    Ok (JArr (fst found), snd found)
              | [] => no_json
              end
          else if char_eqb c (Latin "{") then
            if MAX_NESTING <=? depth then Raise RecursionError
            else
              match skip_ws r with
              | c' :: r' =>
                  if char_eqb c' (Latin "}") then Ok (JObj [], r')
                  else
                    found <- parse_members fuel' (S depth) (c' :: r') [] ;;
                    Ok (JObj (fst found), snd found)
              | [] => no_json
              end
          else if startswith (lit "true") s
          then Ok (JBool true, skipn 4 s)
          else if startswith (lit "false") s
          then Ok (JBool false, skipn 5 s)
          else if startswith (lit "null") s
          then Ok (JNull, skipn 4 s)
          else if startswith (lit "NaN") s
          then Ok (JNum (lit "NaN"), skipn 3 s)
          else if startswith (lit "Infinity") s
          then Ok (JNum (lit "Infinity"), skipn 8 s)
          else if startswith (lit "-Infinity") s
          then Ok (JNum (lit "-Infinity"), skipn 9 s)
          else match parse_number s with
               | Some (literal, rest, is_integer) =>
                   if is_integer
                      && (MAX_STR_DIGITS <? length (filter is_digit literal))
                   then Raise ValueError
                   else Ok (JNum literal, rest)
               | None => no_json
               end
      end
  end

(** After ['['] or [','], at the first character of a value. *)
with parse_elements (fuel : nat) (depth : nat) (s : str) (acc : list json)
  : result (list json * str) :=
  match fuel with
  | 0 => no_json
  | S fuel' =>
      found <- parse_value fuel' depth s ;;
      let '(v, rest) := found in
      match skip_ws rest with
      | c :: r =>
          if char_eqb c (Latin ",")
          then parse_elements fuel' depth (skip_ws r) (v :: acc)
          else if char_eqb c (Latin "]") then Ok (rev (v :: acc), r)
          else no_json
      | [] => no_json
      end
  end

(** After ['{'] or [','], at the quote that opens a key. *)
with parse_members (fuel : nat) (depth : nat) (s : str)
                   (acc : list (str * json))
  : result (list (str * json) * str) :=
  match fuel with
  | 0 => no_json
  | S fuel' =>
      match s with
      | c :: r =>
          if char_eqb c dquote then
            match parse_string_body r [] with
            | None => no_json
            | Some (key, rest) =>
                match skip_ws rest with
                | c' :: r' =>
                    if char_eqb c' (Latin ":") then
                      found <- parse_value fuel' depth (skip_ws r') ;;
                      let '(v, rest') := found in
                      let acc := dict_set key v acc in
                      match skip_ws rest' with
                      | c2 :: r2 =>
                          if char_eqb c2 (Latin ",")
                          then parse_members fuel' depth (skip_ws r2) acc
                          else if char_eqb c2 (Latin "}")
                               then Ok (acc, r2)
                               else no_json
                      | [] => no_json
                      end
                    else no_json
                | [] => no_json
                end
            end
          else no_json
      | [] => no_json
      end
  end.

(** [json.loads] of the instance.  A call of the decoder on a value reads
    a character before the next such call, and between two of them lies at
    most one call on a list of elements or members: twice the length of
    the text is fuel enough. *)
Definition demo_json_loads (text : str) : result json :=
  found <- parse_value (2 * length text + 2) 0 (skip_ws text) ;;
  match skip_ws (snd found) with
  | [] => Ok (fst found)
  | _ :: _ => no_json
  end.

(** ** The document pattern

    [re.findall] with the pattern of [extract_context_documents] and
    [re.DOTALL].  The pattern is a sequence of literals and greedy runs of
    white space, which never give back what they took, but for two places:
    the title, a greedy run [[^\n]+] that can hold white space and so is
    tried from its longest extent down, after a run of white space tried
    from its longest extent down; and the content, a lazy run that ends at
    the first place where the lookahead holds. *)

Definition BOX_ITEM : str := [BoxVerticalRight; BoxHorizontal; BoxHorizontal].
Definition BOX_LAST : str := [BoxUpRight; BoxHorizontal; BoxHorizontal].

(** The text after a literal, when the text starts with it. *)
Definition after_literal (l s : str) : option str :=
  if startswith l s then Some (skipn (length l) s) else None.

(** What follows the title: white space, the last-item box, white space
    and [Content:]; the result is the text after it. *)
Definition title_end (s : str) : option str :=
  match after_literal BOX_LAST (lstrip s) with
  | Some r => after_literal (lit "Content:") (lstrip r)
  | None => None
  end.

(** The title that starts at [s]: the longest run of one or more
    characters other than a newline that [title_end] follows. *)
Fixpoint title_at (s : str) : option (str * str) :=
  match s with
  | [] => None
  | c :: r =>
      if char_eqb c newline then None
      else
        match title_at r with
        | Some (title, rest) => Some (c :: title, rest)
        | None =>
            match title_end r with
            | Some rest => Some ([c], rest)
            | None => None
            end
        end
  end.

(** The white space after [Title:], the most of it first, then the
    title. *)
Fixpoint title_after_space (s : str) : option (str * str) :=
  match s with
  | [] => None
  | c :: r =>
      if isspace c then
        match title_after_space r with
        | Some found => Some found
        | None => title_at s
        end
      else title_at s
  end.

(** The lookahead that ends a content: the end of the text, or a newline
    followed by a rule of dashes, by the next [ID:], or by the brackets
    that close the JSON text. *)
Definition boundary (s : str) : bool :=
  match s with
  | [] => true
  | c :: r =>
      char_eqb c newline
      && (startswith (lit "------") (lstrip r)
          || startswith (lit "ID:") r
          || match after_literal (lit "}") (lstrip r) with
             | Some r' => startswith (lit ",") (lstrip r')
             | None => false
             end
          || match after_literal (lit "]") (lstrip r) with
             | Some r' => startswith (lit "}") (lstrip r')
             | None => false
             end)
  end.

(** The content that starts at [s], and the text from its end on. *)
Fixpoint content_until (s : str) : str * str :=
  match s with
  | [] => ([], [])
  | c :: r =>
      if boundary s then ([], s)
      else let '(content, rest) := content_until r in (c :: content, rest)
  end.

(** A match of the pattern at the start of [s]: the three groups and the
    text after the match. *)
Definition match_document (s : str) : option (str * str * str * str) :=
  match after_literal (lit "ID:") s with
  | None => None
  | Some r =>
      let '(digits, r) := span_digits (lstrip r) in
      match digits with
      | [] => None
      | _ :: _ =>
          match after_literal BOX_ITEM (lstrip r) with
          | None => None
          | Some r =>
              match after_literal (lit "Title:") (lstrip r) with
              | None => None
              | Some r =>
                  match title_after_space r with
                  | None => None
                  | Some (title, r) =>
                      let '(content, rest) := content_until (lstrip r) in
                      Some (digits, title, content, rest)
                  end
              end
          end
      end
  end.

(** The matches from left to right; the search goes on where a match
    ends.  A match is not empty, so the length of the text is fuel
    enough. *)
Fixpoint findall_documents (fuel : nat) (s : str) : list (str * str * str) :=
  match fuel with
  | 0 => []
  | S fuel' =>
      match match_document s with
      | Some (id, title, content, rest) =>
          (id, title, content) :: findall_documents fuel' rest
      | None =>
          match s with
          | [] => []
          | _ :: r => findall_documents fuel' r
          end
      end
  end.

Definition demo_findall_documents (log_content : str)
  : list (str * str * str) :=
  findall_documents (S (length log_content)) log_content.

(** [re.sub(r'\s*\}\s*,?\s*\]\s*\}?\s*$', '', s)].  A match runs to the
    end of the text and holds one [']'], so the text is read backwards. *)
Definition drop_char (c : char) (s : str) : option str :=
  match s with
  | x :: r => if char_eqb x c then Some r else None
  | [] => None
  end.

Definition drop_optional (c : char) (s : str) : str :=
  match drop_char c s with Some r => r | None => s end.

Definition demo_sub_trailer (s : str) : str :=
  let r := lstrip (rev s) in
  let r := lstrip (drop_optional (Latin "}") r) in
  match drop_char (Latin "]") r with
  | None => s
  | Some r =>
      let r := lstrip (drop_optional (Latin ",") (lstrip r)) in
      match drop_char (Latin "}") r with
      | None => s
      | Some r => rev (lstrip r)
      end
  end.

#[export] Instance demo_lib : PyLib := {|
  strptime := demo_strptime;
  wall_clock := demo_wall_clock;
  strftime := demo_strftime;
  json_loads := demo_json_loads;
  re_findall_documents := demo_findall_documents;
  re_sub_trailer := demo_sub_trailer
|}.

(** The lines of a log, joined. *)
Definition log_of (lines : list str) : str := join_lines lines.

Definition run (file_content : str)
  : result (list (str * Conversation)) :=
  fst (analyze_logfile file_content 0).

(** ** Logs *)

Definition entry (stamp payload : string) : str :=
  lit stamp ++ lit " INFO [HISTORY][" ++ jlit payload.

(** A literal with box-drawing characters: in the text of this file they
    are the three bytes of their UTF-8 encoding. *)
Fixpoint decode_boxes (bytes : list ascii) : str :=
  match bytes with
  | [] => []
  | a :: t =>
      match t with
      | b :: c :: r =>
          if Ascii.eqb a "226" && Ascii.eqb b "148" then
            if Ascii.eqb c "156" then BoxVerticalRight :: decode_boxes r
            else if Ascii.eqb c "128" then BoxHorizontal :: decode_boxes r
            else if Ascii.eqb c "148" then BoxUpRight :: decode_boxes r
            else Latin a :: decode_boxes t
          else Latin a :: decode_boxes t
      | _ => Latin a :: decode_boxes t
      end
  end.

Definition text (s : string) : str := decode_boxes (list_ascii_of_string s).

(** A log entry whose payload holds box-drawing characters. *)
Definition entry_text (stamp payload : string) : str :=
  lit stamp ++ lit " INFO [HISTORY]["
      ++ map (fun c => if char_eqb c (Latin "'") then dquote else c)
             (text payload).

Definition T1 : datetime :=
  {| year := 2024; month := 1; day := 1; hour := 10; minute := 0;
     second := 0; microsecond := 0 |}.
Definition T2 : datetime :=
  {| year := 2024; month := 1; day := 1; hour := 10; minute := 5;
     second := 0; microsecond := 0 |}.
Definition T3 : datetime :=
  {| year := 2024; month := 1; day := 1; hour := 10; minute := 10;
     second := 0; microsecond := 0 |}.

Definition snapshot_hi : string := "{'role':'user','content':'hi'}]".
Definition snapshot_hi_bye : string :=
  "{'role':'user','content':'hi'},{'role':'assistant','content':'hello'},{'role':'user','content':'bye'}]".

(** Three snapshots of one conversation, the last one repeated. *)
Definition log_three_snapshots : str :=
  log_of [entry "2024-01-01 10:00:00,000" snapshot_hi;
          entry "2024-01-01 10:05:00,000" snapshot_hi_bye;
          entry "2024-01-01 10:10:00,000" snapshot_hi_bye].

(** The shorter snapshot is the newer one. *)
Definition log_shorter_newer : str :=
  log_of [entry "2024-01-01 10:00:00,000" snapshot_hi_bye;
          entry "2024-01-01 10:05:00,000" snapshot_hi].

(** A snapshot without user turn. *)
Definition log_no_user_turn : str :=
  log_of [entry "2024-01-01 10:00:00,000"
                "{'role':'assistant','content':'x'}]"].

(** A snapshot without user turn that holds a number among its turns. *)
Definition log_assistant_and_number : str :=
  log_of [entry "2024-01-01 10:00:00,000"
                "{'role':'assistant','content':'x'},5]"].

(** The user asks the same thing twice and gets two different replies. *)
Definition log_repeated_question : str :=
  log_of [entry "2024-01-01 10:00:00,000"
                "{'role':'user','content':'a'},{'role':'assistant','content':'r1'},{'role':'user','content':'a'},{'role':'assistant','content':'r2'}]"].

(** The user repeats a question and the snapshot ends there. *)
Definition log_repeated_unanswered : str :=
  log_of [entry "2024-01-01 10:00:00,000"
                "{'role':'user','content':'a'},{'role':'assistant','content':'r1'},{'role':'user','content':'a'}]"].

(** Two snapshots that end with the user turn "hi" and carry different
    documents, then a snapshot of the conversation two turns long. *)
Definition log_two_documents : str :=
  log_of [entry_text "2024-01-01 10:00:00,000"
                     "{'role':'system','content':'ID: 1\n├── Title: Old\n└── Content: first\n------'},{'role':'user','content':'hi'}]";
          entry_text "2024-01-01 10:05:00,000"
                     "{'role':'system','content':'ID: 2\n├── Title: New\n└── Content: second\n------'},{'role':'user','content':'hi'}]";
          entry "2024-01-01 10:10:00,000" snapshot_hi_bye].

(** The blocks of a log. *)
Definition blocks_of (file_content : str) : list hist_block :=
  match fst (segment (split_lines file_content) 0) with
  | Ok blocks => blocks
  | Raise _ => []
  end.

(** The decoded turns of a block. *)
Definition turns_of (b : hist_block) : list json :=
  match decode_block (content b) with
  | Ok (Some items) => items
  | _ => []
  end.

Definition empty_block : hist_block :=
  {| timestamp := demo_wall_clock 0; timestamp_str := [];
     content := []; line_number := 0 |}.

Definition empty_message : Message :=
  {| msg_timestamp := demo_wall_clock 0; user_message := [];
     claude_response := []; context_documents := [] |}.

Definition empty_conversation : Conversation :=
  {| chat_id := []; first_message := []; start_time := demo_wall_clock 0;
     message_count := 0; messages := [] |}.

(** The block number [k] of a log. *)
Definition block (file_content : str) (k : nat) : hist_block :=
  nth k (blocks_of file_content) empty_block.

(** The conversations the analyzer returns on a log. *)
Definition conversations_of (file_content : str) : list Conversation :=
  match run file_content with
  | Ok convs => map snd convs
  | Raise _ => []
  end.

(** The conversation number [k] of a log and its message number [i]. *)
Definition conversation (file_content : str) (k : nat) : Conversation :=
  nth k (conversations_of file_content) empty_conversation.

Definition message (file_content : str) (k i : nat) : Message :=
  nth i (messages (conversation file_content k)) empty_message.

End Demo.

Unset Implicit Arguments.

(* ================================================================== *)
(** * Vocabulary for the behaviour of the analyzer on whole logs       *)
(* ================================================================== *)

Section RunVocabulary.

Context {L : PyLib}.

(** A block the main loop passes over without a trace: no payload after
    the marker, a text on which [json.loads] raises [JSONDecodeError] or
    another [ValueError], or a turn list of objects without user turn. *)
Definition ignored_block (b : hist_block) : bool :=
  match decode_block (content b) with
  | Ok None => true
  | Ok (Some items) =>
      match user_messages_of items with
      | Ok [] => true
      | _ => false
      end
  | Raise e => is_decode_error e
  end.

End RunVocabulary.

Section ClaimOrder.

Context {L : PyLib}.

(** In the order in which they are claimed, a conversation is neither a
    prefix of one claimed before it nor newer than it. *)
Definition claimed_in_order (e1 e2 : found_conv) : Prop :=
  ~ is_prefix_of (fc_user_messages e2) (fc_user_messages e1) /\
  dt_leb (fc_timestamp e2) (fc_timestamp e1) = true.

End ClaimOrder.

(* ================================================================== *)
(** * The conversation-id heuristics and the reply lookup              *)
(* ================================================================== *)

(** The time arithmetic of the library. *)
Class PyTime : Type := {
  (** [int(d.timestamp())]: the POSIX seconds of a naive datetime, read in
      the local time zone, or the exception raised: [timestamp] fails with
      [ValueError] or [OverflowError] at the ends of the range of dates. *)
  posix_seconds : datetime -> result Z;
  (** [(a - b).total_seconds() / 60 > threshold_minutes] *)
  minutes_apart_exceed : datetime -> datetime -> nat -> bool
}.

(** [c.lower()]: the box-drawing characters have no case. *)
Definition lower_char (c : char) : char :=
  let n := code c in
  if ((65 <=? n) && (n <=? 90))
     || ((192 <=? n) && (n <=? 222) && negb (n =? 215))
  then Latin (ascii_of_nat (n + 32))
  else c.

(** [s.lower()] *)
Definition lower (s : str) : str := map lower_char s.

(** The decimal digits at the start of a text. *)
Fixpoint leading_digits (s : str) : str :=
  match s with
  | [] => []
  | c :: r => if is_digit c then c :: leading_digits r else []
  end.

(** A match of [konversation\s+(\d+)] at the start of [s]: group 1.  White
    space and digits are disjoint, so the greedy runs never give back. *)
Definition match_konversation (s : str) : option str :=
  if startswith (lit "konversation") s then
    let rest := skipn (length (lit "konversation")) s in
    let after_space := lstrip rest in
    if length after_space <? length rest then
      match leading_digits after_space with
      | [] => None
      | digits => Some digits
      end
    else None
  else None.

(** [re.search(r'konversation\s+(\d+)', s)]: group 1 of the leftmost
    match. *)
Fixpoint search_konversation (s : str) : option str :=
  match match_konversation s with
  | Some digits => Some digits
  | None =>
      match s with
      | [] => None
      | _ :: r => search_konversation r
      end
  end.

(** The pattern [konversation\s+(\d+)] matches in [s] right after
    [before]: the word, the white space [ws], and [digits] as the group,
    the whole run of digits there. *)
Definition konversation_match (s before ws digits rest : str) : Prop :=
  s = before ++ lit "konversation" ++ ws ++ digits ++ rest /\
  ws <> [] /\ Forall (fun c => isspace c = true) ws /\
  digits <> [] /\ Forall (fun c => is_digit c = true) digits /\
  match rest with [] => True | c :: _ => is_digit c = false end.

(** [f"{n}"] for an integer *)
Definition str_of_Z (n : Z) : str := lit (NilZero.string_of_int (Z.to_int n)).

(** [_is_short_test_message] *)
Definition _is_short_test_message (user_message : str) : bool :=
  let msg := lower (strip user_message) in
  (length msg <=? 10)
  && (startswith (lit "test") msg
      || existsb (str_eqb msg)
                 [lit "test"; lit "hallo"; lit "hi"; lit "hello"]).

(** [max(msg.timestamp for msg in messages)], from the first message on:
    a later timestamp replaces the best one only when it is greater. *)
Fixpoint max_timestamp_from (best : datetime) (rest : list Message)
  : datetime :=
  match rest with
  | [] => best
  | msg :: rest' =>
      max_timestamp_from
        (if dt_ltb best (msg_timestamp msg) then msg_timestamp msg else best)
        rest'
  end.

(** [max] of an empty sequence raises [ValueError]. *)
Definition max_timestamp (messages : list Message) : result datetime :=
  match messages with
  | [] => Raise ValueError
  | msg :: rest => Ok (max_timestamp_from (msg_timestamp msg) rest)
  end.

Section Heuristics.

Context {L : PyLib} {T : PyTime}.

(** [self.conversations], a dict in insertion order. *)
Variable conversations : list (str * Conversation).

(** The [for conv_id, conv in self.conversations.items()] loop of
    [_should_start_new_conversation_by_time]. *)
Fixpoint latest_timestamp_loop (base_chat_id : str)
         (items : list (str * Conversation))
         (latest_timestamp : option datetime) : option datetime :=
  match items with
  | [] => latest_timestamp
  | (conv_id, conv) :: rest =>
      match messages conv with
      | msg :: msgs =>
          if startswith base_chat_id conv_id then
            let conv_latest := max_timestamp_from (msg_timestamp msg) msgs in
            latest_timestamp_loop base_chat_id rest
              (match latest_timestamp with
               | None => Some conv_latest
               | Some latest =>
                   if dt_ltb latest conv_latest then Some conv_latest
                   else Some latest
               end)
          else latest_timestamp_loop base_chat_id rest latest_timestamp
      | [] => latest_timestamp_loop base_chat_id rest latest_timestamp
      end
  end.

(** [_should_start_new_conversation_by_time] *)
Definition _should_start_new_conversation_by_time
           (base_chat_id : str) (current_timestamp : datetime)
           (threshold_minutes : nat) : bool :=
  match conversations with
  | [] => true
  | _ :: _ =>
      match latest_timestamp_loop base_chat_id conversations None with
      | None => true
      | Some latest_timestamp =>
          minutes_apart_exceed current_timestamp latest_timestamp
                               threshold_minutes
      end
  end.

(** [max(matching_convs, key=...)] after its first element: the key of
    every element is computed, and an element replaces the best one only
    when its key is greater. *)
Fixpoint max_by_latest (best : str * Conversation) (best_key : datetime)
         (rest : list (str * Conversation)) : result (str * Conversation) :=
  match rest with
  | [] => Ok best
  | x :: rest' =>
      key <- max_timestamp (messages (snd x)) ;;
      if dt_ltb best_key key then max_by_latest x key rest'
      else max_by_latest best best_key rest'
  end.

(** [_get_current_conversation_id] *)
Definition _get_current_conversation_id (base_chat_id : str) : result str :=
  let matching_convs :=
    filter (fun x => startswith base_chat_id (fst x)) conversations in
  match matching_convs with
  | [] => Ok base_chat_id
  | first :: rest =>
      first_key <- max_timestamp (messages (snd first)) ;;
      latest_conv <- max_by_latest first first_key rest ;;
      Ok (fst latest_conv)
  end.

(** [[msg for msg in history_data if msg.get('role') == 'user']] *)
Fixpoint user_turns (history_data : list json) : result (list json) :=
  match history_data with
  | [] => Ok []
  | msg :: rest =>
      is_user <- has_role msg (lit "user") ;;
      turns <- user_turns rest ;;
      Ok (if (is_user : bool) then msg :: turns else turns)
  end.

(** [determine_conversation_id] *)
Definition determine_conversation_id (base_chat_id user_message : str)
           (timestamp : datetime) (history_data : list json) : result str :=
  match search_konversation (lower user_message) with
  | Some conv_num => Ok (base_chat_id ++ lit "_conv" ++ conv_num)
  | None =>
      user_messages <- user_turns history_data ;;
      let by_time :=
        seconds <- posix_seconds timestamp ;;
        Ok (base_chat_id ++ lit "_" ++ str_of_Z seconds) in
      if (length user_messages =? 1)
         && _should_start_new_conversation_by_time base_chat_id timestamp 120
      then by_time
      else if _should_start_new_conversation_by_time base_chat_id timestamp
                                                     120
      then by_time
      else if _is_short_test_message user_message
              && _should_start_new_conversation_by_time base_chat_id
                                                        timestamp 30
      then
        seconds <- posix_seconds timestamp ;;
        Ok (base_chat_id ++ lit "_test_" ++ str_of_Z seconds)
      else _get_current_conversation_id base_chat_id
  end.

End Heuristics.

Section ReplyAfterPost.

Context {L : PyLib}.

(** The [for next_idx in range(idx + 1, len(history_data))] loop: the
    first assistant turn whose stripped content is not empty. *)
Fixpoint first_nonempty_assistant (after : list json) : result (option str) :=
  match after with
  | [] => Ok None
  | msg :: rest =>
      is_assistant <- has_role msg (lit "assistant") ;;
      if (is_assistant : bool) then
        assistant_content <- content_stripped msg ;;
        match assistant_content with
        | [] => first_nonempty_assistant rest
        | _ :: _ => Ok (Some assistant_content)
        end
      else first_nonempty_assistant rest
  end.

(** The [for idx, msg in enumerate(history_data)] loop; [wanted] is
    [user_message.strip()]. *)
Fixpoint reply_in_history (history_data : list json) (wanted : str)
  : result (option str) :=
  match history_data with
  | [] => Ok None
  | msg :: rest =>
      is_user <- has_role msg (lit "user") ;;
      if (is_user : bool) then
        c <- content_stripped msg ;;
        if str_eqb c wanted then
          found <- first_nonempty_assistant rest ;;
          match found with
          | Some reply => Ok (Some reply)
          | None => reply_in_history rest wanted
          end
        else reply_in_history rest wanted
      else reply_in_history rest wanted
  end.

(** The body of the [try] on one block. *)
Definition reply_in_block (json_content user_message : str)
  : result (option str) :=
  d <- decode_block json_content ;;
  match d with
  | None => Ok None
  | Some history_data => reply_in_history history_data (strip user_message)
  end.

(** The [for i, line in enumerate(lines)] loop; [rest] is [lines[i:]]. *)
Fixpoint reply_after_post_loop (rest : list str) (i : nat)
         (post_timestamp : datetime) (user_message : str)
  : Py (option str) :=
  match rest with
  | [] => py_ret None
  | line :: rest' =>
      let next := reply_after_post_loop rest' (S i) post_timestamp
                                        user_message in
      if contains HISTORY_MARKER line then
        match re_match TS_MILLIS line with
        | Some timestamp_str =>
            history_timestamp <~ parse_timestamp timestamp_str ;;
            if dt_ltb post_timestamp history_timestamp then
              let '(json_lines, _) := collect_block rest' (S i) [line] in
              let json_content := join_lines json_lines in
              match reply_in_block json_content user_message with
              | Ok (Some reply) => py_ret (Some reply)
              | Ok None => next
              | Raise e =>
                  if is_decode_error e then next else py_lift (Raise e)
              end
            else next
        | None => next
        end
      else next
  end.

(** [_find_claude_response_after_post], on the text of the log file;
    [None] is Python's [None]. *)
Definition _find_claude_response_after_post (file_content : str)
           (post_timestamp : datetime) (user_message : str)
  : Py (option str) :=
  reply_after_post_loop (split_lines file_content) 0 post_timestamp
                        user_message.

End ReplyAfterPost.

(** ** The overview and the choice of a conversation *)

(** [sorted(self.conversations.values(), key=lambda c: c.start_time)] *)
Definition sorted_conversations (conversations : list (str * Conversation))
  : list Conversation :=
  stable_sort (fun y x => dt_ltb (start_time y) (start_time x))
              (map snd conversations).

(** The choice of an entry by the number typed in: [index = number - 1],
    then the entry at [index] when [0 <= index < len(entries)], else
    nothing (the "invalid choice" branch). *)
Definition choose_by_number (A : Type) (entries : list A) (number : Z)
  : option A :=
  let index := (number - 1)%Z in
  if ((0 <=? index)%Z && (index <? Z.of_nat (length entries))%Z)
  then nth_error entries (Z.to_nat index)
  else None.

(** ** An instance of the time arithmetic, and more logs *)

Module DemoTime.

Import Demo.

(** Days from 0001-01-01 (day 1) in the proleptic Gregorian calendar, as
    [date.toordinal]. *)
Definition days_before_year (y : nat) : Z :=
  let p := (Z.of_nat y - 1)%Z in
  (365 * p + p / 4 - p / 100 + p / 400)%Z.

Fixpoint days_before_month_from (y m k : nat) : nat :=
  match k with
  | 0 => 0
  | S k' => days_before_month_from y m k'
            + (if S k' <? m then days_in_month y (S k') else 0)
  end.

Definition ordinal (d : datetime) : Z :=
  (days_before_year (year d)
   + Z.of_nat (days_before_month_from (year d) (month d) 12)
   + Z.of_nat (day d))%Z.

(** Microseconds since the start of day 0. *)
Definition micros (d : datetime) : Z :=
  ((ordinal d * 86400
    + Z.of_nat (hour d) * 3600 + Z.of_nat (minute d) * 60
    + Z.of_nat (second d)) * 1000000
   + Z.of_nat (microsecond d))%Z.

(** [n / (d * 2^e)] as a fraction of integers *)
Definition scaled (n d e : Z) : Z * Z :=
  if (0 <=? e)%Z then (n, d * 2 ^ e)%Z else (n * 2 ^ (- e), d)%Z.

(** The floating-point number nearest to [n / d], for [d > 0], ties to the
    even one: [(m, e)] stands for [m * 2^e], with 53 bits in [m]. *)
Definition round53 (n d : Z) : Z * Z :=
  if (n =? 0)%Z then (0, 0)%Z
  else
    let a := Z.abs n in
    let e := (Z.log2 a - Z.log2 d - 52)%Z in
    let e :=
      if (fst (scaled a d e) / snd (scaled a d e) <? 2 ^ 52)%Z
      then (e - 1)%Z else e in
    let e :=
      if (2 ^ 53 <=? fst (scaled a d e) / snd (scaled a d e))%Z
      then (e + 1)%Z else e in
    let '(num, den) := scaled a d e in
    let q := (num / den)%Z in
    let r := (num mod den)%Z in
    let q :=
      if (den <? 2 * r)%Z || ((2 * r =? den)%Z && Z.odd q)
      then (q + 1)%Z else q in
    (Z.sgn n * q, e)%Z.

(** [int(x)] of a floating-point number: towards zero. *)
Definition truncate (x : Z * Z) : Z :=
  let '(m, e) := x in
  if (0 <=? e)%Z then (m * 2 ^ e)%Z else Z.quot m (2 ^ (- e)).

(** [int(d.timestamp())] on a machine whose local time zone is UTC.
    [timestamp] adds the seconds and [microsecond / 1e6] in floating
    point, so late in a second of a far year the sum rounds up to the
    next second.  Its search for the UTC offset looks a day back and
    fails on the first day of year 1. *)
Definition demo_posix_seconds (d : datetime) : result Z :=
  if (ordinal d =? 1)%Z then Raise ValueError
  else
    let seconds :=
      ((ordinal d - 719163) * 86400
       + Z.of_nat (hour d) * 3600 + Z.of_nat (minute d) * 60
       + Z.of_nat (second d))%Z in
    let '(m, e) := round53 (Z.of_nat (microsecond d)) 1000000 in
    Ok (truncate (round53 (seconds * 2 ^ (- e) + m) (2 ^ (- e)))).

(** [x / d] in floating point, for an integer [d > 0] *)
Definition div_double (x : Z * Z) (d : Z) : Z * Z :=
  let '(m, e) := x in
  if (0 <=? e)%Z then round53 (m * 2 ^ e) d else round53 m (d * 2 ^ (- e)).

(** [(a - b).total_seconds() / 60 > threshold]: the microseconds between
    the two are divided by [10**6] and then by 60, both in floating
    point; the comparison with the integer is exact. *)
Definition demo_minutes_apart_exceed (a b : datetime) (threshold : nat)
  : bool :=
  let '(m, e) := div_double (round53 (micros a - micros b) 1000000) 60 in
  if (0 <=? e)%Z then (Z.of_nat threshold <? m * 2 ^ e)%Z
  else (Z.of_nat threshold * 2 ^ (- e) <? m)%Z.

#[export] Instance demo_time : PyTime := {|
  posix_seconds := demo_posix_seconds;
  minutes_apart_exceed := demo_minutes_apart_exceed
|}.

(** A conversation with one message at a given time. *)
Definition conversation_at (d : datetime) : Conversation :=
  {| chat_id := lit "chat"; first_message := lit "hi"; start_time := d;
     message_count := 1;
     messages := [{| msg_timestamp := d; user_message := lit "hi";
                     claude_response := lit "hello";
                     context_documents := [] |}] |}.

(** A conversation without message. *)
Definition conversation_without_message : Conversation :=
  {| chat_id := lit "chat"; first_message := []; start_time := T1;
     message_count := 0; messages := [] |}.

(** Two conversations of the chat [abc], the second one the newer. *)
Definition two_conversations : list (str * Conversation) :=
  [(lit "abc_1", conversation_at T1); (lit "abc_2", conversation_at T2);
   (lit "xyz", conversation_at T3)].

(** A log whose assistant turn is empty in the first snapshot and filled
    in the second. *)
Definition log_late_reply : str :=
  log_of [entry "2024-01-01 10:00:00,000"
                "{'role':'user','content':' hi '},{'role':'assistant','content':'  '}]";
          lit "2024-01-01 10:00:01,000 INFO POST /chat";
          entry "2024-01-01 10:05:00,000"
                "{'role':'user','content':'hi'},{'role':'assistant','content':' hello '}]"].

(** The final set of a log. *)
Definition final_set (file_content : str) : list (str * Conversation) :=
  match run file_content with
  | Ok convs => convs
  | Raise _ => []
  end.

(** A log whose only block opens 994 arrays. *)
Definition log_too_deep : str :=
  log_of [lit "2024-01-01 10:00:00,000 INFO [HISTORY]["
              ++ repeat (Latin "[") 994].

(** A log whose only block holds a number among its turns. *)
Definition log_number_in_array : str :=
  log_of [entry "2024-01-01 10:00:00,000"
                "{'role':'user','content':'hi'},5]"].

End DemoTime.

(** ** Vocabulary for the heuristics and the reply lookup *)

(** A conversation counts for the time heuristic when its id starts with
    the chat id and it has a message. *)
Definition relevant_conversation (base_chat_id : str)
           (x : str * Conversation) : bool :=
  startswith base_chat_id (fst x)
  && match messages (snd x) with [] => false | _ :: _ => true end.

(** In the turn list, [reply] is the stripped content of an assistant turn
    that comes after a user turn whose stripped content is [wanted]. *)
Definition replies_to (history_data : list json) (wanted reply : str)
  : Prop :=
  exists before msg between answer after,
    history_data = before ++ msg :: between ++ answer :: after /\
    has_role msg (lit "user") = Ok true /\
    content_stripped msg = Ok wanted /\
    has_role answer (lit "assistant") = Ok true /\
    content_stripped answer = Ok reply.

(** [t] is the time of the newest message of [c]. *)
Definition newest_message_at (c : Conversation) (t : datetime) : Prop :=
  (exists m, In m (messages c) /\ msg_timestamp m = t) /\
  forall m, In m (messages c) -> dt_leb (msg_timestamp m) t = true.

(** The first reply that the blocks newer than [post_timestamp] give, in
    the order of the list; a block that does not decode is passed over. *)
Fixpoint first_reply_in {L : PyLib} (blocks : list hist_block)
         (post_timestamp : datetime) (user_message : str)
  : result (option str) :=
  match blocks with
  | [] => Ok None
  | b :: rest =>
      if dt_ltb post_timestamp (timestamp b) then
        match reply_in_block (content b) user_message with
        | Ok (Some reply) => Ok (Some reply)
        | Ok None => first_reply_in rest post_timestamp user_message
        | Raise e =>
            if is_decode_error e
            then first_reply_in rest post_timestamp user_message
            else Raise e
        end
      else first_reply_in rest post_timestamp user_message
  end.

(* ================================================================== *)
(** * Facts about strings                                              *)
(* ================================================================== *)

Lemma char_eqb_spec a b : reflect (a = b) (char_eqb a b).
Proof.
  destruct a as [x| | |], b as [y| | |]; cbn [char_eqb];
    try (constructor; congruence).
  destruct (Ascii.eqb_spec x y) as [->|Hxy]; constructor; congruence.
Qed.

Lemma char_eqb_refl a : char_eqb a a = true.
Proof. destruct (char_eqb_spec a a); congruence. Qed.

Lemma char_eqb_eq a b : char_eqb a b = true <-> a = b.
Proof. destruct (char_eqb_spec a b); split; congruence. Qed.

Lemma char_eqb_neq a b : char_eqb a b = false <-> a <> b.
Proof. destruct (char_eqb_spec a b); split; congruence. Qed.

Lemma str_eqb_spec a b : reflect (a = b) (str_eqb a b).
Proof.
  revert b; induction a as [|x a IH]; intros [|y b]; simpl;
    try (constructor; congruence).
  destruct (char_eqb_spec x y) as [->|Hxy]; simpl.
  - destruct (IH b) as [->|Hab]; constructor; congruence.
  - constructor; congruence.
Qed.

Lemma str_eqb_refl a : str_eqb a a = true.
Proof. destruct (str_eqb_spec a a); congruence. Qed.

Lemma str_eqb_eq a b : str_eqb a b = true <-> a = b.
Proof. destruct (str_eqb_spec a b); split; congruence. Qed.

Lemma strs_eqb_eq a b : strs_eqb a b = true <-> a = b.
Proof.
  revert b; induction a as [|x a IH]; intros [|y b]; simpl;
    try (split; congruence).
  rewrite andb_true_iff, str_eqb_eq, IH. split.
  - intros [-> ->]; reflexivity.
  - intros E; injection E; auto.
Qed.

(* ================================================================== *)
(** * The bracket scan stops at the first balanced position            *)
(* ================================================================== *)

(** The loop state of the source and the mode of the specification move
    together.  From a positive depth, the loop either breaks right after
    the first character that brings the depth to zero, or it runs to the
    end with the depth positive all along. *)
Lemma scan_chars_first_zero cs : forall k bc m dflt,
  (0 < bc)%Z ->
  (exists j, j < length cs /\
     scan_chars cs k bc (mode_in_string m) (mode_escape m) dflt = k + S j /\
     snd (lex_run m bc (firstn (S j) cs)) = 0%Z /\
     forall i, i <= j -> (0 < snd (lex_run m bc (firstn i cs)))%Z)
  \/ (scan_chars cs k bc (mode_in_string m) (mode_escape m) dflt = dflt /\
      forall i, (0 < snd (lex_run m bc (firstn i cs)))%Z).
Proof.
  induction cs as [|c cs IH]; intros k bc m dflt Hbc.
  - right. split; [reflexivity|]. intros [|i]; simpl; assumption.
  - (* one round of the loop, then the induction hypothesis *)
    assert (Hstep : forall m' bc',
      (0 < bc')%Z ->
      lex_step m c = m' -> depth_step m bc c = bc' ->
      scan_chars (c :: cs) k bc (mode_in_string m) (mode_escape m) dflt
      = scan_chars cs (S k) bc' (mode_in_string m') (mode_escape m') dflt ->
      (exists j, j < length (c :: cs) /\
         scan_chars (c :: cs) k bc (mode_in_string m) (mode_escape m) dflt
         = k + S j /\
         snd (lex_run m bc (firstn (S j) (c :: cs))) = 0%Z /\
         forall i, i <= j -> (0 < snd (lex_run m bc (firstn i (c :: cs))))%Z)
      \/ (scan_chars (c :: cs) k bc (mode_in_string m) (mode_escape m) dflt
          = dflt /\
          forall i, (0 < snd (lex_run m bc (firstn i (c :: cs))))%Z)).
    { intros m' bc' Hbc' Hm Hd Heq. rewrite Heq.
      destruct (IH (S k) bc' m' dflt Hbc') as [(j & Hj & Hn & Hz & Hpos)|(Hn & Hpos)].
      - left. exists (S j). split; [simpl; lia|]. split; [rewrite Hn; lia|].
        split.
        + change (firstn (S (S j)) (c :: cs)) with (c :: firstn (S j) cs).
          simpl lex_run. rewrite Hm, Hd. exact Hz.
        + intros [|i] Hi; [simpl; assumption|].
          change (firstn (S i) (c :: cs)) with (c :: firstn i cs).
          simpl lex_run. rewrite Hm, Hd. apply Hpos. lia.
      - right. split; [assumption|].
        intros [|i]; [simpl; assumption|].
        change (firstn (S i) (c :: cs)) with (c :: firstn i cs).
        simpl lex_run. rewrite Hm, Hd. apply Hpos. }
    destruct m; simpl mode_in_string in *; simpl mode_escape in *.
    + (* outside a string *)
      destruct (char_eqb_spec c dquote) as [->|Eq].
      { apply (Hstep InString bc); auto. }
      destruct (char_eqb_spec c (Latin "[")) as [->|Eo].
      { apply (Hstep Outside (bc + 1)%Z); auto. lia. }
      destruct (char_eqb_spec c (Latin "]")) as [->|Ec].
      { destruct (Z.eqb_spec (bc - 1) 0) as [Hz|Hnz].
        - left. exists 0. split; [simpl; lia|]. split.
          + simpl. destruct (Z.eqb_spec (bc - 1) 0); [lia|contradiction].
          + split; [exact Hz|].
            intros i Hi. assert (i = 0) by lia. subst i. simpl. assumption.
        - apply (Hstep Outside (bc - 1)%Z); auto; [lia|].
          simpl. destruct (Z.eqb_spec (bc - 1) 0); [contradiction|reflexivity]. }
      apply char_eqb_neq in Eq, Eo, Ec.
      apply (Hstep Outside bc); auto; simpl; rewrite ?Eq, ?Eo, ?Ec; auto.
      rewrite andb_false_r. reflexivity.
    + (* inside a string *)
      destruct (char_eqb_spec c backslash) as [->|Eb].
      { apply (Hstep Escaped bc); auto. }
      destruct (char_eqb_spec c dquote) as [->|Eq].
      { apply (Hstep Outside bc); auto. }
      apply char_eqb_neq in Eb, Eq.
      apply (Hstep InString bc); auto; simpl; rewrite ?Eb, ?Eq; auto.
    + (* right after a backslash *)
      apply (Hstep InString bc); auto.
Qed.

Lemma bracket_depth_open (rest : str) (m : nat) :
  bracket_depth (firstn (S m) ((Latin "[") :: rest))
  = snd (lex_run Outside 1%Z (firstn m rest)).
Proof. reflexivity. Qed.

Lemma find_json_end_open (rest : str) :
  find_json_end ((Latin "[") :: rest)
  = scan_chars rest 1 1%Z false false (S (length rest)).
Proof. reflexivity. Qed.

Lemma startswith_char c s :
  startswith [c] s = true -> exists rest, s = c :: rest.
Proof.
  destruct s as [|x rest]; simpl; [discriminate|].
  rewrite andb_true_r. intros H. apply char_eqb_eq in H. subst x.
  exists rest. reflexivity.
Qed.

(** The text handed to the scan opens with a bracket. *)
Lemma json_part_of_open block_content json_part :
  json_part_of block_content = Some json_part ->
  exists rest, json_part = (Latin "[") :: rest.
Proof.
  unfold json_part_of.
  destruct (find HISTORY_MARKER block_content) as [k|]; [|discriminate].
  set (s := strip (skipn (k + length HISTORY_MARKER) block_content)).
  destruct (startswith (lit "[") s) eqn:Hopen.
  - intros H. injection H as <-. apply startswith_char. exact Hopen.
  - destruct (startswith (lit "{") s); [|discriminate].
    intros H. injection H as <-. exists s. reflexivity.
Qed.

(** C4. On the payload that follows the HISTORY marker (it starts with
    an opening bracket, which the analyzer puts back when the marker took
    it), the scan cuts the text right after the first
    position where the bracket depth, counted outside string literals and
    with escaped characters skipped, is back to zero; everything after that
    position is dropped.  When the depth never comes back to zero the whole
    payload is kept.  On the payload
    [[{"role":"user","content":"a[b]c"}]GARBAGE] the result is the array
    up to its closing bracket. *)
Theorem extract_json_str_first_balance (rest : str) :
  let payload := (Latin "[") :: rest in
  let n := find_json_end payload in
  extract_json_str payload = firstn n payload /\
  1 <= n <= length payload /\
  (forall m, 1 <= m < n -> (0 < bracket_depth (firstn m payload))%Z) /\
  (bracket_depth (firstn n payload) = 0%Z \/
   (n = length payload /\ (0 < bracket_depth payload)%Z)) /\
  extract_json_str (jlit "[{'role':'user','content':'a[b]c'}]GARBAGE")
  = jlit "[{'role':'user','content':'a[b]c'}]" /\
  (forall block_content json_part,
     json_part_of block_content = Some json_part ->
     exists rest', json_part = (Latin "[") :: rest').
Proof.
  cbv zeta.
  assert (Hopen : forall block_content json_part,
            json_part_of block_content = Some json_part ->
            exists rest', json_part = (Latin "[") :: rest')
    by apply json_part_of_open.
  split; [reflexivity|].
  rewrite find_json_end_open.
  assert (H1 : (0 < 1)%Z) by lia.
  destruct (scan_chars_first_zero rest 1 1%Z Outside (S (length rest)) H1)
    as [(j & Hj & Hn & Hz & Hpos)|(Hn & Hpos)];
    simpl mode_in_string in *; simpl mode_escape in *; rewrite Hn.
  - split; [simpl length; lia|]. split.
    + intros [|m] Hm; [lia|]. rewrite bracket_depth_open. apply Hpos. lia.
    + split; [|split; [vm_compute; reflexivity|exact Hopen]].
      left. change (1 + S j) with (S (S j)).
      rewrite bracket_depth_open. exact Hz.
  - split; [simpl length; lia|]. split.
    + intros [|m] Hm; [lia|]. rewrite bracket_depth_open. apply Hpos.
    + split; [|split; [vm_compute; reflexivity|exact Hopen]].
      right. split; [reflexivity|].
      specialize (Hpos (length rest)). rewrite firstn_all in Hpos.
      exact Hpos.
Qed.

(* ================================================================== *)
(** * The timestamp parser never raises                                *)
(* ================================================================== *)

Section TimestampParser.

Context {L : PyLib}.

Lemma parse_timestamp_value (timestamp_str : str) (clock : nat) :
  parse_timestamp timestamp_str clock
  = (Ok (fst (parse_timestamp_spec timestamp_str clock)),
     snd (parse_timestamp_spec timestamp_str clock)).
Proof.
  unfold parse_timestamp, parse_timestamp_spec, py_try, strptime_py,
    py_lift, datetime_now.
  destruct (strptime timestamp_str FMT_MILLIS) as [d|]; [reflexivity|].
  simpl is_ValueError. cbv iota.
  destruct (strptime (firstn 19 timestamp_str) FMT_SECONDS) as [d|];
    reflexivity.
Qed.

(** C7. For every text and every state of the clock, [parse_timestamp]
    returns a value and raises nothing: the parse of the full text in the
    millisecond format when that succeeds, else the parse of the first 19
    characters in the second format when that succeeds, else the reading of
    the wall clock. *)
Theorem parse_timestamp_total (timestamp_str : str) (clock : nat) :
  (exists d clock', parse_timestamp timestamp_str clock = (Ok d, clock'))
  /\
  parse_timestamp timestamp_str clock
  = (Ok (fst (parse_timestamp_spec timestamp_str clock)),
     snd (parse_timestamp_spec timestamp_str clock))
  /\
  (forall d,
     strptime timestamp_str FMT_MILLIS = Some d ->
     parse_timestamp timestamp_str clock = (Ok d, clock))
  /\
  (forall d,
     strptime timestamp_str FMT_MILLIS = None ->
     strptime (firstn 19 timestamp_str) FMT_SECONDS = Some d ->
     parse_timestamp timestamp_str clock = (Ok d, clock))
  /\
  (strptime timestamp_str FMT_MILLIS = None ->
   strptime (firstn 19 timestamp_str) FMT_SECONDS = None ->
   parse_timestamp timestamp_str clock = (Ok (wall_clock clock), S clock)).
Proof.
  pose proof (parse_timestamp_value timestamp_str clock) as H.
  split; [eexists; eexists; exact H|].
  split; [exact H|].
  unfold parse_timestamp_spec in H.
  split; [|split].
  - intros d Hd. rewrite Hd in H. exact H.
  - intros d Hd Hd'. rewrite Hd, Hd' in H. exact H.
  - intros Hd Hd'. rewrite Hd, Hd' in H. exact H.
Qed.

End TimestampParser.

(* ================================================================== *)
(** * The segmenter                                                    *)
(* ================================================================== *)

Lemma atoms_match_app p q s :
  atoms_match (p ++ q) s = true -> atoms_match p s = true.
Proof.
  revert s; induction p as [|a p IH]; intros [|c s]; simpl; auto.
  rewrite !andb_true_iff. intros [Ha Hs]. split; [assumption|].
  apply IH; assumption.
Qed.

Lemma re_match_atoms p s :
  re_match p s = if atoms_match p s then Some (firstn (length p) s) else None.
Proof. reflexivity. Qed.

Lemma block_start_starts_entry line :
  is_block_start line = true -> starts_entry line = true.
Proof.
  unfold is_block_start, starts_entry. rewrite andb_true_iff.
  intros [_ H]. unfold TS_MILLIS in H. apply atoms_match_app in H. exact H.
Qed.

Lemma collect_block_body rest : forall j block_lines,
  collect_block rest j block_lines
  = (block_lines ++ block_body rest, j + length (block_body rest)).
Proof.
  induction rest as [|l rest IH]; intros j acc; simpl.
  - rewrite app_nil_r, Nat.add_0_r. reflexivity.
  - rewrite re_match_atoms. unfold starts_entry.
    destruct (atoms_match TS_SECONDS l).
    + simpl. rewrite app_nil_r, Nat.add_0_r. reflexivity.
    + rewrite IH. simpl. rewrite <- app_assoc. simpl.
      f_equal. lia.
Qed.

Lemma block_body_prefix rest :
  exists tail, rest = block_body rest ++ tail.
Proof.
  induction rest as [|l rest [tail IH]]; simpl.
  - exists []. reflexivity.
  - destruct (starts_entry l).
    + exists (l :: rest). reflexivity.
    + exists tail. simpl. rewrite <- IH. reflexivity.
Qed.

Lemma block_body_no_entry rest :
  Forall (fun l => starts_entry l = false) (block_body rest).
Proof.
  induction rest as [|l rest IH]; simpl; [constructor|].
  destruct (starts_entry l) eqn:E; constructor; assumption.
Qed.

Lemma filter_none (A : Type) (f : A -> bool) (l : list A) :
  (forall x, In x l -> f x = false) -> filter f l = [].
Proof.
  induction l as [|x l IH]; intros H; simpl; [reflexivity|].
  rewrite (H x) by (left; reflexivity). apply IH.
  intros y Hy. apply H. right. assumption.
Qed.

(** No line of a block body opens a block: the lines between a block
    start and the end of its body add nothing to the starts. *)
Lemma filter_starts_skip_body lines i :
  i < length lines ->
  filter (fun k => is_block_start (nth k lines []))
         (seq (S i) (length lines - S i))
  = filter (fun k => is_block_start (nth k lines []))
           (seq (S i + length (block_body (skipn (S i) lines)))
                (length lines
                 - (S i + length (block_body (skipn (S i) lines))))).
Proof.
  intros Hi.
  set (j := S i + length (block_body (skipn (S i) lines))).
  destruct (block_body_prefix (skipn (S i) lines)) as [tail Htail].
  set (body := block_body (skipn (S i) lines)) in *.
  assert (Hlen : length body <= length lines - S i).
  { assert (H : length (skipn (S i) lines) = length lines - S i)
      by apply length_skipn.
    rewrite Htail, length_app in H. lia. }
  replace (length lines - S i) with (length body + (length lines - j))
    by (unfold j; lia).
  rewrite seq_app, filter_app.
  replace (S i + length body) with j by reflexivity.
  rewrite filter_none; [reflexivity|].
  intros k Hk. apply in_seq in Hk.
  assert (Hnth : nth k lines [] = nth (k - S i) body []).
  { replace k with (S i + (k - S i)) at 1 by lia.
    rewrite <- nth_skipn, Htail, app_nth1 by lia. reflexivity. }
  rewrite Hnth.
  assert (Hno : starts_entry (nth (k - S i) body []) = false).
  { pose proof (block_body_no_entry (skipn (S i) lines)) as HF.
    rewrite Forall_forall in HF. apply HF. apply nth_In. fold body. lia. }
  destruct (is_block_start (nth (k - S i) body [])) eqn:E; [|reflexivity].
  apply block_start_starts_entry in E. congruence.
Qed.

Section Segmenter.

Context {L : PyLib}.

Lemma blocks_at_cons lines i rest clock :
  blocks_at lines (i :: rest) clock
  = ({| timestamp :=
          fst (parse_timestamp_spec (firstn 23 (nth i lines [])) clock);
        timestamp_str := firstn 23 (nth i lines []);
        content := block_text lines i;
        line_number := i |}
       :: fst (blocks_at lines rest
                 (snd (parse_timestamp_spec (firstn 23 (nth i lines []))
                         clock))),
     snd (blocks_at lines rest
            (snd (parse_timestamp_spec (firstn 23 (nth i lines [])) clock)))).
Proof. reflexivity. Qed.

Lemma segment_loop_blocks fuel : forall lines i history_blocks clock,
  length lines - i <= fuel ->
  segment_loop fuel lines i history_blocks clock
  = (Ok (history_blocks ++
           fst (blocks_at lines
                  (filter (fun k => is_block_start (nth k lines []))
                          (seq i (length lines - i))) clock)),
     snd (blocks_at lines
            (filter (fun k => is_block_start (nth k lines []))
                    (seq i (length lines - i))) clock)).
Proof.
  induction fuel as [|fuel IH]; intros lines i acc clock Hfuel.
  - replace (length lines - i) with 0 by lia. simpl.
    rewrite app_nil_r. reflexivity.
  - simpl segment_loop.
    destruct (nth_error lines i) as [line|] eqn:Hnth.
    + assert (Hi : i < length lines)
        by (apply nth_error_Some; congruence).
      assert (Hline : nth i lines [] = line)
        by (apply nth_error_nth; assumption).
      replace (length lines - i) with (S (length lines - S i)) by lia.
      simpl seq. simpl filter. rewrite Hline.
      rewrite re_match_atoms.
      destruct (is_block_start line) eqn:Hstart.
      * unfold is_block_start in Hstart. apply andb_true_iff in Hstart.
        destruct Hstart as [Hmark Hts]. rewrite Hmark, Hts.
        unfold py_bind. rewrite parse_timestamp_value.
        rewrite collect_block_body.
        rewrite IH by lia.
        rewrite <- filter_starts_skip_body by assumption.
        rewrite blocks_at_cons, Hline.
        change (length TS_MILLIS) with 23.
        unfold block_text. rewrite Hline.
        cbn [fst snd]. rewrite <- app_assoc. reflexivity.
      * unfold is_block_start in Hstart.
        destruct (contains HISTORY_MARKER line);
          [destruct (atoms_match TS_MILLIS line); [discriminate|]|];
          apply IH; lia.
    + apply nth_error_None in Hnth.
      replace (length lines - i) with 0 by lia. simpl.
      rewrite app_nil_r. reflexivity.
Qed.

Lemma segment_blocks_at (lines : list str) (clock : nat) :
  segment lines clock
  = (Ok (fst (blocks_at lines (block_starts lines) clock)),
     snd (blocks_at lines (block_starts lines) clock)).
Proof.
  unfold segment, block_starts.
  rewrite segment_loop_blocks by lia.
  rewrite Nat.sub_0_r. reflexivity.
Qed.

Lemma block_body_all following :
  Forall (fun l => starts_entry l = false) following ->
  block_body following = following.
Proof.
  induction 1 as [|l rest Hl _ IH]; simpl; [reflexivity|].
  rewrite Hl, IH. reflexivity.
Qed.

(** C6. The segmenter opens a block at exactly the lines that hold the
    HISTORY marker and begin with a timestamp in the millisecond format, in
    file order.  The text of a block is its first line followed by the
    lines up to, and without, the next line that begins with a timestamp;
    that line is looked at again, so it can open the next block.  A marker
    line without such a timestamp opens nothing and the scan goes on.  When
    no later line begins with a timestamp, the block runs to the end of the
    file. *)
Theorem segment_blocks (file_content : str) (clock : nat) :
  let lines := split_lines file_content in
  segment lines clock
  = (Ok (fst (blocks_at lines (block_starts lines) clock)),
     snd (blocks_at lines (block_starts lines) clock))
  /\ (forall body next rest,
        Forall (fun l => starts_entry l = false) body ->
        starts_entry next = true ->
        block_body (body ++ next :: rest) = body)
  /\ (forall following,
        Forall (fun l => starts_entry l = false) following ->
        block_body following = following)
  /\ (forall line, is_block_start line = true -> starts_entry line = true).
Proof.
  cbv zeta. split; [|split; [|split]].
  - apply segment_blocks_at.
  - intros body next rest Hbody Hnext.
    induction Hbody as [|l body Hl _ IH]; simpl.
    + rewrite Hnext. reflexivity.
    + rewrite Hl, IH. reflexivity.
  - apply block_body_all.
  - apply block_start_starts_entry.
Qed.

End Segmenter.

(* ================================================================== *)
(** * The order on datetimes and the stable sort                       *)
(* ================================================================== *)

Lemma lex_ltb_irrefl a : lex_ltb a a = false.
Proof.
  induction a as [|x a IH]; simpl; [reflexivity|].
  rewrite Nat.ltb_irrefl, Nat.eqb_refl, IH. reflexivity.
Qed.

Lemma lex_ltb_trans a : forall b c,
  lex_ltb a b = true -> lex_ltb b c = true -> lex_ltb a c = true.
Proof.
  induction a as [|x a IH]; intros [|y b] [|z c]; simpl; try congruence.
  rewrite !orb_true_iff, !andb_true_iff, !Nat.ltb_lt, !Nat.eqb_eq.
  intros [Hxy|[Hxy Hab]] [Hyz|[Hyz Hbc]].
  - left. lia.
  - left. lia.
  - left. lia.
  - right. split; [lia|]. apply IH with b; assumption.
Qed.

Lemma lex_ltb_total a : forall b,
  lex_ltb a b = false -> lex_ltb b a = false -> a = b.
Proof.
  induction a as [|x a IH]; intros [|y b]; simpl; try congruence.
  rewrite !orb_false_iff, !andb_false_iff, !Nat.ltb_ge, !Nat.eqb_neq.
  intros [Hxy Hab] [Hyx Hba].
  assert (x = y) by lia. subst y.
  destruct Hab as [?|Hab]; [congruence|].
  destruct Hba as [?|Hba]; [congruence|].
  f_equal. apply IH; assumption.
Qed.

Lemma lex_ltb_asym a b : lex_ltb a b = true -> lex_ltb b a = false.
Proof.
  intros Hab. destruct (lex_ltb b a) eqn:Hba; [|reflexivity].
  pose proof (lex_ltb_trans _ _ _ Hab Hba) as H.
  rewrite lex_ltb_irrefl in H. discriminate.
Qed.

Lemma lex_ltb_negtrans a b c :
  lex_ltb a b = false -> lex_ltb b c = false -> lex_ltb a c = false.
Proof.
  intros Hab Hbc. destruct (lex_ltb a c) eqn:Hac; [|reflexivity].
  destruct (lex_ltb b a) eqn:Hba.
  - rewrite (lex_ltb_trans _ _ _ Hba Hac) in Hbc. discriminate.
  - rewrite (lex_ltb_total _ _ Hab Hba) in Hac. congruence.
Qed.

Lemma dt_ltb_irrefl a : dt_ltb a a = false.
Proof. apply lex_ltb_irrefl. Qed.

Lemma dt_ltb_trans a b c :
  dt_ltb a b = true -> dt_ltb b c = true -> dt_ltb a c = true.
Proof. apply lex_ltb_trans. Qed.

Lemma dt_ltb_asym a b : dt_ltb a b = true -> dt_ltb b a = false.
Proof. apply lex_ltb_asym. Qed.

Lemma dt_ltb_negtrans a b c :
  dt_ltb a b = false -> dt_ltb b c = false -> dt_ltb a c = false.
Proof. apply lex_ltb_negtrans. Qed.

Lemma dt_leb_refl a : dt_leb a a = true.
Proof. unfold dt_leb. rewrite dt_ltb_irrefl. reflexivity. Qed.

Section StableSortFacts.

Variable A : Type.
Variable before : A -> A -> bool.

Hypothesis before_asym : forall a b, before a b = true -> before b a = false.
Hypothesis before_negtrans :
  forall a b c, before a b = false -> before b c = false -> before a c = false.

Lemma stable_insert_perm x l : Permutation (x :: l) (stable_insert before x l).
Proof.
  induction l as [|y l IH]; simpl; [apply Permutation_refl|].
  destruct (before y x); [|apply Permutation_refl].
  apply perm_trans with (y :: x :: l); [apply perm_swap|].
  apply perm_skip. exact IH.
Qed.

Lemma stable_sort_perm l : Permutation l (stable_sort before l).
Proof.
  induction l as [|x l IH]; simpl; [apply perm_nil|].
  apply perm_trans with (x :: stable_sort before l).
  - apply perm_skip. exact IH.
  - apply stable_insert_perm.
Qed.

(** In a sorted list no element has to stay ahead of an earlier one. *)
Lemma stable_insert_sorted x l :
  StronglySorted (fun a b => before b a = false) l ->
  StronglySorted (fun a b => before b a = false) (stable_insert before x l).
Proof.
  induction 1 as [|y l Hl IH Hy]; simpl.
  - constructor; constructor.
  - destruct (before y x) eqn:Hyx.
    + constructor; [exact IH|].
      apply Forall_forall. intros z Hz.
      apply (Permutation_in _ (Permutation_sym (stable_insert_perm x l))) in Hz.
      destruct Hz as [<-|Hz].
      * apply before_asym. exact Hyx.
      * rewrite Forall_forall in Hy. apply Hy. exact Hz.
    + constructor; [constructor; assumption|].
      constructor; [exact Hyx|].
      apply Forall_forall. intros z Hz.
      rewrite Forall_forall in Hy. specialize (Hy z Hz).
      simpl in *. apply before_negtrans with y; assumption.
Qed.

Lemma stable_sort_sorted l : StronglySorted (fun a b => before b a = false) (stable_sort before l).
Proof.
  induction l as [|x l IH]; simpl; [constructor|].
  apply stable_insert_sorted. exact IH.
Qed.

End StableSortFacts.

Lemma sort_blocks_desc_perm blocks :
  Permutation blocks (sort_blocks_desc blocks).
Proof. apply stable_sort_perm. Qed.

Lemma sort_blocks_desc_in blocks b :
  In b (sort_blocks_desc blocks) <-> In b blocks.
Proof.
  split; apply Permutation_in;
    [apply Permutation_sym|]; apply sort_blocks_desc_perm.
Qed.

Lemma StronglySorted_impl (A : Type) (R R' : A -> A -> Prop) l :
  (forall a b, R a b -> R' a b) ->
  StronglySorted R l -> StronglySorted R' l.
Proof.
  intros HR. induction 1 as [|a l _ IH Ha]; constructor; [exact IH|].
  eapply Forall_impl; [|exact Ha]. intros b. apply HR.
Qed.

(** Newest first: no block is older than a block that comes after it. *)
Lemma sort_blocks_desc_sorted blocks :
  StronglySorted (fun a b => dt_leb (timestamp b) (timestamp a) = true)
                 (sort_blocks_desc blocks).
Proof.
  unfold sort_blocks_desc.
  eapply StronglySorted_impl; [|apply stable_sort_sorted].
  - intros a b Hab. simpl in Hab. unfold dt_leb. rewrite Hab. reflexivity.
  - intros a b. apply dt_ltb_asym.
  - intros a b c Hab Hbc. eapply dt_ltb_negtrans; eassumption.
Qed.

Lemma sort_found_asc_in found e :
  In e (sort_found_asc found) <-> In e found.
Proof.
  split; apply Permutation_in;
    [apply Permutation_sym|]; apply stable_sort_perm.
Qed.

Lemma conversations_dict_in found : forall i key c,
  In (key, c) (conversations_dict i found) ->
  exists e, In e found /\ c = fc_conversation e.
Proof.
  induction found as [|e found IH]; intros i key c; simpl; [contradiction|].
  intros [H|H].
  - exists e. split; [left; reflexivity|]. congruence.
  - destruct (IH _ _ _ H) as (e' & He' & Hc).
    exists e'. split; [right; assumption|assumption].
Qed.

Lemma conversations_dict_length found : forall i,
  length (conversations_dict i found) = length found.
Proof. induction found; intros i; simpl; [|rewrite IHfound]; reflexivity. Qed.

(* ================================================================== *)
(** * The reconstructor                                                *)
(* ================================================================== *)

Section Reconstructor.

Context {L : PyLib}.

(** ** From the log text to the blocks *)

Lemma analyze_logfile_segment file_content clock blocks clock' :
  segment (split_lines file_content) clock = (Ok blocks, clock') ->
  analyze_logfile file_content clock = (analyze_blocks blocks, clock').
Proof.
  intros Hseg. unfold analyze_logfile, py_bind. rewrite Hseg.
  unfold py_lift, analyze_blocks, bind, py_ret.
  destruct (reconstruct _ _ _); reflexivity.
Qed.

(** The segmenter always returns; so the analyzer is [analyze_blocks] on
    the blocks of the log. *)
Lemma analyze_logfile_inv file_content clock r clock' :
  analyze_logfile file_content clock = (r, clock') ->
  exists blocks,
    segment (split_lines file_content) clock = (Ok blocks, clock') /\
    r = analyze_blocks blocks.
Proof.
  intros H.
  pose proof (segment_blocks_at (split_lines file_content) clock) as Hseg.
  rewrite (analyze_logfile_segment _ _ _ _ Hseg) in H.
  injection H as <- <-. eexists. split; [exact Hseg|reflexivity].
Qed.

(** ** The prefix test *)

Lemma is_subset_prefix us found :
  is_subset us found = true
  <-> exists e, In e found /\ is_prefix_of us (fc_user_messages e).
Proof.
  induction found as [|e found IH]; simpl.
  - split; [discriminate|]. intros (e & [] & _).
  - destruct ((length us <=? length (fc_user_messages e))
              && strs_eqb us (firstn (length us) (fc_user_messages e)))
      eqn:Htest.
    + split; [|reflexivity]. intros _.
      apply andb_true_iff in Htest. destruct Htest as [Hlen Heq].
      exists e. split; [left; reflexivity|].
      split; [apply Nat.leb_le; assumption|apply strs_eqb_eq; assumption].
    + rewrite IH. split.
      * intros (e' & He' & Hp). exists e'. split; [right|]; assumption.
      * intros (e' & [<-|He'] & Hp); [|exists e'; split; assumption].
        destruct Hp as [Hlen Heq].
        apply Nat.leb_le in Hlen. apply strs_eqb_eq in Heq.
        rewrite Hlen, Heq in Htest. discriminate.
Qed.



(** ** One round of the main loop *)

Lemma claim_block_decoded history_blocks found b items us :
  decode_block (content b) = Ok (Some items) ->
  user_messages_of items = Ok us ->
  claim_block history_blocks found b
  = match us with
    | [] => Ok found
    | first :: _ =>
        if is_subset us found then Ok found
        else
          messages <-
            build_messages history_blocks (timestamp b) items 0 us ;;
          Ok (found ++
                [{| fc_user_messages := us;
                    fc_conversation :=
                      {| chat_id :=
                           lit "conv_" ++ str_of_nat (length found + 1)
                               ++ lit "_" ++ strftime (timestamp b) FMT_ID;
                         first_message := first;
                         start_time := timestamp b;
                         message_count := length us;
                         messages := messages |};
                    fc_timestamp := timestamp b |}])
    end.
Proof.
  intros Hd Hu. unfold claim_block. rewrite Hd. simpl. rewrite Hu. simpl.
  reflexivity.
Qed.

(** A round either changes nothing or appends one entry, built from the
    block of the round, whose user turns no claimed conversation covers. *)
Lemma process_block_result history_blocks found b found' :
  process_block history_blocks found b = Ok found' ->
  found' = found
  \/ exists e, found' = found ++ [e] /\
               claimed_from history_blocks b e /\
               is_subset (fc_user_messages e) found = false.
Proof.
  unfold process_block, try_except.
  destruct (claim_block history_blocks found b) as [r|e] eqn:Hclaim.
  - intros H. injection H as <-.
    destruct (decode_block (content b)) as [[items|]|e] eqn:Hd.
    + destruct (user_messages_of items) as [us|e] eqn:Hu.
      * rewrite (claim_block_decoded history_blocks found b items us Hd Hu) in Hclaim.
        destruct us as [|first rest]; [left; congruence|].
        destruct (is_subset (first :: rest) found) eqn:Hsub;
          [left; congruence|].
        destruct (build_messages history_blocks (timestamp b) items 0
                    (first :: rest)) as [msgs|e] eqn:Hb;
          cbn [bind] in Hclaim; [|discriminate].
        injection Hclaim as <-. right. eexists. split; [reflexivity|].
        split; [|exact Hsub].
        exists items, first, rest. cbn. repeat split; auto.
      * unfold claim_block in Hclaim. rewrite Hd in Hclaim.
        cbn [bind] in Hclaim. rewrite Hu in Hclaim. discriminate.
    + unfold claim_block in Hclaim. rewrite Hd in Hclaim.
      cbn [bind] in Hclaim. left. congruence.
    + unfold claim_block in Hclaim. rewrite Hd in Hclaim. discriminate.
  - destruct (is_decode_error e); [|discriminate].
    intros H. left. congruence.
Qed.



(** Every claimed conversation was built from a block of the run. *)
Lemma reconstruct_claimed history_blocks todo : forall found found',
  Forall (fun e => exists b, In b history_blocks /\
                             claimed_from history_blocks b e) found ->
  incl todo history_blocks ->
  reconstruct history_blocks todo found = Ok found' ->
  Forall (fun e => exists b, In b history_blocks /\
                             claimed_from history_blocks b e) found'.
Proof.
  induction todo as [|b todo IH]; intros found found' Hf Hincl; simpl.
  - intros H. injection H as <-. assumption.
  - destruct (process_block history_blocks found b) as [f|] eqn:Hp;
      simpl; [|discriminate].
    apply IH.
    + destruct (process_block_result _ _ _ _ Hp) as [->|(e & -> & Hc & _)];
        [assumption|].
      apply Forall_app. split; [assumption|].
      constructor; [|constructor].
      exists b. split; [apply Hincl; left; reflexivity|assumption].
    + intros x Hx. apply Hincl. right. assumption.
Qed.

(** Every conversation of the final set was built from a block of the
    log. *)
Lemma analyze_blocks_claimed blocks convs key c :
  analyze_blocks blocks = Ok convs ->
  In (key, c) convs ->
  exists b e, In b blocks /\
              claimed_from (sort_blocks_desc blocks) b e /\
              c = fc_conversation e.
Proof.
  unfold analyze_blocks.
  destruct (reconstruct (sort_blocks_desc blocks) (sort_blocks_desc blocks) [])
    as [found|] eqn:Hr; simpl; [|discriminate].
  intros H Hin. injection H as <-.
  apply conversations_dict_in in Hin. destruct Hin as (e & He & ->).
  apply (proj1 (sort_found_asc_in _ _)) in He.
  pose proof (reconstruct_claimed (sort_blocks_desc blocks)
                (sort_blocks_desc blocks) [] found
                (Forall_nil _) (incl_refl _) Hr) as HF.
  rewrite Forall_forall in HF. destruct (HF e He) as (b & Hb & Hc).
  exists b, e. split; [apply sort_blocks_desc_in; assumption|].
  split; [assumption|reflexivity].
Qed.

(** ** The messages of a claimed block *)

Lemma build_messages_spec history_blocks ts items us : forall i msgs,
  build_messages history_blocks ts items i us = Ok msgs ->
  map user_message msgs = us /\
  forall k m, nth_error msgs k = Some m ->
    msg_timestamp m = ts /\
    find_claude_response items (user_message m) NO_RESPONSE
    = Ok (claude_response m) /\
    find_context_docs history_blocks (i + k + 1) (user_message m)
    = Ok (context_documents m).
Proof.
  induction us as [|u us IH]; intros i msgs; simpl.
  - intros H. injection H as <-. split; [reflexivity|].
    intros [|k] m; discriminate.
  - destruct (find_claude_response items u NO_RESPONSE) as [resp|] eqn:Hr;
      simpl; [|discriminate].
    destruct (find_context_docs history_blocks (i + 1) u) as [docs|] eqn:Hc;
      simpl; [|discriminate].
    destruct (build_messages history_blocks ts items (S i) us)
      as [rest|] eqn:Hb; simpl; [|discriminate].
    intros H. injection H as <-.
    destruct (IH _ _ Hb) as [Hmap Hnth].
    split; [simpl; rewrite Hmap; reflexivity|].
    intros [|k] m Hm; simpl in Hm.
    + injection Hm as <-. simpl. rewrite Nat.add_0_r. auto.
    + destruct (Hnth _ _ Hm) as (H1 & H2 & H3).
      repeat split; auto.
      replace (i + S k + 1) with (S i + k + 1) by lia. assumption.
Qed.

Lemma build_messages_length history_blocks ts items us i msgs :
  build_messages history_blocks ts items i us = Ok msgs ->
  length msgs = length us.
Proof.
  intros H. apply build_messages_spec in H. destruct H as [H _].
  rewrite <- H. rewrite length_map. reflexivity.
Qed.

End Reconstructor.

(* ================================================================== *)
(** * Invariants of the conversations                                  *)
(* ================================================================== *)

Section ConversationInvariants.

Context {L : PyLib}.

Lemma claimed_from_count history_blocks b e :
  claimed_from history_blocks b e ->
  message_count (fc_conversation e) = length (messages (fc_conversation e)).
Proof.
  intros (items & first & rest & _ & _ & _ & _ & _ & _ & Hcount & Hbuild).
  rewrite Hcount. symmetry.
  apply (build_messages_length _ _ _ _ _ _ Hbuild).
Qed.

Lemma process_block_appended history_blocks found b e :
  process_block history_blocks found b = Ok (found ++ [e]) ->
  claimed_from history_blocks b e /\
  is_subset (fc_user_messages e) found = false.
Proof.
  intros H.
  destruct (process_block_result _ _ _ _ H) as [Heq|(e' & Heq & Hc & Hs)].
  - apply (f_equal (@length _)) in Heq. rewrite length_app in Heq.
    simpl in Heq. lia.
  - apply app_inv_head in Heq. injection Heq as ->. split; assumption.
Qed.

(** C8. Every conversation the analyzer builds has [message_count] equal
    to the number of its messages: the one a round of the main loop
    appends to the claimed conversations, and each one of the final set. *)
Theorem message_count_is_length :
  (forall history_blocks found b e,
     process_block history_blocks found b = Ok (found ++ [e]) ->
     message_count (fc_conversation e)
     = length (messages (fc_conversation e)))
  /\
  (forall file_content clock convs clock',
     analyze_logfile file_content clock = (Ok convs, clock') ->
     Forall (fun kc => message_count (snd kc) = length (messages (snd kc)))
            convs).
Proof.
  split.
  - intros history_blocks found b e H.
    apply process_block_appended in H. destruct H as [Hc _].
    apply (claimed_from_count _ _ _ Hc).
  - intros file_content clock convs clock' H.
    apply analyze_logfile_inv in H. destruct H as (blocks & _ & Hr).
    apply Forall_forall. intros [key c] Hin. simpl.
    destruct (analyze_blocks_claimed blocks convs key c (eq_sym Hr) Hin)
      as (b & e & _ & Hc & ->).
    apply (claimed_from_count _ _ _ Hc).
Qed.

Lemma user_messages_of_without_user_turn items :
  Forall (fun msg => is_user_turn msg = false) items ->
  user_messages_of items
  = if forallb is_object items then Ok [] else Raise AttributeError.
Proof.
  induction 1 as [|msg rest Hmsg _ IH]; [reflexivity|].
  cbn [user_messages_of forallb].
  destruct msg as [| | | | |fields]; try reflexivity.
  cbn [is_object andb]. unfold has_role. cbn [py_get bind].
  cbn [is_user_turn] in Hmsg.
  destruct (dict_lookup (lit "role") fields) as [[| | |role| |]|];
    cbn [json_is_str]; try exact IH.
  rewrite Hmsg. exact IH.
Qed.

(** C10, amended.  Take a block that decodes to a turn list without user
    turn.  When every element of the list is an object, the round leaves
    the claimed conversations as they were, whatever they are: the block
    is skipped.  When some element is not an object, the round raises
    [AttributeError], which no handler of the analysis catches.  Every
    conversation of the final set comes from a block of the log with at
    least one user turn: its [message_count] is at least one, its
    [first_message] is the first user-turn content of that block, and its
    messages carry the user-turn contents of that block in order. *)
Theorem no_user_turn_no_conversation :
  (forall history_blocks found b items,
     decode_block (content b) = Ok (Some items) ->
     Forall (fun msg => is_user_turn msg = false) items ->
     process_block history_blocks found b
     = if forallb is_object items then Ok found else Raise AttributeError)
  /\
  (forall file_content clock blocks clock' convs,
     segment (split_lines file_content) clock = (Ok blocks, clock') ->
     analyze_logfile file_content clock = (Ok convs, clock') ->
     Forall (fun kc =>
               1 <= message_count (snd kc) /\
               exists b first rest,
                 In b blocks /\
                 user_turns_of b (first :: rest) /\
                 first_message (snd kc) = first /\
                 map user_message (messages (snd kc)) = first :: rest)
            convs).
Proof.
  split.
  - intros history_blocks found b items Hd Hnone.
    pose proof (user_messages_of_without_user_turn items Hnone) as Hu.
    unfold process_block, claim_block. rewrite Hd. cbn [bind].
    rewrite Hu. destruct (forallb is_object items); reflexivity.
  - intros file_content clock blocks clock' convs Hseg H.
    rewrite (analyze_logfile_segment _ _ _ _ Hseg) in H.
    injection H as H.
    apply Forall_forall. intros [key c] Hin. simpl.
    destruct (analyze_blocks_claimed blocks convs key c H Hin)
      as (b & e & Hb & Hc & ->).
    destruct Hc as (items & first & rest & Hd & Hu & _ & _ & Hfirst & _
                    & Hcount & Hbuild).
    split; [rewrite Hcount; simpl; lia|].
    exists b, first, rest. split; [assumption|].
    split; [exists items; split; assumption|].
    split; [assumption|].
    apply (build_messages_spec _ _ _ _ _ _ Hbuild).
Qed.

End ConversationInvariants.

(* ================================================================== *)
(** * Which exceptions leave the construction of the messages          *)
(* ================================================================== *)

Section Exceptions.

Context {L : PyLib}.

(** The exception of the goal is the one a called function raised. *)
Ltac raised_by H :=
  let E := fresh "E" in intros E; injection E as <-; apply H.

Lemma py_get_raise msg key default e :
  py_get msg key default = Raise e -> e = AttributeError.
Proof. destruct msg; simpl; congruence. Qed.

Lemma has_role_raise msg role e :
  has_role msg role = Raise e -> e = AttributeError.
Proof.
  unfold has_role.
  destruct (py_get msg (lit "role") JNull) eqn:H; simpl; [discriminate|].
  raised_by (py_get_raise _ _ _ _ H).
Qed.

Lemma content_stripped_raise msg e :
  content_stripped msg = Raise e -> e = AttributeError.
Proof.
  unfold content_stripped.
  destruct (py_get msg (lit "content") (JStr [])) as [v|] eqn:H; simpl.
  - destruct v; simpl; congruence.
  - raised_by (py_get_raise _ _ _ _ H).
Qed.





End Exceptions.

(* ================================================================== *)
(** * Discarding snapshots that a claimed conversation covers          *)
(* ================================================================== *)

Section PrefixDiscard.

Context {L : PyLib}.






Lemma StronglySorted_app_r (A : Type) (R : A -> A -> Prop) l1 l2 :
  StronglySorted R (l1 ++ l2) -> StronglySorted R l2.
Proof.
  induction l1 as [|a l1 IH]; simpl; [auto|].
  intros H. apply StronglySorted_inv in H. apply IH. apply H.
Qed.








End PrefixDiscard.

(* ================================================================== *)
(** * Where the context documents of a turn come from                  *)
(* ================================================================== *)

Section ContextDocuments.

Context {L : PyLib}.

Lemma search_block_matches_true b n user_msg :
  search_block_matches b n user_msg = Ok true ->
  block_matches_turn b n user_msg.
Proof.
  unfold search_block_matches.
  destruct (decode_block (content b)) as [[items|]|e] eqn:Hd;
    cbn [bind]; try discriminate.
  destruct (user_messages_of items) as [us|e] eqn:Hu;
    cbn [bind]; [|discriminate].
  intros H. injection H as H.
  apply andb_true_iff in H. destruct H as [H Hlast].
  apply andb_true_iff in H. destruct H as [Hlen _].
  exists us. split; [exists items; split; assumption|].
  split; [apply Nat.eqb_eq; assumption|].
  apply str_eqb_eq. exact Hlast.
Qed.

Lemma block_matches_turn_search b n user_msg :
  block_matches_turn b (S n) user_msg ->
  search_block_matches b (S n) user_msg = Ok true.
Proof.
  intros (us & (items & Hd & Hu) & Hlen & Hlast).
  unfold search_block_matches. rewrite Hd. cbn [bind]. rewrite Hu.
  cbn [bind]. rewrite Hlen, Nat.eqb_refl.
  unfold last_str. rewrite Hlast, str_eqb_refl. reflexivity.
Qed.

Lemma find_context_docs_step b rest n user_msg docs :
  ~ block_matches_turn b (S n) user_msg ->
  ((docs = [] /\
    forall b', In b' rest -> ~ block_matches_turn b' (S n) user_msg)
   \/
   (exists pre b0 post,
      rest = pre ++ b0 :: post /\
      block_matches_turn b0 (S n) user_msg /\
      (forall b', In b' pre -> ~ block_matches_turn b' (S n) user_msg) /\
      docs = extract_context_documents (content b0))) ->
  (docs = [] /\
   forall b', In b' (b :: rest) -> ~ block_matches_turn b' (S n) user_msg)
  \/
  (exists pre b0 post,
     b :: rest = pre ++ b0 :: post /\
     block_matches_turn b0 (S n) user_msg /\
     (forall b', In b' pre -> ~ block_matches_turn b' (S n) user_msg) /\
     docs = extract_context_documents (content b0)).
Proof.
  intros Hno [[Hd Hall]|(pre & b0 & post & Heq & Hb0 & Hpre & Hdocs)].
  - left. split; [assumption|].
    intros b' [<-|Hin]; [assumption|apply Hall; assumption].
  - right. exists (b :: pre), b0, post.
    split; [simpl; rewrite Heq; reflexivity|].
    split; [assumption|]. split; [|assumption].
    intros b' [<-|Hin]; [assumption|apply Hpre; assumption].
Qed.

(** The search returns the documents of the first block of the list that
    matches the turn, and nothing when no block matches. *)
Lemma find_context_docs_first history_blocks n user_msg docs :
  find_context_docs history_blocks (S n) user_msg = Ok docs ->
  (docs = [] /\
   forall b, In b history_blocks -> ~ block_matches_turn b (S n) user_msg)
  \/
  (exists pre b post,
     history_blocks = pre ++ b :: post /\
     block_matches_turn b (S n) user_msg /\
     (forall b', In b' pre -> ~ block_matches_turn b' (S n) user_msg) /\
     docs = extract_context_documents (content b)).
Proof.
  induction history_blocks as [|b rest IH]; cbn [find_context_docs].
  - intros H. injection H as <-. left. split; [reflexivity|].
    intros b [].
  - destruct (search_block_matches b (S n) user_msg) as [[|]|e] eqn:Hm.
    + intros H. injection H as <-. right.
      exists [], b, rest. split; [reflexivity|].
      split; [apply search_block_matches_true; assumption|].
      split; [intros b' []|reflexivity].
    + intros H.
      assert (Hno : ~ block_matches_turn b (S n) user_msg).
      { intros Hb. rewrite (block_matches_turn_search _ _ _ Hb) in Hm.
        discriminate. }
      apply (find_context_docs_step b rest n user_msg docs Hno (IH H)).
    + destruct (is_decode_error e); [|discriminate].
      intros H.
      assert (Hno : ~ block_matches_turn b (S n) user_msg).
      { intros Hb. rewrite (block_matches_turn_search _ _ _ Hb) in Hm.
        discriminate. }
      apply (find_context_docs_step b rest n user_msg docs Hno (IH H)).
Qed.

(** The documents of a message come from the newest block that matches
    its turn. *)
Lemma context_docs_newest blocks n user_msg docs :
  find_context_docs (sort_blocks_desc blocks) (S n) user_msg = Ok docs ->
  ((forall b, In b blocks -> ~ block_matches_turn b (S n) user_msg) ->
   docs = [])
  /\
  (forall b0, In b0 blocks -> block_matches_turn b0 (S n) user_msg ->
   exists pre b post,
     sort_blocks_desc blocks = pre ++ b :: post /\
     In b blocks /\
     block_matches_turn b (S n) user_msg /\
     (forall b', In b' pre -> ~ block_matches_turn b' (S n) user_msg) /\
     docs = extract_context_documents (content b) /\
     forall b', In b' blocks -> block_matches_turn b' (S n) user_msg ->
                dt_leb (timestamp b') (timestamp b) = true).
Proof.
  intros H. apply find_context_docs_first in H.
  destruct H as [[Hdocs Hnone]|(pre & b & post & Heq & Hb & Hpre & Hdocs)].
  - split; [intros _; exact Hdocs|].
    intros b0 Hin Hb0. exfalso.
    apply (Hnone b0); [|exact Hb0].
    apply sort_blocks_desc_in. exact Hin.
  - assert (Hbin : In b blocks).
    { apply sort_blocks_desc_in. rewrite Heq.
      apply in_or_app. right. left. reflexivity. }
    split.
    + intros Hnone. exfalso. apply (Hnone b Hbin Hb).
    + intros _ _ _. exists pre, b, post.
      repeat (split; [assumption|]).
      intros b' Hin' Hb'.
      apply (proj2 (sort_blocks_desc_in blocks b')) in Hin'.
      rewrite Heq in Hin'. apply in_app_or in Hin'.
      destruct Hin' as [Hin'|[<-|Hin']].
      * exfalso. apply (Hpre b' Hin' Hb').
      * apply dt_leb_refl.
      * pose proof (sort_blocks_desc_sorted blocks) as Hs.
        rewrite Heq in Hs. apply StronglySorted_app_r in Hs.
        apply StronglySorted_inv in Hs. destruct Hs as [_ Hall].
        rewrite Forall_forall in Hall. apply Hall. exact Hin'.
Qed.

(** C9. Take a message of a conversation of the final set, at index [i]
    (so at position [i + 1] counted from one).  Call a block of the log
    matching when it decodes, has exactly [i + 1] user turns and its last
    user-turn content is the user message.  When no block matches, the
    message has no context document.  When some block matches, the
    documents are those extracted from the text of the first matching block
    in the newest-first order of the blocks; no matching block has a later
    timestamp than that one. *)
Theorem context_documents_from_newest_match
        file_content clock blocks clock' convs key c i m :
  segment (split_lines file_content) clock = (Ok blocks, clock') ->
  analyze_logfile file_content clock = (Ok convs, clock') ->
  In (key, c) convs ->
  nth_error (messages c) i = Some m ->
  ((forall b, In b blocks ->
              ~ block_matches_turn b (S i) (user_message m)) ->
   context_documents m = [])
  /\
  (forall b0, In b0 blocks ->
   block_matches_turn b0 (S i) (user_message m) ->
   exists pre b post,
     sort_blocks_desc blocks = pre ++ b :: post /\
     In b blocks /\
     block_matches_turn b (S i) (user_message m) /\
     (forall b', In b' pre ->
                 ~ block_matches_turn b' (S i) (user_message m)) /\
     context_documents m = extract_context_documents (content b) /\
     forall b', In b' blocks ->
                block_matches_turn b' (S i) (user_message m) ->
                dt_leb (timestamp b') (timestamp b) = true).
Proof.
  intros Hseg H Hin Hm.
  rewrite (analyze_logfile_segment _ _ _ _ Hseg) in H.
  injection H as H.
  destruct (analyze_blocks_claimed blocks convs key c H Hin)
    as (b & e & _ & Hc & ->).
  destruct Hc as (items & first & rest & _ & _ & _ & _ & _ & _ & _ & Hbuild).
  destruct (build_messages_spec _ _ _ _ _ _ Hbuild) as [_ Hnth].
  destruct (Hnth i m Hm) as (_ & _ & Hdocs).
  replace (0 + i + 1) with (S i) in Hdocs by lia.
  apply (context_docs_newest _ _ _ _ Hdocs).
Qed.

End ContextDocuments.

(* ================================================================== *)
(** * Three snapshots of one conversation                              *)
(* ================================================================== *)

Section EndToEnd.

Context {L : PyLib}.

Lemma sort_blocks_desc_three b1 b2 b3 :
  dt_ltb (timestamp b1) (timestamp b2) = true ->
  dt_ltb (timestamp b2) (timestamp b3) = true ->
  sort_blocks_desc [b1; b2; b3] = [b3; b2; b1].
Proof.
  intros H12 H23.
  pose proof (dt_ltb_trans _ _ _ H12 H23) as H13.
  unfold sort_blocks_desc, stable_sort. cbn [fold_right stable_insert].
  rewrite H23. cbn [stable_insert]. rewrite H13, H12. reflexivity.
Qed.

Lemma search_block_matches_decoded b items n user_msg :
  decode_block (content b) = Ok (Some items) ->
  search_block_matches b n user_msg
  = (search_user_messages <- user_messages_of items ;;
     Ok ((length search_user_messages =? n)
         && (0 <? length search_user_messages)
         && str_eqb (last_str search_user_messages) user_msg)).
Proof.
  intros Hd. unfold search_block_matches. rewrite Hd. reflexivity.
Qed.

Lemma process_block_covered history_blocks found b items us :
  decode_block (content b) = Ok (Some items) ->
  user_messages_of items = Ok us ->
  is_subset us found = true ->
  process_block history_blocks found b = Ok found.
Proof.
  intros Hd Hu Hs. unfold process_block.
  rewrite (claim_block_decoded history_blocks found b items us Hd Hu), Hs.
  destruct us; reflexivity.
Qed.

(** C1, amended.  Take a log whose blocks are exactly three, with
    timestamps T1 < T2 < T3; the first decodes to one user turn "hi", the
    second and the third to user "hi", assistant "hello", user "bye".
    The analyzer returns exactly one conversation, with [message_count] 2
    and [first_message] "hi"; its [start_time] is T3, the timestamp of the
    newest block, the one the conversation is built from. *)
Theorem three_snapshots_one_conversation
        file_content clock clock' b1 b2 b3 :
  segment (split_lines file_content) clock = (Ok [b1; b2; b3], clock') ->
  dt_ltb (timestamp b1) (timestamp b2) = true ->
  dt_ltb (timestamp b2) (timestamp b3) = true ->
  decode_block (content b1) = Ok (Some [turn (lit "user") (lit "hi")]) ->
  decode_block (content b2)
  = Ok (Some [turn (lit "user") (lit "hi");
              turn (lit "assistant") (lit "hello");
              turn (lit "user") (lit "bye")]) ->
  decode_block (content b3)
  = Ok (Some [turn (lit "user") (lit "hi");
              turn (lit "assistant") (lit "hello");
              turn (lit "user") (lit "bye")]) ->
  exists c,
    analyze_logfile file_content clock
    = (Ok [(lit "conversation_1", c)], clock') /\
    message_count c = 2 /\
    first_message c = lit "hi" /\
    start_time c = timestamp b3 /\
    map user_message (messages c) = [lit "hi"; lit "bye"] /\
    map claude_response (messages c) = [lit "hello"; NO_RESPONSE].
Proof.
  intros Hseg H12 H23 Hd1 Hd2 Hd3.
  rewrite (analyze_logfile_segment _ _ _ _ Hseg).
  unfold analyze_blocks. rewrite (sort_blocks_desc_three _ _ _ H12 H23).
  set (hb := [b3; b2; b1]).
  set (snapshot := [turn (lit "user") (lit "hi");
                    turn (lit "assistant") (lit "hello");
                    turn (lit "user") (lit "bye")]) in *.
  assert (Hu : user_messages_of snapshot = Ok [lit "hi"; lit "bye"])
    by reflexivity.
  assert (Hu1 : user_messages_of [turn (lit "user") (lit "hi")]
                = Ok [lit "hi"]) by reflexivity.
  (* the documents of the two turns come from the first and the third block *)
  assert (Hdocs1 : find_context_docs hb (0 + 1) (lit "hi")
                   = Ok (extract_context_documents (content b1))).
  { unfold hb. cbn [find_context_docs].
    rewrite (search_block_matches_decoded b3 _ _ _ Hd3), Hu.
    rewrite (search_block_matches_decoded b2 _ _ _ Hd2), Hu.
    rewrite (search_block_matches_decoded b1 _ _ _ Hd1), Hu1.
    reflexivity. }
  assert (Hdocs2 : find_context_docs hb (1 + 1) (lit "bye")
                   = Ok (extract_context_documents (content b3))).
  { unfold hb. cbn [find_context_docs].
    rewrite (search_block_matches_decoded b3 _ _ _ Hd3), Hu.
    reflexivity. }
  assert (Hbuild :
    build_messages hb (timestamp b3) snapshot 0 [lit "hi"; lit "bye"]
    = Ok [{| msg_timestamp := timestamp b3;
             user_message := lit "hi";
             claude_response := lit "hello";
             context_documents := extract_context_documents (content b1) |};
          {| msg_timestamp := timestamp b3;
             user_message := lit "bye";
             claude_response := NO_RESPONSE;
             context_documents := extract_context_documents (content b3) |}]).
  { cbn [build_messages].
    change (find_claude_response snapshot (lit "hi") NO_RESPONSE)
      with (Ok (lit "hello")).
    change (find_claude_response snapshot (lit "bye") NO_RESPONSE)
      with (Ok NO_RESPONSE).
    cbn [bind]. rewrite Hdocs1. cbn [bind]. rewrite Hdocs2. reflexivity. }
  change (reconstruct hb hb []) with (reconstruct hb [b3; b2; b1] []).
  cbn [reconstruct].
  (* the newest block is claimed *)
  unfold process_block at 1.
  rewrite (claim_block_decoded hb [] b3 snapshot _ Hd3 Hu).
  cbn [is_subset]. rewrite Hbuild. cbn [bind try_except app].
  (* the two older blocks are covered by it *)
  rewrite (process_block_covered hb _ b2 snapshot _ Hd2 Hu) by reflexivity.
  cbn [bind].
  rewrite (process_block_covered hb _ b1 _ _ Hd1 Hu1) by reflexivity.
  cbn [bind].
  eexists. split; [reflexivity|].
  repeat split.
Qed.

End EndToEnd.

(* ================================================================== *)
(** * When a user message occurs once                                  *)
(* ================================================================== *)

Section FirstOccurrence.

Context {L : PyLib}.

(** The search for the reply looks for the first user turn with the
    content of the message.  That is the turn of the message when no
    earlier user turn has the same content. *)
Lemma find_claude_response_first_occurrence items : forall us i u,
  user_messages_of items = Ok us ->
  nth_error us i = Some u ->
  (forall j, j < i -> nth_error us j <> Some u) ->
  find_claude_response items u NO_RESPONSE = reply_to_turn items i.
Proof.
  unfold reply_to_turn.
  induction items as [|msg rest IH]; intros us i u Hu Hi Hfirst.
  - injection Hu as <-. destruct i; discriminate.
  - cbn [user_messages_of find_claude_response after_user_turn] in *.
    destruct (has_role msg (lit "user")) as [[|]|e]; cbn [bind] in *;
      [| apply (IH us i u Hu Hi Hfirst) | discriminate].
    destruct (content_stripped msg) as [c|e]; cbn [bind] in *;
      [|discriminate].
    destruct (user_messages_of rest) as [us'|e] eqn:Hrest; cbn [bind] in *;
      [|discriminate].
    injection Hu as <-.
    destruct i as [|i].
    + injection Hi as ->. rewrite str_eqb_refl. reflexivity.
    + destruct (str_eqb_spec c u) as [->|Hne].
      * exfalso. apply (Hfirst 0); [lia|reflexivity].
      * apply (IH us' i u eq_refl Hi).
        intros j Hj. apply (Hfirst (S j)). lia.
Qed.

End FirstOccurrence.

(* ================================================================== *)
(** * Runs on concrete logs                                            *)
(* ================================================================== *)

Import Demo.

(** A fact about a concrete log is settled by running the analyzer. *)
Ltac by_running := repeat split; vm_compute; reflexivity.

(** The three blocks of [log_three_snapshots]. *)
Lemma three_snapshots_blocks :
  map timestamp (blocks_of log_three_snapshots) = [T1; T2; T3] /\
  map turns_of (blocks_of log_three_snapshots)
  = [[turn (lit "user") (lit "hi")];
     [turn (lit "user") (lit "hi"); turn (lit "assistant") (lit "hello");
      turn (lit "user") (lit "bye")];
     [turn (lit "user") (lit "hi"); turn (lit "assistant") (lit "hello");
      turn (lit "user") (lit "bye")]].
Proof. by_running. Qed.

(** C1 as stated fails: on three snapshots taken at T1 < T2 < T3 the one
    conversation starts at T3, which is later than T1. *)
Lemma three_snapshots_start_time_is_newest :
  map timestamp (blocks_of log_three_snapshots) = [T1; T2; T3] /\
  dt_ltb T1 T2 = true /\ dt_ltb T2 T3 = true /\
  map turns_of (blocks_of log_three_snapshots)
  = [[turn (lit "user") (lit "hi")];
     [turn (lit "user") (lit "hi"); turn (lit "assistant") (lit "hello");
      turn (lit "user") (lit "bye")];
     [turn (lit "user") (lit "hi"); turn (lit "assistant") (lit "hello");
      turn (lit "user") (lit "bye")]] /\
  map message_count (conversations_of log_three_snapshots) = [2] /\
  map first_message (conversations_of log_three_snapshots) = [lit "hi"] /\
  map start_time (conversations_of log_three_snapshots) = [T3] /\
  dt_ltb T1 (start_time (conversation log_three_snapshots 0)) = true.
Proof. by_running. Qed.

(** The amended C1 on [log_three_snapshots]. *)
Lemma three_snapshots_one_conversation_witness :
  exists c,
    analyze_logfile log_three_snapshots 0
    = (Ok [(lit "conversation_1", c)], 0) /\
    message_count c = 2 /\
    first_message c = lit "hi" /\
    start_time c = timestamp (block log_three_snapshots 2) /\
    map user_message (messages c) = [lit "hi"; lit "bye"] /\
    map claude_response (messages c) = [lit "hello"; NO_RESPONSE].
Proof.
  apply (three_snapshots_one_conversation
           log_three_snapshots 0 0
           (block log_three_snapshots 0) (block log_three_snapshots 1)
           (block log_three_snapshots 2));
    vm_compute; reflexivity.
Defined.


(** C3 fails on a repeated user message: the second "a" is answered by
    "r2" in the snapshot, and the analyzer gives it "r1", the reply to the
    first "a". *)
Theorem repeated_question_gets_first_reply :
  map turns_of (blocks_of log_repeated_question)
  = [[turn (lit "user") (lit "a"); turn (lit "assistant") (lit "r1");
      turn (lit "user") (lit "a"); turn (lit "assistant") (lit "r2")]] /\
  map (fun c => map claude_response (messages c))
      (conversations_of log_repeated_question)
  = [[lit "r1"; lit "r1"]] /\
  reply_to_turn (turns_of (block log_repeated_question 0)) 1
  = Ok (lit "r2").
Proof. by_running. Qed.

(** C5 fails on a repeated user message: the snapshot ends with a user
    turn "a" that has no reply, and the analyzer gives it "r1", the reply
    to the first "a", where the sentinel is due. *)
Theorem repeated_unanswered_gets_first_reply :
  map turns_of (blocks_of log_repeated_unanswered)
  = [[turn (lit "user") (lit "a"); turn (lit "assistant") (lit "r1");
      turn (lit "user") (lit "a")]] /\
  map (fun c => map claude_response (messages c))
      (conversations_of log_repeated_unanswered)
  = [[lit "r1"; lit "r1"]] /\
  reply_to_turn (turns_of (block log_repeated_unanswered 0)) 1
  = Ok NO_RESPONSE.
Proof. by_running. Qed.


(** C8 on [log_three_snapshots]. *)
Lemma message_count_is_length_witness :
  Forall (fun kc : str * Conversation =>
            message_count (snd kc) = length (messages (snd kc)))
         [(lit "conversation_1", conversation log_three_snapshots 0)].
Proof.
  apply (proj2 message_count_is_length log_three_snapshots 0 _ 0).
  vm_compute. reflexivity.
Defined.

(** The amended C10: the block of [log_no_user_turn] holds one assistant
    turn and is skipped; the conversation of [log_three_snapshots] comes
    from a block with user turns. *)
Lemma no_user_turn_no_conversation_witness :
  process_block (sort_blocks_desc (blocks_of log_no_user_turn)) []
                (block log_no_user_turn 0)
  = Ok []
  /\ run log_no_user_turn = Ok []
  /\ Forall (fun kc : str * Conversation =>
               1 <= message_count (snd kc) /\
               exists b first rest,
                 In b (blocks_of log_three_snapshots) /\
                 user_turns_of b (first :: rest) /\
                 first_message (snd kc) = first /\
                 map user_message (messages (snd kc)) = first :: rest)
            [(lit "conversation_1", conversation log_three_snapshots 0)].
Proof.
  split; [|split].
  - etransitivity.
    + apply (proj1 no_user_turn_no_conversation
               (sort_blocks_desc (blocks_of log_no_user_turn)) []
               (block log_no_user_turn 0)
               (turns_of (block log_no_user_turn 0))).
      * vm_compute. reflexivity.
      * vm_compute. repeat constructor.
    + vm_compute. reflexivity.
  - vm_compute. reflexivity.
  - apply (proj2 no_user_turn_no_conversation log_three_snapshots 0
                 (blocks_of log_three_snapshots) 0).
    + vm_compute. reflexivity.
    + vm_compute. reflexivity.
Defined.

(** C10 as stated fails: the block of [log_assistant_and_number] decodes
    to a turn list without user turn, and it is not skipped: its round
    raises [AttributeError] and the analysis stops there. *)
Lemma block_without_user_turn_aborts :
  map turns_of (blocks_of log_assistant_and_number)
  = [[turn (lit "assistant") (lit "x"); JNum (lit "5")]] /\
  existsb is_user_turn (turns_of (block log_assistant_and_number 0))
  = false /\
  process_block (sort_blocks_desc (blocks_of log_assistant_and_number)) []
                (block log_assistant_and_number 0)
  = Raise AttributeError /\
  run log_assistant_and_number = Raise AttributeError.
Proof. by_running. Qed.

(** C9 on [log_two_documents], for the first message "hi" of its
    conversation: the two older blocks match it, the documents come from
    the newer of the two. *)
Lemma context_documents_from_newest_match_witness :
  let blocks := blocks_of log_two_documents in
  let m := message log_two_documents 0 0 in
  (((forall b, In b blocks ->
               ~ block_matches_turn b 1 (user_message m)) ->
    context_documents m = [])
   /\
   (forall b0, In b0 blocks ->
    block_matches_turn b0 1 (user_message m) ->
    exists pre b post,
      sort_blocks_desc blocks = pre ++ b :: post /\
      In b blocks /\
      block_matches_turn b 1 (user_message m) /\
      (forall b', In b' pre ->
                  ~ block_matches_turn b' 1 (user_message m)) /\
      context_documents m = extract_context_documents (content b) /\
      forall b', In b' blocks ->
                 block_matches_turn b' 1 (user_message m) ->
                 dt_leb (timestamp b') (timestamp b) = true))
  /\ map timestamp blocks = [T1; T2; T3]
  /\ map (fun b => search_block_matches b 1 (user_message m)) blocks
     = [Ok true; Ok true; Ok false]
  /\ map (fun b => map doc_title (extract_context_documents (content b)))
         blocks
     = [[lit "Old"]; [lit "New"]; []]
  /\ context_documents m
     = [{| doc_id := lit "2"; doc_title := lit "New";
           doc_content := lit "second" |}].
Proof.
  cbv zeta. split; [|repeat split; vm_compute; reflexivity].
  apply (context_documents_from_newest_match
           log_two_documents 0 (blocks_of log_two_documents) 0
           [(lit "conversation_1", conversation log_two_documents 0)]
           (lit "conversation_1") (conversation log_two_documents 0)
           0 (message log_two_documents 0 0)).
  - vm_compute. reflexivity.
  - vm_compute. reflexivity.
  - left. reflexivity.
  - vm_compute. reflexivity.
Defined.

(* ================================================================== *)
(** * Blocks without effect                                            *)
(* ================================================================== *)

Section StableSortFilter.

Variable A : Type.
Variable before : A -> A -> bool.
Variable keep : A -> bool.

Hypothesis before_asym : forall a b, before a b = true -> before b a = false.
Hypothesis before_negtrans :
  forall a b c, before a b = false -> before b c = false -> before a c = false.

Lemma filter_stable_insert_drop x l :
  keep x = false ->
  filter keep (stable_insert before x l) = filter keep l.
Proof.
  intros Hx. induction l as [|y l IH]; simpl.
  - rewrite Hx. reflexivity.
  - destruct (before y x); simpl.
    + rewrite IH. reflexivity.
    + rewrite Hx. reflexivity.
Qed.

Lemma filter_stable_insert_keep x l :
  keep x = true ->
  StronglySorted (fun a b => before b a = false) l ->
  filter keep (stable_insert before x l)
  = stable_insert before x (filter keep l).
Proof.
  intros Hx Hs. induction Hs as [|y l Hl IH Hy]; simpl.
  - rewrite Hx. reflexivity.
  - destruct (before y x) eqn:Hyx; simpl.
    + destruct (keep y); simpl; rewrite ?Hyx, IH; reflexivity.
    + rewrite Hx. destruct (keep y); simpl.
      * rewrite Hyx. reflexivity.
      * (* every later element is no more ahead of [x] than [y] is *)
        assert (Hall : Forall (fun z => before z x = false) (filter keep l)).
        { apply Forall_forall. intros z Hz. apply filter_In in Hz.
          rewrite Forall_forall in Hy.
          apply before_negtrans with y; [apply Hy; apply Hz|exact Hyx]. }
        destruct (filter keep l) as [|z r]; simpl; [reflexivity|].
        apply Forall_inv in Hall. rewrite Hall. reflexivity.
Qed.

Lemma filter_stable_sort l :
  filter keep (stable_sort before l) = stable_sort before (filter keep l).
Proof.
  induction l as [|x l IH]; simpl; [reflexivity|].
  destruct (keep x) eqn:Hx; simpl.
  - rewrite filter_stable_insert_keep, IH; auto.
    apply stable_sort_sorted; assumption.
  - rewrite filter_stable_insert_drop, IH; auto.
Qed.

End StableSortFilter.

Section IgnoredBlocks.

Context {L : PyLib}.

Lemma sort_blocks_desc_filter keep blocks :
  filter keep (sort_blocks_desc blocks)
  = sort_blocks_desc (filter keep blocks).
Proof.
  unfold sort_blocks_desc. apply filter_stable_sort.
  - intros a b. apply dt_ltb_asym.
  - intros a b c Hab Hbc. eapply dt_ltb_negtrans; eassumption.
Qed.

Lemma ignored_block_search b n user_msg :
  ignored_block b = true ->
  match search_block_matches b n user_msg with
  | Ok true => False
  | Ok false => True
  | Raise e => is_decode_error e = true
  end.
Proof.
  unfold ignored_block, search_block_matches.
  destruct (decode_block (content b)) as [[items|]|e]; cbn [bind];
    [|trivial|trivial].
  destruct (user_messages_of items) as [[|u us]|e]; cbn [bind];
    try discriminate.
  intros _. simpl length. rewrite andb_false_r. simpl. trivial.
Qed.

Lemma find_context_docs_filter history_blocks n user_msg :
  find_context_docs
    (filter (fun b => negb (ignored_block b)) history_blocks) n user_msg
  = find_context_docs history_blocks n user_msg.
Proof.
  induction history_blocks as [|b rest IH]; [reflexivity|].
  cbn [filter find_context_docs].
  destruct (ignored_block b) eqn:Hb; cbn [negb].
  - pose proof (ignored_block_search b n user_msg Hb) as H.
    destruct (search_block_matches b n user_msg) as [[|]|e];
      [contradiction|exact IH|rewrite H; exact IH].
  - cbn [find_context_docs]. rewrite IH. reflexivity.
Qed.

Lemma build_messages_filter history_blocks ts items us : forall i,
  build_messages
    (filter (fun b => negb (ignored_block b)) history_blocks) ts items i us
  = build_messages history_blocks ts items i us.
Proof.
  induction us as [|u us IH]; intros i; [reflexivity|].
  cbn [build_messages]. rewrite find_context_docs_filter.
  destruct (find_claude_response items u NO_RESPONSE); [|reflexivity].
  cbn [bind].
  destruct (find_context_docs history_blocks (i + 1) u); [|reflexivity].
  cbn [bind]. rewrite IH. reflexivity.
Qed.

Lemma claim_block_filter history_blocks found b :
  claim_block (filter (fun b => negb (ignored_block b)) history_blocks)
              found b
  = claim_block history_blocks found b.
Proof.
  unfold claim_block.
  destruct (decode_block (content b)) as [[items|]|e]; [|reflexivity..].
  cbn [bind].
  destruct (user_messages_of items) as [[|first rest]|e]; [reflexivity| |reflexivity].
  cbn [bind]. rewrite build_messages_filter. reflexivity.
Qed.

Lemma process_block_ignored history_blocks found b :
  ignored_block b = true ->
  process_block history_blocks found b = Ok found.
Proof.
  unfold ignored_block, process_block, claim_block.
  destruct (decode_block (content b)) as [[items|]|e]; cbn [bind try_except].
  - destruct (user_messages_of items) as [[|u us]|e]; try discriminate.
    reflexivity.
  - reflexivity.
  - intros ->. reflexivity.
Qed.

Lemma reconstruct_filter history_blocks todo : forall found,
  reconstruct (filter (fun b => negb (ignored_block b)) history_blocks)
              (filter (fun b => negb (ignored_block b)) todo) found
  = reconstruct history_blocks todo found.
Proof.
  induction todo as [|b todo IH]; intros found; [reflexivity|].
  cbn [filter reconstruct].
  destruct (ignored_block b) eqn:Hb; cbn [negb].
  - rewrite (process_block_ignored history_blocks found b Hb).
    cbn [bind]. apply IH.
  - cbn [reconstruct]. unfold process_block at 1 2.
    rewrite claim_block_filter.
    destruct (try_except (claim_block history_blocks found b)
                is_decode_error (Ok found)); [|reflexivity].
    cbn [bind]. apply IH.
Qed.

Lemma analyze_blocks_ignored blocks :
  analyze_blocks blocks
  = analyze_blocks (filter (fun b => negb (ignored_block b)) blocks).
Proof.
  unfold analyze_blocks.
  rewrite <- sort_blocks_desc_filter, reconstruct_filter. reflexivity.
Qed.

(** X1. Blocks that have no payload after the marker, on whose text
    [json.loads] raises [JSONDecodeError] or another [ValueError], or that
    decode to a list of objects without user turn, have no effect: the
    analysis returns what it returns on the other blocks alone.  A block
    on which [json.loads] raises another exception is none of them. *)
Theorem ignored_blocks_have_no_effect :
  (forall blocks,
     analyze_blocks blocks
     = analyze_blocks (filter (fun b => negb (ignored_block b)) blocks))
  /\
  (forall file_content clock blocks clock',
     segment (split_lines file_content) clock = (Ok blocks, clock') ->
     analyze_logfile file_content clock
     = (analyze_blocks (filter (fun b => negb (ignored_block b)) blocks),
        clock')).
Proof.
  split; [exact analyze_blocks_ignored|].
  intros file_content clock blocks clock' Hseg.
  rewrite (analyze_logfile_segment _ _ _ _ Hseg), <- analyze_blocks_ignored.
  reflexivity.
Qed.

End IgnoredBlocks.

(** The exception of the goal is the one a called function raised. *)
Ltac raised_from H :=
  let E := fresh "E" in intros E; injection E as <-; apply H.

(* ================================================================== *)
(** * What stops the analysis                                          *)
(* ================================================================== *)

Section Abort.

Context {L : PyLib}.

Lemma user_messages_of_raise items e :
  user_messages_of items = Raise e -> e = AttributeError.
Proof.
  induction items as [|msg rest IH]; cbn [user_messages_of]; [discriminate|].
  destruct (has_role msg (lit "user")) as [[|]|] eqn:H; cbn [bind].
  - destruct (content_stripped msg) as [c|] eqn:Hc; cbn [bind].
    + destruct (user_messages_of rest); cbn [bind]; [discriminate|].
      intros E. injection E as <-. apply IH. reflexivity.
    + raised_from (content_stripped_raise _ _ Hc).
  - exact IH.
  - raised_from (has_role_raise _ _ _ H).
Qed.

Lemma user_messages_of_objects items us :
  user_messages_of items = Ok us ->
  Forall (fun msg => is_object msg = true) items.
Proof.
  revert us. induction items as [|msg rest IH]; intros us;
    cbn [user_messages_of]; [constructor|].
  destruct msg; try discriminate.
  destruct (has_role (JObj fields) (lit "user")) as [[|]|]; cbn [bind];
    [|intros H; constructor; [reflexivity|apply (IH _ H)]|discriminate].
  destruct (content_stripped (JObj fields)); cbn [bind]; [|discriminate].
  destruct (user_messages_of rest) as [cs|]; cbn [bind]; [|discriminate].
  intros _. constructor; [reflexivity|apply (IH cs eq_refl)].
Qed.

Lemma user_messages_of_non_object items msg :
  In msg items -> is_object msg = false ->
  user_messages_of items = Raise AttributeError.
Proof.
  intros Hin Hmsg.
  destruct (user_messages_of items) as [us|e] eqn:H.
  - apply user_messages_of_objects in H. rewrite Forall_forall in H.
    rewrite (H msg Hin) in Hmsg. discriminate.
  - rewrite (user_messages_of_raise _ _ H). reflexivity.
Qed.

Lemma process_block_raise history_blocks found b e :
  process_block history_blocks found b = Raise e ->
  is_decode_error e = false.
Proof.
  unfold process_block, try_except.
  destruct (claim_block history_blocks found b) as [r|e']; [discriminate|].
  destruct (is_decode_error e') eqn:He'; [discriminate|].
  intros E. injection E as <-. exact He'.
Qed.

Lemma reconstruct_raise history_blocks todo : forall found e,
  reconstruct history_blocks todo found = Raise e ->
  is_decode_error e = false.
Proof.
  induction todo as [|b todo IH]; intros found e; cbn [reconstruct];
    [discriminate|].
  destruct (process_block history_blocks found b) as [f|e'] eqn:Hp;
    cbn [bind].
  - apply IH.
  - intros E. injection E as <-. apply (process_block_raise _ _ _ _ Hp).
Qed.

Lemma process_block_non_object history_blocks found b items msg :
  decode_block (content b) = Ok (Some items) ->
  In msg items -> is_object msg = false ->
  process_block history_blocks found b = Raise AttributeError.
Proof.
  intros Hd Hin Hmsg. unfold process_block, claim_block.
  rewrite Hd. cbn [bind].
  rewrite (user_messages_of_non_object items msg Hin Hmsg). reflexivity.
Qed.

Lemma reconstruct_non_object history_blocks todo b items msg :
  In b todo ->
  decode_block (content b) = Ok (Some items) ->
  In msg items -> is_object msg = false ->
  forall found, exists e, reconstruct history_blocks todo found = Raise e.
Proof.
  intros Hb Hd Hin Hmsg.
  induction todo as [|b' todo IH]; [contradiction|].
  intros found. cbn [reconstruct].
  destruct Hb as [->|Hb].
  - rewrite (process_block_non_object history_blocks found b items msg
               Hd Hin Hmsg).
    eexists. reflexivity.
  - destruct (process_block history_blocks found b') as [f|e]; cbn [bind].
    + apply (IH Hb).
    + eexists. reflexivity.
Qed.

(** X2. One element that is not an object in the array of one block
    stops the whole analysis: [analyze_logfile] raises, with an exception
    that none of its handlers catches, and returns no conversation. *)
Theorem non_object_element_aborts
        file_content clock blocks clock' b items msg :
  segment (split_lines file_content) clock = (Ok blocks, clock') ->
  In b blocks ->
  decode_block (content b) = Ok (Some items) ->
  In msg items -> is_object msg = false ->
  exists e,
    analyze_logfile file_content clock = (Raise e, clock') /\
    is_decode_error e = false.
Proof.
  intros Hseg Hb Hd Hin Hmsg.
  rewrite (analyze_logfile_segment _ _ _ _ Hseg). unfold analyze_blocks.
  apply (proj2 (sort_blocks_desc_in blocks b)) in Hb.
  destruct (reconstruct_non_object (sort_blocks_desc blocks)
              (sort_blocks_desc blocks) b items msg Hb Hd Hin Hmsg [])
    as [e He].
  exists e. rewrite He. split; [reflexivity|].
  apply (reconstruct_raise _ _ _ _ He).
Qed.

End Abort.

(* ================================================================== *)
(** * Exceptions of the decoder that no handler catches                *)
(* ================================================================== *)

Section DecoderAbort.

Context {L : PyLib}.

Lemma reconstruct_raising_block history_blocks todo b :
  In b todo ->
  (forall found, exists e, process_block history_blocks found b = Raise e) ->
  forall found, exists e, reconstruct history_blocks todo found = Raise e.
Proof.
  intros Hb Hraise.
  induction todo as [|b' todo IH]; [contradiction|].
  intros found. cbn [reconstruct].
  destruct Hb as [->|Hb].
  - destruct (Hraise found) as [e ->]. eexists. reflexivity.
  - destruct (process_block history_blocks found b') as [f|e]; cbn [bind].
    + apply (IH Hb).
    + eexists. reflexivity.
Qed.

(** X26. A block on whose text [json.loads] raises an exception that is
    neither [JSONDecodeError] nor another [ValueError], as it raises
    [RecursionError] on a text nested too deeply, stops the whole
    analysis: [analyze_logfile] raises an exception that none of its
    handlers catches. *)
Theorem decoder_exception_aborts file_content clock blocks clock' b e :
  segment (split_lines file_content) clock = (Ok blocks, clock') ->
  In b blocks ->
  decode_block (content b) = Raise e ->
  is_decode_error e = false ->
  exists e',
    analyze_logfile file_content clock = (Raise e', clock') /\
    is_decode_error e' = false.
Proof.
  intros Hseg Hb Hd He.
  rewrite (analyze_logfile_segment _ _ _ _ Hseg). unfold analyze_blocks.
  apply (proj2 (sort_blocks_desc_in blocks b)) in Hb.
  assert (Hraise : forall found,
            exists e', process_block (sort_blocks_desc blocks) found b
                       = Raise e').
  { intros found. exists e. unfold process_block, claim_block.
    rewrite Hd. cbn [bind try_except]. rewrite He. reflexivity. }
  destruct (reconstruct_raising_block (sort_blocks_desc blocks)
              (sort_blocks_desc blocks) b Hb Hraise []) as [e' He'].
  exists e'. rewrite He'. split; [reflexivity|].
  apply (reconstruct_raise _ _ _ _ He').
Qed.

End DecoderAbort.

(* ================================================================== *)
(** * The shape of the final set                                       *)
(* ================================================================== *)

Section FinalSet.

Context {L : PyLib}.

Lemma process_block_length history_blocks found b found' :
  process_block history_blocks found b = Ok found' ->
  length found' <= S (length found).
Proof.
  intros H. destruct (process_block_result _ _ _ _ H) as [->|(e & -> & _)].
  - lia.
  - rewrite length_app. simpl. lia.
Qed.

Lemma reconstruct_length history_blocks todo : forall found found',
  reconstruct history_blocks todo found = Ok found' ->
  length found' <= length found + length todo.
Proof.
  induction todo as [|b todo IH]; intros found found'; cbn [reconstruct].
  - intros H. injection H as <-. lia.
  - destruct (process_block history_blocks found b) as [f|] eqn:Hp;
      cbn [bind]; [|discriminate].
    intros H. apply IH in H. apply process_block_length in Hp.
    simpl. lia.
Qed.

Lemma stable_sort_length (A : Type) (before : A -> A -> bool) l :
  length (stable_sort before l) = length l.
Proof.
  symmetry. apply Permutation_length. apply stable_sort_perm.
Qed.

Lemma analyze_blocks_length blocks convs :
  analyze_blocks blocks = Ok convs -> length convs <= length blocks.
Proof.
  unfold analyze_blocks.
  destruct (reconstruct (sort_blocks_desc blocks) (sort_blocks_desc blocks) [])
    as [found|] eqn:Hr; cbn [bind]; [|discriminate].
  intros H. injection H as <-.
  rewrite conversations_dict_length.
  unfold sort_found_asc. rewrite stable_sort_length.
  apply reconstruct_length in Hr. unfold sort_blocks_desc in Hr.
  rewrite stable_sort_length in Hr. simpl in Hr. exact Hr.
Qed.

(** X3. The analysis returns at most one conversation for each block
    that decodes and holds a user turn; so never more conversations than
    the log has HISTORY blocks. *)
Theorem conversations_bounded_by_blocks
        file_content clock blocks clock' convs :
  segment (split_lines file_content) clock = (Ok blocks, clock') ->
  analyze_logfile file_content clock = (Ok convs, clock') ->
  length convs
  <= length (filter (fun b => negb (ignored_block b)) blocks)
  /\ length convs <= length blocks.
Proof.
  intros Hseg H.
  rewrite (analyze_logfile_segment _ _ _ _ Hseg) in H. injection H as H.
  split; [|apply (analyze_blocks_length _ _ H)].
  apply analyze_blocks_length.
  rewrite <- H. symmetry. apply analyze_blocks_ignored.
Qed.

End FinalSet.

(* ================================================================== *)
(** * Keys and order of the final set                                  *)
(* ================================================================== *)

Lemma lit_inj a b : lit a = lit b -> a = b.
Proof.
  unfold lit. intros H.
  assert (Hinj : forall x y : list ascii, map Latin x = map Latin y -> x = y).
  { induction x as [|c x IH]; intros [|d y]; cbn [map]; try discriminate;
      [reflexivity|].
    intros [= -> Hxy]. f_equal. apply IH. exact Hxy. }
  apply Hinj in H.
  rewrite <- (string_of_list_ascii_of_string a),
          <- (string_of_list_ascii_of_string b), H.
  reflexivity.
Qed.

Lemma str_of_nat_inj a b : str_of_nat a = str_of_nat b -> a = b.
Proof.
  unfold str_of_nat. intros H. apply lit_inj in H.
  apply Unsigned.to_uint_inj.
  assert (Hs : Some (Nat.to_uint a) = Some (Nat.to_uint b)).
  { rewrite <- !NilEmpty.usu, H. reflexivity. }
  injection Hs. auto.
Qed.

Lemma conversations_dict_keys found : forall i,
  map fst (conversations_dict i found)
  = map (fun k => lit "conversation_" ++ str_of_nat (k + 1))
        (seq i (length found)).
Proof.
  induction found as [|e found IH]; intros i; [reflexivity|].
  cbn [conversations_dict map fst length seq]. rewrite IH. reflexivity.
Qed.

Lemma conversation_keys_NoDup l :
  NoDup l ->
  NoDup (map (fun k => lit "conversation_" ++ str_of_nat (k + 1)) l).
Proof.
  induction 1 as [|k l Hk _ IH]; cbn [map]; constructor; [|exact IH].
  intros Hin. apply in_map_iff in Hin. destruct Hin as (k' & Heq & Hk').
  apply app_inv_head in Heq. apply str_of_nat_inj in Heq.
  assert (k' = k) by lia. subst k'. contradiction.
Qed.

Section FinalSetOrder.

Context {L : PyLib}.

Lemma sort_found_asc_sorted found :
  StronglySorted (fun a b => dt_leb (fc_timestamp a) (fc_timestamp b) = true)
                 (sort_found_asc found).
Proof.
  unfold sort_found_asc.
  eapply StronglySorted_impl; [|apply stable_sort_sorted].
  - intros a b Hab. simpl in Hab. unfold dt_leb. rewrite Hab. reflexivity.
  - intros a b. apply dt_ltb_asym.
  - intros a b c Hab Hbc. eapply dt_ltb_negtrans; eassumption.
Qed.

Lemma conversations_dict_sorted found : forall i,
  Forall (fun e => start_time (fc_conversation e) = fc_timestamp e) found ->
  StronglySorted (fun a b => dt_leb (fc_timestamp a) (fc_timestamp b) = true)
                 found ->
  StronglySorted
    (fun a b => dt_leb (start_time (snd a)) (start_time (snd b)) = true)
    (conversations_dict i found).
Proof.
  induction found as [|e found IH]; intros i Hst Hs;
    cbn [conversations_dict]; [constructor|].
  apply Forall_cons_iff in Hst. destruct Hst as [He Hst].
  apply StronglySorted_inv in Hs. destruct Hs as [Hs Hall].
  constructor; [apply IH; assumption|].
  apply Forall_forall. intros [key c] Hin. cbn [snd].
  apply conversations_dict_in in Hin. destruct Hin as (e' & He' & ->).
  rewrite Forall_forall in Hall, Hst.
  rewrite He, (Hst e' He'). apply Hall. exact He'.
Qed.

Lemma claimed_from_start_time history_blocks b e :
  claimed_from history_blocks b e ->
  start_time (fc_conversation e) = fc_timestamp e.
Proof.
  intros (items & first & rest & _ & _ & _ & Hts & _ & Hst & _).
  congruence.
Qed.

Lemma analyze_logfile_final_set file_content clock convs clock' :
  analyze_logfile file_content clock = (Ok convs, clock') ->
  map fst convs
  = map (fun k => lit "conversation_" ++ str_of_nat (k + 1))
        (seq 0 (length convs))
  /\ NoDup (map fst convs)
  /\ StronglySorted
       (fun a b => dt_leb (start_time (snd a)) (start_time (snd b)) = true)
       convs.
Proof.
  intros H. apply analyze_logfile_inv in H. destruct H as (blocks & _ & H).
  unfold analyze_blocks in H.
  destruct (reconstruct (sort_blocks_desc blocks) (sort_blocks_desc blocks) [])
    as [found|] eqn:Hr; cbn [bind] in H; [|discriminate].
  injection H as ->.
  assert (Hkeys : map fst (conversations_dict 0 (sort_found_asc found))
            = map (fun k => lit "conversation_" ++ str_of_nat (k + 1))
                  (seq 0 (length (conversations_dict 0 (sort_found_asc found))))).
  { rewrite conversations_dict_keys, conversations_dict_length. reflexivity. }
  split; [exact Hkeys|]. split.
  - rewrite Hkeys. apply conversation_keys_NoDup. apply seq_NoDup.
  - apply conversations_dict_sorted; [|apply sort_found_asc_sorted].
    apply Forall_forall. intros e He.
    apply (proj1 (sort_found_asc_in _ _)) in He.
    pose proof (reconstruct_claimed (sort_blocks_desc blocks)
                  (sort_blocks_desc blocks) [] found
                  (Forall_nil _) (incl_refl _) Hr) as HF.
    rewrite Forall_forall in HF. destruct (HF e He) as (b & _ & Hc).
    apply (claimed_from_start_time _ _ _ Hc).
Qed.

(** X4. The final dict holds its conversations oldest first by
    [start_time], under the keys [conversation_1], [conversation_2], ... in
    that order; the keys are pairwise distinct, so no entry overwrites
    another. *)
Theorem final_set_keys_and_order file_content clock convs clock' :
  analyze_logfile file_content clock = (Ok convs, clock') ->
  map fst convs
  = map (fun k => lit "conversation_" ++ str_of_nat (k + 1))
        (seq 0 (length convs))
  /\ NoDup (map fst convs)
  /\ StronglySorted
       (fun a b => dt_leb (start_time (snd a)) (start_time (snd b)) = true)
       convs.
Proof. apply analyze_logfile_final_set. Qed.

(** X5. All messages of a conversation carry one timestamp, the
    [start_time] of the conversation, which is the timestamp of a block of
    the log. *)
Theorem messages_share_block_timestamp
        file_content clock blocks clock' convs key c :
  segment (split_lines file_content) clock = (Ok blocks, clock') ->
  analyze_logfile file_content clock = (Ok convs, clock') ->
  In (key, c) convs ->
  (exists b, In b blocks /\ start_time c = timestamp b) /\
  Forall (fun m => msg_timestamp m = start_time c) (messages c).
Proof.
  intros Hseg H Hin.
  rewrite (analyze_logfile_segment _ _ _ _ Hseg) in H. injection H as H.
  destruct (analyze_blocks_claimed blocks convs key c H Hin)
    as (b & e & Hb & Hc & ->).
  destruct Hc as (items & first & rest & _ & _ & _ & _ & _ & Hst & _ & Hbuild).
  split; [exists b; split; assumption|].
  apply Forall_forall. intros m Hm.
  apply In_nth_error in Hm. destruct Hm as [i Hi].
  destruct (build_messages_spec _ _ _ _ _ _ Hbuild) as [_ Hnth].
  destruct (Hnth i m Hi) as (Hts & _). congruence.
Qed.

End FinalSetOrder.

(* ================================================================== *)
(** * No conversation is a prefix of a newer one                       *)
(* ================================================================== *)

Lemma ForallOrdPairs_snoc (A : Type) (R : A -> A -> Prop) l e :
  ForallOrdPairs R l -> Forall (fun x => R x e) l ->
  ForallOrdPairs R (l ++ [e]).
Proof.
  induction 1 as [|a l Ha _ IH]; intros He; simpl.
  - constructor; constructor.
  - apply Forall_cons_iff in He. destruct He as [Hae He].
    constructor; [|apply IH; exact He].
    apply Forall_app. split; [exact Ha|]. constructor; [exact Hae|constructor].
Qed.

Section PrefixFree.

Context {L : PyLib}.

Lemma reconstruct_claimed_in_order history_blocks todo : forall found found',
  StronglySorted (fun a b => dt_leb (timestamp b) (timestamp a) = true) todo ->
  ForallOrdPairs claimed_in_order found ->
  Forall (fun e => Forall (fun b => dt_leb (timestamp b) (fc_timestamp e)
                                    = true) todo) found ->
  reconstruct history_blocks todo found = Ok found' ->
  ForallOrdPairs claimed_in_order found'.
Proof.
  induction todo as [|b todo IH]; intros found found' Hs Hfop Hts;
    cbn [reconstruct].
  - intros H. injection H as <-. exact Hfop.
  - destruct (process_block history_blocks found b) as [f|] eqn:Hp;
      cbn [bind]; [|discriminate].
    apply StronglySorted_inv in Hs. destruct Hs as [Hs Hb].
    assert (Hts' : Forall (fun e => Forall (fun b' => dt_leb (timestamp b')
                     (fc_timestamp e) = true) todo) found).
    { eapply Forall_impl; [|exact Hts]. intros e He.
      apply Forall_inv_tail in He. exact He. }
    destruct (process_block_result _ _ _ _ Hp) as [->|(e & -> & Hc & Hsub)].
    + apply IH; assumption.
    + apply IH; [exact Hs| |].
      * apply ForallOrdPairs_snoc; [exact Hfop|].
        apply Forall_forall. intros e1 He1. split.
        -- intros Hpre.
           assert (Hyes : is_subset (fc_user_messages e) found = true).
           { apply is_subset_prefix. exists e1. split; assumption. }
           congruence.
        -- destruct Hc as (_ & _ & _ & _ & _ & _ & Hte & _).
           rewrite Hte. rewrite Forall_forall in Hts.
           specialize (Hts e1 He1). apply Forall_inv in Hts. exact Hts.
      * apply Forall_app. split; [exact Hts'|].
        constructor; [|constructor].
        destruct Hc as (_ & _ & _ & _ & _ & _ & Hte & _).
        rewrite Hte. exact Hb.
Qed.

Lemma claimed_from_user_messages history_blocks b e :
  claimed_from history_blocks b e ->
  map user_message (messages (fc_conversation e)) = fc_user_messages e.
Proof.
  intros (items & first & rest & _ & _ & Hum & _ & _ & _ & _ & Hbuild).
  rewrite Hum. apply (build_messages_spec _ _ _ _ _ _ Hbuild).
Qed.

(** X6. In the final set no conversation is a prefix of a strictly newer
    one: when [c1] starts before [c2], the user messages of [c1] are not
    the first user messages of [c2]. *)
Theorem no_prefix_of_newer_conversation
        file_content clock convs clock' key1 c1 key2 c2 :
  analyze_logfile file_content clock = (Ok convs, clock') ->
  In (key1, c1) convs -> In (key2, c2) convs ->
  dt_ltb (start_time c1) (start_time c2) = true ->
  ~ is_prefix_of (map user_message (messages c1))
                 (map user_message (messages c2)).
Proof.
  intros H Hin1 Hin2 Hlt.
  apply analyze_logfile_inv in H. destruct H as (blocks & _ & H).
  unfold analyze_blocks in H.
  destruct (reconstruct (sort_blocks_desc blocks) (sort_blocks_desc blocks) [])
    as [found|] eqn:Hr; cbn [bind] in H; [|discriminate].
  injection H as ->.
  apply conversations_dict_in in Hin1, Hin2.
  destruct Hin1 as (e1 & He1 & ->). destruct Hin2 as (e2 & He2 & ->).
  apply (proj1 (sort_found_asc_in _ _)) in He1, He2.
  pose proof (reconstruct_claimed (sort_blocks_desc blocks)
                (sort_blocks_desc blocks) [] found
                (Forall_nil _) (incl_refl _) Hr) as HF.
  rewrite Forall_forall in HF.
  destruct (HF e1 He1) as (b1 & _ & Hc1).
  destruct (HF e2 He2) as (b2 & _ & Hc2).
  rewrite (claimed_from_user_messages _ _ _ Hc1),
          (claimed_from_user_messages _ _ _ Hc2).
  rewrite (claimed_from_start_time _ _ _ Hc1),
          (claimed_from_start_time _ _ _ Hc2) in Hlt.
  pose proof (reconstruct_claimed_in_order (sort_blocks_desc blocks)
                (sort_blocks_desc blocks) [] found
                (sort_blocks_desc_sorted blocks)
                (FOP_nil _) (Forall_nil _) Hr) as Hfop.
  destruct (ForallOrdPairs_In Hfop e1 e2 He1 He2) as [->|[[_ Hle]|[Hnp _]]].
  - rewrite dt_ltb_irrefl in Hlt. discriminate.
  - unfold dt_leb in Hle. rewrite Hlt in Hle. discriminate.
  - exact Hnp.
Qed.

End PrefixFree.

(* ================================================================== *)
(** * Trimmed text                                                     *)
(* ================================================================== *)

Lemma lstrip_suffix s : exists p, s = p ++ lstrip s.
Proof.
  induction s as [|c s [p IH]]; simpl.
  - exists []. reflexivity.
  - destruct (isspace c).
    + exists (c :: p). simpl. rewrite <- IH. reflexivity.
    + exists []. reflexivity.
Qed.

Lemma lstrip_head s c r : lstrip s = c :: r -> isspace c = false.
Proof.
  induction s as [|x s IH]; simpl; [discriminate|].
  destruct (isspace x) eqn:Hx; [exact IH|].
  intros H. injection H as -> _. exact Hx.
Qed.

Lemma lstrip_fixed s :
  match s with c :: _ => isspace c = false | [] => True end ->
  lstrip s = s.
Proof. destruct s as [|c s]; simpl; [reflexivity|]. intros ->. reflexivity. Qed.

Lemma lstrip_idem s : lstrip (lstrip s) = lstrip s.
Proof.
  apply lstrip_fixed. destruct (lstrip s) as [|c r] eqn:H; [exact I|].
  apply (lstrip_head s c r H).
Qed.

(** [strip] is idempotent: a trimmed text has nothing left to trim. *)
Lemma strip_idem s : strip (strip s) = strip s.
Proof.
  unfold strip, rstrip.
  set (t := lstrip s).
  set (q := lstrip (rev t)).
  assert (Hl : lstrip (rev q) = rev q).
  { apply lstrip_fixed. destruct (rev q) as [|c r] eqn:Hr; [exact I|].
    destruct (lstrip_suffix (rev t)) as [p Hp]. fold q in Hp.
    assert (Ht : t = rev q ++ rev p).
    { rewrite <- (rev_involutive t), Hp, rev_app_distr. reflexivity. }
    rewrite Hr in Ht. simpl in Ht. apply (lstrip_head s c (r ++ rev p)).
    exact Ht. }
  rewrite Hl, rev_involutive. unfold q at 1. rewrite lstrip_idem.
  reflexivity.
Qed.

Section Trimmed.

Context {L : PyLib}.

Lemma content_stripped_trimmed msg c :
  content_stripped msg = Ok c -> strip c = c.
Proof.
  unfold content_stripped.
  destruct (py_get msg (lit "content") (JStr [])) as [v|]; cbn [bind];
    [|discriminate].
  destruct v; simpl; try discriminate.
  intros H. injection H as <-. apply strip_idem.
Qed.

Lemma user_messages_of_trimmed items : forall us,
  user_messages_of items = Ok us -> Forall (fun u => strip u = u) us.
Proof.
  induction items as [|msg rest IH]; intros us; cbn [user_messages_of].
  - intros H. injection H as <-. constructor.
  - destruct (has_role msg (lit "user")) as [[|]|]; cbn [bind];
      [|apply IH|discriminate].
    destruct (content_stripped msg) as [c|] eqn:Hc; cbn [bind];
      [|discriminate].
    destruct (user_messages_of rest) as [cs|]; cbn [bind]; [|discriminate].
    intros H. injection H as <-.
    constructor; [apply (content_stripped_trimmed _ _ Hc)|apply IH; reflexivity].
Qed.

Lemma next_assistant_trimmed after dflt r :
  strip dflt = dflt ->
  next_assistant after dflt = Ok r -> strip r = r.
Proof.
  intros Hd. induction after as [|msg rest IH]; cbn [next_assistant].
  - intros H. injection H as <-. exact Hd.
  - destruct (has_role msg (lit "assistant")) as [[|]|]; cbn [bind];
      [apply content_stripped_trimmed|exact IH|discriminate].
Qed.

Lemma find_claude_response_trimmed data user_msg dflt r :
  strip dflt = dflt ->
  find_claude_response data user_msg dflt = Ok r -> strip r = r.
Proof.
  intros Hd. induction data as [|msg rest IH]; cbn [find_claude_response].
  - intros H. injection H as <-. exact Hd.
  - destruct (has_role msg (lit "user")) as [[|]|]; cbn [bind];
      [|exact IH|discriminate].
    destruct (content_stripped msg) as [c|]; cbn [bind]; [|discriminate].
    destruct (str_eqb c user_msg); [|exact IH].
    apply next_assistant_trimmed. exact Hd.
Qed.

(** X7. Every text the analysis puts in a conversation is trimmed: the
    [first_message], and the [user_message] and the [claude_response] of
    each message, have no white space left at either end. *)
Theorem conversation_texts_are_trimmed
        file_content clock convs clock' key c :
  analyze_logfile file_content clock = (Ok convs, clock') ->
  In (key, c) convs ->
  strip (first_message c) = first_message c /\
  Forall (fun m => strip (user_message m) = user_message m /\
                   strip (claude_response m) = claude_response m)
         (messages c).
Proof.
  intros H Hin.
  apply analyze_logfile_inv in H. destruct H as (blocks & _ & H).
  destruct (analyze_blocks_claimed blocks convs key c (eq_sym H) Hin)
    as (b & e & _ & Hc & ->).
  destruct Hc as (items & first & rest & _ & Hu & _ & _ & Hfirst & _ & _
                  & Hbuild).
  pose proof (user_messages_of_trimmed _ _ Hu) as Htrim.
  split.
  - rewrite Hfirst. apply Forall_inv in Htrim. exact Htrim.
  - destruct (build_messages_spec _ _ _ _ _ _ Hbuild) as [Hmap Hnth].
    apply Forall_forall. intros m Hm.
    apply In_nth_error in Hm. destruct Hm as [i Hi].
    destruct (Hnth i m Hi) as (_ & Hresp & _). split.
    + rewrite Forall_forall in Htrim. apply Htrim.
      rewrite <- Hmap. apply in_map. apply (nth_error_In _ _ Hi).
    + apply (find_claude_response_trimmed items (user_message m) NO_RESPONSE);
        [reflexivity|exact Hresp].
Qed.

(** X8. A message whose text does not occur in an earlier user turn of
    its conversation gets the reply to its own turn: the stripped content
    of the first assistant turn that follows that user turn in the block
    the conversation is built from, or the sentinel when no assistant turn
    follows. *)
Theorem new_message_gets_its_reply
        file_content clock blocks clock' convs key c :
  segment (split_lines file_content) clock = (Ok blocks, clock') ->
  analyze_logfile file_content clock = (Ok convs, clock') ->
  In (key, c) convs ->
  exists b items,
    In b blocks /\
    decode_block (content b) = Ok (Some items) /\
    user_messages_of items = Ok (map user_message (messages c)) /\
    forall i m,
      nth_error (messages c) i = Some m ->
      (forall j, j < i ->
         nth_error (map user_message (messages c)) j
         <> Some (user_message m)) ->
      reply_to_turn items i = Ok (claude_response m).
Proof.
  intros Hseg H Hin.
  rewrite (analyze_logfile_segment _ _ _ _ Hseg) in H. injection H as H.
  destruct (analyze_blocks_claimed blocks convs key c H Hin)
    as (b & e & Hb & Hc & ->).
  destruct Hc as (items & first & rest & Hd & Hu & _ & _ & _ & _ & _
                  & Hbuild).
  destruct (build_messages_spec _ _ _ _ _ _ Hbuild) as [Hmap Hnth].
  exists b, items. split; [exact Hb|]. split; [exact Hd|].
  split; [rewrite Hmap; exact Hu|].
  intros i m Hi Hnew.
  destruct (Hnth i m Hi) as (_ & Hresp & _).
  rewrite <- Hresp. symmetry.
  apply (find_claude_response_first_occurrence items
           (map user_message (messages (fc_conversation e))) i
           (user_message m)).
  - rewrite Hmap. exact Hu.
  - rewrite nth_error_map, Hi. reflexivity.
  - exact Hnew.
Qed.

End Trimmed.

(* ================================================================== *)
(** * The blocks of the segmenter, line by line                        *)
(* ================================================================== *)

Lemma startswith_app sub s t :
  length sub <= length s -> startswith sub (s ++ t) = startswith sub s.
Proof.
  revert s. induction sub as [|a sub IH]; intros [|c s]; simpl; intros H;
    try reflexivity; try lia.
  rewrite IH by lia. reflexivity.
Qed.

Lemma startswith_length sub s :
  startswith sub s = true -> length sub <= length s.
Proof.
  revert s. induction sub as [|a sub IH]; intros [|c s]; simpl;
    try discriminate; try lia.
  rewrite andb_true_iff. intros [_ H]. apply IH in H. lia.
Qed.

Lemma find_at_length sub s : forall k0 k,
  find_at sub s k0 = Some k -> k0 <= k /\ (k - k0) + length sub <= length s.
Proof.
  induction s as [|c s IH]; intros k0 k; simpl.
  - destruct (startswith sub []) eqn:H; [|discriminate].
    intros E. injection E as <-. apply startswith_length in H.
    simpl in H. lia.
  - destruct (startswith sub (c :: s)) eqn:H.
    + intros E. injection E as <-. apply startswith_length in H.
      simpl in H. lia.
    + intros E. apply IH in E. lia.
Qed.

(** A text found in [s] is found at the same place in [s] followed by
    anything. *)
Lemma find_at_app sub s t : forall k0 k,
  find_at sub s k0 = Some k -> find_at sub (s ++ t) k0 = Some k.
Proof.
  induction s as [|c s IH]; intros k0 k; simpl.
  - destruct (startswith sub []) eqn:H; [|discriminate].
    intros E. injection E as <-.
    destruct sub; [|discriminate]. destruct t; reflexivity.
  - destruct (startswith sub (c :: s)) eqn:H.
    + intros E. injection E as <-.
      change (c :: s ++ t) with ((c :: s) ++ t).
      rewrite startswith_app, H by (apply startswith_length; exact H).
      reflexivity.
    + intros E. pose proof (find_at_length _ _ _ _ E) as Hlen.
      change (c :: s ++ t) with ((c :: s) ++ t).
      rewrite startswith_app, H by (simpl; lia).
      apply IH. exact E.
Qed.

Lemma join_lines_cons l rest :
  exists tail, join_lines (l :: rest) = l ++ tail.
Proof.
  destruct rest as [|l' rest]; simpl.
  - exists []. rewrite app_nil_r. reflexivity.
  - eexists. reflexivity.
Qed.

Lemma join_lines_app l1 l2 :
  l1 <> [] -> l2 <> [] ->
  join_lines (l1 ++ l2) = join_lines l1 ++ newline :: join_lines l2.
Proof.
  intros H1 H2. induction l1 as [|a l1 IH]; [congruence|].
  destruct l1 as [|b l1].
  - simpl. destruct l2; [congruence|reflexivity].
  - change (join_lines ((a :: b :: l1) ++ l2))
      with (a ++ newline :: join_lines ((b :: l1) ++ l2)).
    rewrite IH by discriminate.
    change (join_lines (a :: b :: l1))
      with (a ++ newline :: join_lines (b :: l1)).
    rewrite <- app_assoc. reflexivity.
Qed.

Lemma split_lines_nonempty s : split_lines s <> [].
Proof.
  destruct s as [|c s]; simpl; [discriminate|].
  destruct (char_eqb c newline); [discriminate|].
  destruct (split_lines s); discriminate.
Qed.

(** Joining the lines of a text gives the text back. *)
Lemma join_split_lines s : join_lines (split_lines s) = s.
Proof.
  induction s as [|c s IH]; [reflexivity|]. simpl.
  destruct (char_eqb_spec c newline) as [->|Hc].
  - pose proof (split_lines_nonempty s) as Hne.
    destruct (split_lines s) as [|l ls]; [congruence|].
    change (join_lines ([] :: l :: ls)) with (newline :: join_lines (l :: ls)).
    rewrite IH. reflexivity.
  - pose proof (split_lines_nonempty s) as Hne.
    destruct (split_lines s) as [|l ls]; [congruence|].
    destruct ls as [|l' ls]; simpl in *; rewrite <- IH; reflexivity.
Qed.

(** A run of lines of a list, joined, is a part of the joined list. *)
Lemma join_lines_part l1 mid l3 :
  mid <> [] ->
  exists pre post,
    join_lines (l1 ++ mid ++ l3) = pre ++ join_lines mid ++ post.
Proof.
  intros Hmid.
  assert (Hright : exists post,
            join_lines (mid ++ l3) = join_lines mid ++ post).
  { destruct l3 as [|x l3].
    - exists []. rewrite !app_nil_r. reflexivity.
    - eexists. apply join_lines_app; [exact Hmid|discriminate]. }
  destruct Hright as [post Hpost].
  destruct l1 as [|a l1].
  - exists [], post. exact Hpost.
  - exists (join_lines (a :: l1) ++ [newline]), post.
    rewrite join_lines_app; [|discriminate|destruct mid; [congruence|discriminate]].
    rewrite Hpost, <- app_assoc. reflexivity.
Qed.

Lemma skipn_nth_cons (A : Type) (l : list A) : forall i d,
  i < length l -> skipn i l = nth i l d :: skipn (S i) l.
Proof.
  induction l as [|a l IH]; intros i d Hi; [simpl in Hi; lia|].
  destruct i as [|i]; [reflexivity|].
  simpl in Hi. change (skipn (S i) (a :: l)) with (skipn i l).
  rewrite (IH i d) by lia. reflexivity.
Qed.

Section SegmenterLines.

Context {L : PyLib}.

Lemma blocks_at_in lines starts : forall clock b,
  In b (fst (blocks_at lines starts clock)) ->
  exists i, In i starts /\
            line_number b = i /\
            content b = block_text lines i /\
            timestamp_str b = firstn 23 (nth i lines []).
Proof.
  induction starts as [|i rest IH]; intros clock b; [intros []|].
  rewrite blocks_at_cons. cbn [fst]. intros [<-|Hin].
  - exists i. cbn. auto.
  - destruct (IH _ _ Hin) as (j & Hj & H). exists j. split; [right|]; auto.
Qed.

Lemma blocks_at_line_numbers lines starts : forall clock,
  map line_number (fst (blocks_at lines starts clock)) = starts.
Proof.
  induction starts as [|i rest IH]; intros clock; [reflexivity|].
  rewrite blocks_at_cons. cbn [fst map line_number]. rewrite IH. reflexivity.
Qed.

Lemma block_starts_in lines i :
  In i (block_starts lines) <->
  i < length lines /\ is_block_start (nth i lines []) = true.
Proof.
  unfold block_starts. rewrite filter_In, in_seq. split.
  - intros [H1 H2]. split; [lia|exact H2].
  - intros [H1 H2]. split; [lia|exact H2].
Qed.

Lemma filter_seq_increasing (f : nat -> bool) n : forall i,
  StronglySorted lt (filter f (seq i n)).
Proof.
  induction n as [|n IH]; intros i; simpl; [constructor|].
  destruct (f i); [|apply IH].
  constructor; [apply IH|].
  apply Forall_forall. intros j Hj. apply filter_In in Hj.
  destruct Hj as [Hj _]. apply in_seq in Hj. lia.
Qed.

Lemma segment_in lines clock blocks clock' b :
  segment lines clock = (Ok blocks, clock') ->
  In b blocks ->
  line_number b < length lines /\
  is_block_start (nth (line_number b) lines []) = true /\
  content b = block_text lines (line_number b).
Proof.
  rewrite segment_blocks_at. intros H Hin. injection H as <- _.
  apply blocks_at_in in Hin. destruct Hin as (i & Hi & Hl & Hc & _).
  apply block_starts_in in Hi. rewrite Hl. tauto.
Qed.

(** A line in the body of a block opens no block. *)
Lemma body_line_no_start lines i k :
  S i <= k -> k < S i + length (block_body (skipn (S i) lines)) ->
  is_block_start (nth k lines []) = false.
Proof.
  intros Hlo Hhi.
  destruct (block_body_prefix (skipn (S i) lines)) as [tail Htail].
  set (body := block_body (skipn (S i) lines)) in *.
  assert (Hnth : nth k lines [] = nth (k - S i) body []).
  { replace k with (S i + (k - S i)) at 1 by lia.
    rewrite <- nth_skipn, Htail, app_nth1 by lia. reflexivity. }
  rewrite Hnth.
  assert (Hno : starts_entry (nth (k - S i) body []) = false).
  { pose proof (block_body_no_entry (skipn (S i) lines)) as HF.
    rewrite Forall_forall in HF. apply HF. apply nth_In. fold body. lia. }
  destruct (is_block_start (nth (k - S i) body [])) eqn:E; [|reflexivity].
  apply block_start_starts_entry in E. congruence.
Qed.

(** X9. The blocks come in file order and share no line: their line
    numbers increase strictly, and a block that starts after another one
    starts after the last line of that one. *)
Theorem blocks_in_file_order_disjoint file_content clock blocks clock' :
  segment (split_lines file_content) clock = (Ok blocks, clock') ->
  StronglySorted lt (map line_number blocks) /\
  forall b b',
    In b blocks -> In b' blocks ->
    line_number b < line_number b' ->
    line_number b
    + length (block_body
                (skipn (S (line_number b)) (split_lines file_content)))
    < line_number b'.
Proof.
  intros Hseg. split.
  - rewrite segment_blocks_at in Hseg. injection Hseg as <- _.
    rewrite blocks_at_line_numbers. unfold block_starts.
    apply filter_seq_increasing.
  - intros b b' Hb Hb' Hlt.
    destruct (segment_in _ _ _ _ _ Hseg Hb') as (_ & Hstart & _).
    set (lines := split_lines file_content) in *.
    destruct (Nat.lt_ge_cases
                (line_number b
                 + length (block_body (skipn (S (line_number b)) lines)))
                (line_number b')) as [H|H]; [exact H|].
    rewrite (body_line_no_start lines (line_number b) (line_number b'))
      in Hstart by lia.
    discriminate.
Qed.

(** X10. The text of a block is taken from the log as it stands: it is a
    contiguous part of the text of the file, and it begins with the line
    that opens the block. *)
Theorem block_text_is_part_of_log file_content clock blocks clock' b :
  segment (split_lines file_content) clock = (Ok blocks, clock') ->
  In b blocks ->
  (exists pre post, file_content = pre ++ content b ++ post) /\
  (exists tail,
     content b = nth (line_number b) (split_lines file_content) [] ++ tail).
Proof.
  intros Hseg Hb.
  destruct (segment_in _ _ _ _ _ Hseg Hb) as (Hi & _ & Hc).
  set (lines := split_lines file_content) in *.
  set (i := line_number b) in *.
  split.
  - destruct (block_body_prefix (skipn (S i) lines)) as [tail Htail].
    assert (Hlines : lines
              = firstn i lines
                ++ (nth i lines [] :: block_body (skipn (S i) lines))
                ++ tail).
    { rewrite <- (firstn_skipn i lines) at 1. f_equal.
      rewrite (skipn_nth_cons _ lines i []) by exact Hi.
      cbn [app]. f_equal. exact Htail. }
    destruct (join_lines_part (firstn i lines)
                (nth i lines [] :: block_body (skipn (S i) lines)) tail)
      as (pre & post & Hjoin); [discriminate|].
    exists pre, post.
    rewrite <- (join_split_lines file_content). fold lines.
    rewrite Hlines at 1. rewrite Hjoin, Hc. reflexivity.
  - rewrite Hc. unfold block_text. apply join_lines_cons.
Qed.

(** X11. The test for a missing marker in the main loop never fires: the
    text of every block holds the HISTORY marker, at the place where its
    first line holds it. *)
Theorem block_holds_marker file_content clock blocks clock' b :
  segment (split_lines file_content) clock = (Ok blocks, clock') ->
  In b blocks ->
  exists k,
    find HISTORY_MARKER (content b) = Some k /\
    find HISTORY_MARKER
         (nth (line_number b) (split_lines file_content) []) = Some k.
Proof.
  intros Hseg Hb.
  destruct (segment_in _ _ _ _ _ Hseg Hb) as (_ & Hstart & Hc).
  unfold is_block_start in Hstart. apply andb_true_iff in Hstart.
  destruct Hstart as [Hmark _]. unfold contains in Hmark.
  destruct (find HISTORY_MARKER
              (nth (line_number b) (split_lines file_content) []))
    as [k|] eqn:Hfind; [|discriminate].
  exists k. split; [|reflexivity].
  rewrite Hc. unfold block_text.
  destruct (join_lines_cons
              (nth (line_number b) (split_lines file_content) [])
              (block_body (skipn (S (line_number b))
                                 (split_lines file_content))))
    as [tail ->].
  apply find_at_app. exact Hfind.
Qed.

End SegmenterLines.

(* ================================================================== *)
(** * Short test messages                                              *)
(* ================================================================== *)

(** A fact about every character is settled on each of them. *)
Ltac each_char c :=
  destruct c as [[[] [] [] [] [] [] [] []]| | |]; reflexivity.

Lemma lower_char_idem c : lower_char (lower_char c) = lower_char c.
Proof. each_char c. Qed.

Lemma isspace_lower_char c : isspace (lower_char c) = isspace c.
Proof. each_char c. Qed.

Lemma lower_idem s : lower (lower s) = lower s.
Proof.
  unfold lower. rewrite map_map. apply map_ext. apply lower_char_idem.
Qed.

Lemma lstrip_lower s : lstrip (lower s) = lower (lstrip s).
Proof.
  induction s as [|c s IH]; [reflexivity|].
  cbn [lower map lstrip]. rewrite isspace_lower_char.
  destruct (isspace c); [exact IH|reflexivity].
Qed.

Lemma strip_lower s : strip (lower s) = lower (strip s).
Proof.
  unfold strip, rstrip. rewrite lstrip_lower.
  unfold lower at 1. rewrite <- map_rev. fold (lower (rev (lstrip s))).
  rewrite lstrip_lower. unfold lower. rewrite map_rev. reflexivity.
Qed.

(** X12. The test for a short test message looks at the message without
    the white space around it and without regard to case, and never
    accepts a message whose trimmed text is longer than 10 characters. *)
Theorem short_test_message_ignores_case_and_space (user_message : str) :
  _is_short_test_message (strip user_message)
  = _is_short_test_message user_message
  /\ _is_short_test_message (lower user_message)
     = _is_short_test_message user_message
  /\ (10 < length (strip user_message) ->
      _is_short_test_message user_message = false).
Proof.
  unfold _is_short_test_message. split; [|split].
  - rewrite strip_idem. reflexivity.
  - rewrite strip_lower, lower_idem. reflexivity.
  - intros Hlen. unfold lower. rewrite length_map.
    destruct (Nat.leb_spec (length (strip user_message)) 10); [lia|].
    reflexivity.
Qed.

(* ================================================================== *)
(** * The newest conversation of a chat                                *)
(* ================================================================== *)

Lemma dt_ltb_le_trans a b c :
  dt_ltb a b = true -> dt_ltb c b = false -> dt_ltb a c = true.
Proof.
  intros Hab Hcb. destruct (dt_ltb a c) eqn:Hac; [reflexivity|].
  rewrite (dt_ltb_negtrans _ _ _ Hac Hcb) in Hab. discriminate.
Qed.

Lemma dt_le_ltb_trans a b c :
  dt_ltb b a = false -> dt_ltb b c = true -> dt_ltb a c = true.
Proof.
  intros Hba Hbc. destruct (dt_ltb a c) eqn:Hac; [reflexivity|].
  rewrite (dt_ltb_negtrans _ _ _ Hba Hac) in Hbc. discriminate.
Qed.

Lemma max_timestamp_from_ge_best rest : forall best,
  dt_ltb (max_timestamp_from best rest) best = false.
Proof.
  induction rest as [|m rest IH]; intros best; cbn [max_timestamp_from].
  - apply dt_ltb_irrefl.
  - destruct (dt_ltb best (msg_timestamp m)) eqn:Hlt.
    + eapply dt_ltb_negtrans; [apply IH|]. apply dt_ltb_asym. exact Hlt.
    + apply IH.
Qed.

Lemma max_timestamp_from_ge rest : forall best m,
  In m rest ->
  dt_ltb (max_timestamp_from best rest) (msg_timestamp m) = false.
Proof.
  induction rest as [|m0 rest IH]; intros best m Hin; [destruct Hin|].
  cbn [max_timestamp_from]. destruct Hin as [->|Hin]; [|apply IH; exact Hin].
  destruct (dt_ltb best (msg_timestamp m)) eqn:Hlt.
  - apply max_timestamp_from_ge_best.
  - eapply dt_ltb_negtrans; [apply max_timestamp_from_ge_best|exact Hlt].
Qed.

Lemma max_timestamp_from_attained rest : forall best,
  max_timestamp_from best rest = best \/
  exists m, In m rest /\ msg_timestamp m = max_timestamp_from best rest.
Proof.
  induction rest as [|m0 rest IH]; intros best; cbn [max_timestamp_from];
    [left; reflexivity|].
  destruct (dt_ltb best (msg_timestamp m0)).
  - right. destruct (IH (msg_timestamp m0)) as [->|(m & Hm & Heq)].
    + exists m0. split; [left|]; reflexivity.
    + exists m. split; [right|]; assumption.
  - destruct (IH best) as [->|(m & Hm & Heq)]; [left; reflexivity|].
    right. exists m. split; [right|]; assumption.
Qed.

Lemma max_timestamp_newest c t :
  max_timestamp (messages c) = Ok t -> newest_message_at c t.
Proof.
  unfold max_timestamp, newest_message_at.
  destruct (messages c) as [|m0 rest]; [discriminate|].
  intros [= <-]. split.
  - destruct (max_timestamp_from_attained rest (msg_timestamp m0))
      as [->|(m & Hm & Heq)].
    + exists m0. split; [left|]; reflexivity.
    + exists m. split; [right|]; assumption.
  - intros m [<-|Hin]; unfold dt_leb; apply negb_true_iff.
    + apply max_timestamp_from_ge_best.
    + apply max_timestamp_from_ge. exact Hin.
Qed.

Lemma max_timestamp_cases msgs :
  (msgs = [] /\ max_timestamp msgs = Raise ValueError) \/
  (msgs <> [] /\ exists t, max_timestamp msgs = Ok t).
Proof.
  destruct msgs as [|m rest]; [left; split; reflexivity|].
  right. split; [discriminate|]. eexists. reflexivity.
Qed.

Lemma max_by_latest_split rest : forall best best_key r,
  max_timestamp (messages (snd best)) = Ok best_key ->
  max_by_latest best best_key rest = Ok r ->
  exists t earlier later,
    best :: rest = earlier ++ r :: later /\
    max_timestamp (messages (snd r)) = Ok t /\
    dt_ltb t best_key = false /\
    (forall x, In x earlier ->
       exists t', max_timestamp (messages (snd x)) = Ok t' /\
                  dt_ltb t' t = true) /\
    (forall x, In x later ->
       exists t', max_timestamp (messages (snd x)) = Ok t' /\
                  dt_ltb t t' = false).
Proof.
  induction rest as [|x rest IH]; intros best best_key r Hbest Hr.
  - cbn [max_by_latest] in Hr. injection Hr as <-.
    exists best_key, [], []. repeat split.
    + exact Hbest.
    + apply dt_ltb_irrefl.
    + intros x [].
    + intros x [].
  - cbn [max_by_latest bind] in Hr.
    destruct (max_timestamp (messages (snd x))) as [key|e] eqn:Hkey;
      [|discriminate].
    cbn [bind] in Hr. destruct (dt_ltb best_key key) eqn:Hlt.
    + destruct (IH x key r Hkey Hr)
        as (t & earlier & later & Heq & Ht & Hge & Hearlier & Hlater).
      exists t, (best :: earlier), later. repeat split.
      * cbn [app]. rewrite Heq. reflexivity.
      * exact Ht.
      * eapply dt_ltb_negtrans; [exact Hge|]. apply dt_ltb_asym. exact Hlt.
      * intros y [<-|Hy]; [|apply Hearlier; exact Hy].
        exists best_key. split; [exact Hbest|].
        eapply dt_ltb_le_trans; eassumption.
      * exact Hlater.
    + destruct (IH best best_key r Hbest Hr)
        as (t & earlier & later & Heq & Ht & Hge & Hearlier & Hlater).
      destruct earlier as [|b earlier].
      * cbn [app] in Heq. injection Heq as <- <-.
        rewrite Hbest in Ht. injection Ht as <-.
        exists best_key, [], (x :: rest). repeat split.
        -- exact Hbest.
        -- exact Hge.
        -- intros y [].
        -- intros y [<-|Hy]; [|apply Hlater; exact Hy].
           exists key. split; [exact Hkey|exact Hlt].
      * cbn [app] in Heq. injection Heq as <- ->.
        exists t, (best :: x :: earlier), later. repeat split.
        -- exact Ht.
        -- exact Hge.
        -- intros y [<-|[<-|Hy]].
           ++ apply Hearlier. left. reflexivity.
           ++ exists key. split; [exact Hkey|].
              destruct (Hearlier best (or_introl eq_refl))
                as (t' & Ht' & Hlt').
              rewrite Hbest in Ht'. injection Ht' as <-.
              eapply dt_le_ltb_trans; eassumption.
           ++ apply Hearlier. right. exact Hy.
        -- exact Hlater.
Qed.

Lemma max_by_latest_raise rest : forall best best_key,
  (exists x, In x rest /\ messages (snd x) = []) ->
  max_by_latest best best_key rest = Raise ValueError.
Proof.
  induction rest as [|x rest IH]; intros best best_key (y & Hy & Hempty);
    [destruct Hy|].
  cbn [max_by_latest].
  destruct (max_timestamp_cases (messages (snd x)))
    as [[_ ->]|[Hne (t & ->)]]; [reflexivity|].
  cbn [bind]. destruct Hy as [->|Hy]; [contradiction|].
  destruct (dt_ltb best_key t); apply IH; exists y; split; assumption.
Qed.

Lemma max_by_latest_raised rest : forall best best_key e,
  max_by_latest best best_key rest = Raise e ->
  e = ValueError /\ exists x, In x rest /\ messages (snd x) = [].
Proof.
  induction rest as [|x rest IH]; intros best best_key e Hr;
    [discriminate|].
  cbn [max_by_latest] in Hr.
  destruct (max_timestamp_cases (messages (snd x)))
    as [[Hempty Hx]|[Hne (t & Hx)]]; rewrite Hx in Hr; cbn [bind] in Hr.
  - injection Hr as <-. split; [reflexivity|].
    exists x. split; [left; reflexivity|exact Hempty].
  - assert (H : e = ValueError /\
                exists y, In y rest /\ messages (snd y) = []).
    { destruct (dt_ltb best_key t); eapply IH; exact Hr. }
    destruct H as [-> (y & Hy & Hempty)]. split; [reflexivity|].
    exists y. split; [right|]; assumption.
Qed.

Section CurrentConversation.

Context {L : PyLib}.

Variable conversations : list (str * Conversation).
Variable base_chat_id : str.

Lemma get_current_conversation_id_ok (id : str) :
  _get_current_conversation_id conversations base_chat_id = Ok id ->
  (filter (fun x => startswith base_chat_id (fst x)) conversations = []
   /\ id = base_chat_id)
  \/
  exists c t earlier later,
    filter (fun x => startswith base_chat_id (fst x)) conversations
    = earlier ++ (id, c) :: later /\
    startswith base_chat_id id = true /\
    newest_message_at c t /\
    (forall x m, In x earlier -> In m (messages (snd x)) ->
                 dt_ltb (msg_timestamp m) t = true) /\
    (forall x m, In x later -> In m (messages (snd x)) ->
                 dt_leb (msg_timestamp m) t = true).
Proof.
  unfold _get_current_conversation_id.
  destruct (filter (fun x => startswith base_chat_id (fst x)) conversations)
    as [|first rest] eqn:Hmatching.
  - intros [= <-]. left. split; reflexivity.
  - intros Hid. right. cbn [bind] in Hid.
    destruct (max_timestamp (messages (snd first))) as [first_key|e]
      eqn:Hfirst; [|discriminate].
    cbn [bind] in Hid.
    destruct (max_by_latest first first_key rest) as [[id' c]|e] eqn:Hmax;
      [|discriminate].
    cbn [bind fst] in Hid. injection Hid as <-.
    destruct (max_by_latest_split _ _ _ _ Hfirst Hmax)
      as (t & earlier & later & Heq & Ht & _ & Hearlier & Hlater).
    exists c, t, earlier, later. cbn [snd] in Ht. repeat split.
    + exact Heq.
    + assert (Hin : In (id', c)
                (filter (fun x => startswith base_chat_id (fst x))
                        conversations)).
      { rewrite Hmatching, Heq. apply in_elt. }
      apply filter_In in Hin. exact (proj2 Hin).
    + exact (proj1 (max_timestamp_newest _ _ Ht)).
    + exact (proj2 (max_timestamp_newest _ _ Ht)).
    + intros x m Hx Hm. destruct (Hearlier x Hx) as (t' & Ht' & Hlt).
      apply max_timestamp_newest in Ht'. destruct Ht' as [_ Hle].
      specialize (Hle m Hm). unfold dt_leb in Hle.
      apply negb_true_iff in Hle.
      eapply dt_le_ltb_trans; eassumption.
    + intros x m Hx Hm. destruct (Hlater x Hx) as (t' & Ht' & Hge).
      apply max_timestamp_newest in Ht'. destruct Ht' as [_ Hle].
      specialize (Hle m Hm). unfold dt_leb in *. apply negb_true_iff.
      apply negb_true_iff in Hle.
      eapply dt_ltb_negtrans; eassumption.
Qed.

(** X13. When no conversation id starts with the chat id,
    [_get_current_conversation_id] returns the chat id itself.  Else its
    result is the id of a conversation of the chat whose newest message is
    as late as every message of every conversation of the chat, and later
    than every message of the conversations of the chat before it in the
    dict: of several latest ones the first wins. *)
Theorem current_conversation_is_first_latest (id : str) :
  _get_current_conversation_id conversations base_chat_id = Ok id ->
  (filter (fun x => startswith base_chat_id (fst x)) conversations = []
   /\ id = base_chat_id)
  \/
  exists c t earlier later,
    filter (fun x => startswith base_chat_id (fst x)) conversations
    = earlier ++ (id, c) :: later /\
    startswith base_chat_id id = true /\
    newest_message_at c t /\
    (forall x m, In x earlier -> In m (messages (snd x)) ->
                 dt_ltb (msg_timestamp m) t = true) /\
    (forall x m, In x later -> In m (messages (snd x)) ->
                 dt_leb (msg_timestamp m) t = true).
Proof. exact (get_current_conversation_id_ok id). Qed.

Lemma get_current_conversation_id_raised (e : exn) :
  _get_current_conversation_id conversations base_chat_id = Raise e ->
  e = ValueError /\
  exists id c, In (id, c) conversations /\
               startswith base_chat_id id = true /\ messages c = [].
Proof.
  unfold _get_current_conversation_id.
  destruct (filter (fun x => startswith base_chat_id (fst x))
                   conversations) as [|first rest] eqn:Hmatching;
    [discriminate|].
  assert (Hsub : forall x, In x (first :: rest) ->
            In x conversations /\ startswith base_chat_id (fst x) = true).
  { intros x Hx. rewrite <- Hmatching in Hx. apply filter_In in Hx.
    exact Hx. }
  destruct (max_timestamp_cases (messages (snd first)))
    as [[Hempty ->]|[Hne (t & ->)]]; cbn [bind].
  - intros [= <-]. split; [reflexivity|].
    destruct first as [id c]. exists id, c.
    destruct (Hsub (id, c) (or_introl eq_refl)) as [Hin Hst].
    repeat split; assumption.
  - destruct (max_by_latest first t rest) as [r|e'] eqn:Hmax;
      [discriminate|].
    cbn [bind]. intros [= <-].
    destruct (max_by_latest_raised _ _ _ _ Hmax)
      as [-> ([id c] & Hx & Hempty)].
    split; [reflexivity|]. exists id, c.
    destruct (Hsub (id, c) (or_intror Hx)) as [Hin Hst].
    repeat split; assumption.
Qed.

(** X14. [_get_current_conversation_id] fails exactly when some
    conversation whose id starts with the chat id has no message, and then
    with the [ValueError] of [max] on an empty sequence. *)
Theorem current_conversation_fails_on_empty :
  ((exists id c, In (id, c) conversations /\
                 startswith base_chat_id id = true /\ messages c = [])
   <-> _get_current_conversation_id conversations base_chat_id
       = Raise ValueError)
  /\ forall e,
       _get_current_conversation_id conversations base_chat_id = Raise e ->
       e = ValueError.
Proof.
  split; [split|].
  - intros (id & c & Hin & Hst & Hempty).
    unfold _get_current_conversation_id.
    assert (Hm : In (id, c)
              (filter (fun x => startswith base_chat_id (fst x))
                      conversations)).
    { apply filter_In. split; assumption. }
    destruct (filter (fun x => startswith base_chat_id (fst x))
                     conversations) as [|first rest]; [destruct Hm|].
    destruct (max_timestamp_cases (messages (snd first)))
      as [[_ ->]|[Hne (t & ->)]]; [reflexivity|].
    cbn [bind]. destruct Hm as [->|Hm]; [contradiction|].
    rewrite (max_by_latest_raise rest first t); [reflexivity|].
    exists (id, c). split; assumption.
  - intros H. exact (proj2 (get_current_conversation_id_raised _ H)).
  - intros e H. exact (proj1 (get_current_conversation_id_raised _ H)).
Qed.

End CurrentConversation.

(* ================================================================== *)
(** * The time heuristic                                               *)
(* ================================================================== *)

Section TimeHeuristic.

Context {T : PyTime}.

Variable base_chat_id : str.

Lemma relevant_conversation_cases conv_id conv :
  relevant_conversation base_chat_id (conv_id, conv)
  = match messages conv with
    | [] => false
    | _ :: _ => startswith base_chat_id conv_id
    end.
Proof.
  unfold relevant_conversation. cbn [fst snd].
  destruct (messages conv); [apply andb_false_r|apply andb_true_r].
Qed.

Lemma latest_timestamp_loop_filter items : forall acc,
  latest_timestamp_loop base_chat_id
    (filter (relevant_conversation base_chat_id) items) acc
  = latest_timestamp_loop base_chat_id items acc.
Proof.
  induction items as [|[conv_id conv] rest IH]; intros acc; [reflexivity|].
  cbn [filter]. rewrite relevant_conversation_cases.
  cbn [latest_timestamp_loop].
  destruct (messages conv) as [|msg msgs] eqn:Hm; [apply IH|].
  destruct (startswith base_chat_id conv_id) eqn:Hst; [|apply IH].
  cbn [latest_timestamp_loop]. rewrite Hm, Hst. apply IH.
Qed.

Lemma latest_timestamp_loop_spec items : forall acc,
  match latest_timestamp_loop base_chat_id items acc with
  | None =>
      acc = None /\
      forall x, In x items -> relevant_conversation base_chat_id x = false
  | Some t =>
      (acc = Some t \/
       exists x m, In x items /\
                   relevant_conversation base_chat_id x = true /\
                   In m (messages (snd x)) /\ msg_timestamp m = t) /\
      (forall a, acc = Some a -> dt_ltb t a = false) /\
      (forall x m, In x items ->
                   relevant_conversation base_chat_id x = true ->
                   In m (messages (snd x)) ->
                   dt_ltb t (msg_timestamp m) = false)
  end.
Proof.
  induction items as [|[conv_id conv] rest IH]; intros acc;
    cbn [latest_timestamp_loop].
  - destruct acc as [a|].
    + split; [left; reflexivity|]. split.
      * intros a' [= <-]. apply dt_ltb_irrefl.
      * intros x m [].
    + split; [reflexivity|]. intros x [].
  - pose proof (relevant_conversation_cases conv_id conv) as Hrel.
    assert (Hskip : relevant_conversation base_chat_id (conv_id, conv) = false ->
      match latest_timestamp_loop base_chat_id rest acc with
      | None =>
          acc = None /\
          forall x, In x ((conv_id, conv) :: rest) ->
                    relevant_conversation base_chat_id x = false
      | Some t =>
          (acc = Some t \/
           exists x m, In x ((conv_id, conv) :: rest) /\
                       relevant_conversation base_chat_id x = true /\
                       In m (messages (snd x)) /\ msg_timestamp m = t) /\
          (forall a, acc = Some a -> dt_ltb t a = false) /\
          (forall x m, In x ((conv_id, conv) :: rest) ->
                       relevant_conversation base_chat_id x = true ->
                       In m (messages (snd x)) ->
                       dt_ltb t (msg_timestamp m) = false)
      end).
    { intros Hirr. specialize (IH acc).
      destruct (latest_timestamp_loop base_chat_id rest acc) as [t|].
      - destruct IH as (Hatt & Hge & Hall). split; [|split].
        + destruct Hatt as [Hatt|(x & m & Hx & Hr & Hm & Ht)];
            [left; exact Hatt|].
          right. exists x, m. repeat split; try assumption. right. exact Hx.
        + exact Hge.
        + intros x m [<-|Hx] Hr Hm; [congruence|].
          apply (Hall x m Hx Hr Hm).
      - destruct IH as [Hacc Hall]. split; [exact Hacc|].
        intros x [<-|Hx]; [exact Hirr|apply Hall; exact Hx]. }
    destruct (messages conv) as [|msg msgs] eqn:Hm; [apply Hskip; exact Hrel|].
    destruct (startswith base_chat_id conv_id) eqn:Hst;
      [|apply Hskip; exact Hrel].
    clear Hskip.
    assert (Hnew : newest_message_at conv
                     (max_timestamp_from (msg_timestamp msg) msgs)).
    { apply max_timestamp_newest. rewrite Hm. reflexivity. }
    set (conv_latest := max_timestamp_from (msg_timestamp msg) msgs) in *.
    destruct Hnew as [(m0 & Hm0 & Hm0t) Hnewest].
    assert (Hconv : forall t, dt_ltb t conv_latest = false ->
              forall m, In m (messages conv) ->
                        dt_ltb t (msg_timestamp m) = false).
    { intros t Ht m Hin. specialize (Hnewest m Hin). unfold dt_leb in Hnewest.
      apply negb_true_iff in Hnewest.
      eapply dt_ltb_negtrans; eassumption. }
    match goal with
    | |- match latest_timestamp_loop _ _ ?a with _ => _ end =>
        specialize (IH a); set (acc' := a) in *
    end.
    destruct (latest_timestamp_loop base_chat_id rest acc') as [t|].
    + destruct IH as (Hatt & Hge & Hall).
      assert (Hhere : exists x m, In x ((conv_id, conv) :: rest) /\
                   relevant_conversation base_chat_id x = true /\
                   In m (messages (snd x)) /\ msg_timestamp m = conv_latest).
      { exists (conv_id, conv), m0. repeat split; try assumption.
        left. reflexivity. }
      assert (Hrest : (exists x m, In x rest /\
                   relevant_conversation base_chat_id x = true /\
                   In m (messages (snd x)) /\ msg_timestamp m = t) ->
                exists x m, In x ((conv_id, conv) :: rest) /\
                   relevant_conversation base_chat_id x = true /\
                   In m (messages (snd x)) /\ msg_timestamp m = t).
      { intros (x & m & Hx & Hr & Hin & Ht). exists x, m.
        repeat split; try assumption. right. exact Hx. }
      assert (Hcons : dt_ltb t conv_latest = false ->
                forall x m, In x ((conv_id, conv) :: rest) ->
                   relevant_conversation base_chat_id x = true ->
                   In m (messages (snd x)) ->
                   dt_ltb t (msg_timestamp m) = false).
      { intros Ht x m [<-|Hx] Hr Hin;
          [apply (Hconv t Ht m Hin)|apply (Hall x m Hx Hr Hin)]. }
      subst acc'. destruct acc as [a|];
        [destruct (dt_ltb a conv_latest) eqn:Hlt|].
      * specialize (Hge _ eq_refl). split; [|split].
        -- right. destruct Hatt as [[= <-]|Hatt];
             [exact Hhere|apply Hrest; exact Hatt].
        -- intros a' [= <-]. eapply dt_ltb_negtrans; [exact Hge|].
           apply dt_ltb_asym. exact Hlt.
        -- apply Hcons. exact Hge.
      * specialize (Hge _ eq_refl). split; [|split].
        -- destruct Hatt as [Hatt|Hatt];
             [left; exact Hatt|right; apply Hrest; exact Hatt].
        -- intros a' [= <-]. exact Hge.
        -- apply Hcons. eapply dt_ltb_negtrans; eassumption.
      * specialize (Hge _ eq_refl). split; [|split].
        -- right. destruct Hatt as [[= <-]|Hatt];
             [exact Hhere|apply Hrest; exact Hatt].
        -- intros a' [=].
        -- apply Hcons. exact Hge.
    + destruct IH as [Hacc _]. subst acc'.
      destruct acc as [a|]; [destruct (dt_ltb a conv_latest)|];
        discriminate.
Qed.

Variable conversations : list (str * Conversation).
Variable current_timestamp : datetime.
Variable threshold_minutes : nat.

(** X15. The time heuristic looks only at the conversations whose id
    starts with the chat id and that have a message: without the others
    the answer is the same, and when there is none of them the answer is
    yes, a new conversation starts. *)
Theorem time_heuristic_sees_relevant_only :
  _should_start_new_conversation_by_time
    (filter (relevant_conversation base_chat_id) conversations)
    base_chat_id current_timestamp threshold_minutes
  = _should_start_new_conversation_by_time
      conversations base_chat_id current_timestamp threshold_minutes
  /\ ((forall x, In x conversations ->
                 relevant_conversation base_chat_id x = false) ->
      _should_start_new_conversation_by_time
        conversations base_chat_id current_timestamp threshold_minutes
      = true).
Proof.
  unfold _should_start_new_conversation_by_time. split.
  - rewrite latest_timestamp_loop_filter.
    destruct (filter (relevant_conversation base_chat_id) conversations)
      as [|y ys] eqn:Hf.
    + rewrite <- (latest_timestamp_loop_filter conversations None), Hf.
      destruct conversations; reflexivity.
    + destruct conversations; [discriminate|reflexivity].
  - intros Hall. destruct conversations as [|x xs] eqn:Hc; [reflexivity|].
    rewrite <- latest_timestamp_loop_filter.
    rewrite (filter_none _ _ (x :: xs)); [reflexivity|].
    exact Hall.
Qed.

(** X16. When some conversation of the chat has a message, the time
    heuristic compares the current time with the time of the newest
    message of all conversations of the chat. *)
Theorem time_heuristic_uses_newest_message (x : str * Conversation) :
  In x conversations -> relevant_conversation base_chat_id x = true ->
  exists t,
    _should_start_new_conversation_by_time
      conversations base_chat_id current_timestamp threshold_minutes
    = minutes_apart_exceed current_timestamp t threshold_minutes
    /\ (exists y m, In y conversations /\
                    relevant_conversation base_chat_id y = true /\
                    In m (messages (snd y)) /\ msg_timestamp m = t)
    /\ forall y m, In y conversations ->
                   relevant_conversation base_chat_id y = true ->
                   In m (messages (snd y)) ->
                   dt_leb (msg_timestamp m) t = true.
Proof.
  intros Hx Hrel. unfold _should_start_new_conversation_by_time.
  pose proof (latest_timestamp_loop_spec conversations None) as Hspec.
  destruct conversations as [|c cs] eqn:Hc; [destruct Hx|].
  destruct (latest_timestamp_loop base_chat_id (c :: cs) None) as [t|].
  - destruct Hspec as ([Hnone|Hatt] & _ & Hall); [discriminate|].
    exists t. split; [reflexivity|]. split; [exact Hatt|].
    intros y m Hy Hr Hm. unfold dt_leb. apply negb_true_iff.
    apply (Hall y m Hy Hr Hm).
  - destruct Hspec as [_ Hall]. rewrite (Hall x Hx) in Hrel. discriminate.
Qed.

End TimeHeuristic.

(* ================================================================== *)
(** * The conversation id                                              *)
(* ================================================================== *)

Lemma startswith_app_self p x : startswith p (p ++ x) = true.
Proof.
  induction p as [|c p IH]; [destruct x; reflexivity|].
  cbn [app startswith]. rewrite char_eqb_refl. exact IH.
Qed.

Lemma startswith_skipn p s :
  startswith p s = true -> s = p ++ skipn (length p) s.
Proof.
  revert s. induction p as [|c p IH]; intros [|d s]; cbn [startswith];
    try reflexivity; try discriminate.
  rewrite andb_true_iff. intros [Hc Hp]. apply char_eqb_eq in Hc. subst d.
  cbn [length skipn app]. f_equal. apply IH. exact Hp.
Qed.

Lemma lstrip_split s :
  exists ws, s = ws ++ lstrip s /\ Forall (fun c => isspace c = true) ws.
Proof.
  induction s as [|c s (ws & Heq & Hws)]; cbn [lstrip].
  - exists []. split; [reflexivity|constructor].
  - destruct (isspace c) eqn:Hc.
    + exists (c :: ws). split; [cbn [app]; f_equal; exact Heq|].
      constructor; assumption.
    + exists []. split; [reflexivity|constructor].
Qed.

Lemma leading_digits_split s :
  exists rest,
    s = leading_digits s ++ rest /\
    Forall (fun c => is_digit c = true) (leading_digits s) /\
    match rest with [] => True | c :: _ => is_digit c = false end.
Proof.
  induction s as [|c s (rest & Heq & Hd & Hrest)]; cbn [leading_digits].
  - exists []. repeat split. constructor.
  - destruct (is_digit c) eqn:Hc.
    + exists rest. repeat split.
      * cbn [app]. f_equal. exact Heq.
      * constructor; assumption.
      * exact Hrest.
    + exists (c :: s). repeat split; [constructor|exact Hc].
Qed.

(** What [match_konversation] finds is a match of the pattern: the word,
    white space, and the longest run of digits. *)
Lemma match_konversation_sound s digits :
  match_konversation s = Some digits ->
  exists ws rest,
    s = lit "konversation" ++ ws ++ digits ++ rest /\
    ws <> [] /\ Forall (fun c => isspace c = true) ws /\
    digits <> [] /\ Forall (fun c => is_digit c = true) digits /\
    match rest with [] => True | c :: _ => is_digit c = false end.
Proof.
  unfold match_konversation.
  destruct (startswith (lit "konversation") s) eqn:Hst; [|discriminate].
  apply startswith_skipn in Hst.
  set (tail := skipn (length (lit "konversation")) s) in *.
  destruct (lstrip_split tail) as (ws & Hws & Hspace).
  destruct (Nat.ltb_spec (length (lstrip tail)) (length tail)) as [Hlen|];
    [|discriminate].
  destruct (leading_digits_split (lstrip tail)) as (rest & Hrest & Hd & Hend).
  destruct (leading_digits (lstrip tail)) as [|d ds] eqn:Hdigits;
    [discriminate|].
  intros [= <-]. exists ws, rest. repeat split.
  - rewrite Hst at 1. f_equal. rewrite Hws at 1. f_equal. exact Hrest.
  - intros ->. cbn [app] in Hws. rewrite <- Hws in Hlen. lia.
  - exact Hspace.
  - discriminate.
  - exact Hd.
  - exact Hend.
Qed.

Lemma search_konversation_sound s : forall digits,
  search_konversation s = Some digits ->
  exists before rest, s = before ++ rest /\
                      match_konversation rest = Some digits.
Proof.
  induction s as [|c s IH]; intros digits.
  - cbn [search_konversation].
    destruct (match_konversation []) as [d|] eqn:Hm; [|discriminate].
    intros [= <-]. exists [], []. split; [reflexivity|exact Hm].
  - cbn [search_konversation].
    destruct (match_konversation (c :: s)) as [d|] eqn:Hm.
    + intros [= <-]. exists [], (c :: s). split; [reflexivity|exact Hm].
    + intros H. destruct (IH _ H) as (before & rest & -> & Hrest).
      exists (c :: before), rest. split; [reflexivity|exact Hrest].
Qed.

Lemma digit_not_space c : is_digit c = true -> isspace c = false.
Proof.
  destruct c as [[[] [] [] [] [] [] [] []]| | |]; intros H;
    solve [reflexivity | discriminate H].
Qed.

Lemma lstrip_app_space ws t :
  Forall (fun c => isspace c = true) ws -> lstrip (ws ++ t) = lstrip t.
Proof.
  induction 1 as [|c ws Hc _ IH]; [reflexivity|].
  cbn [app lstrip]. rewrite Hc. exact IH.
Qed.

Lemma leading_digits_app digits rest :
  Forall (fun c => is_digit c = true) digits ->
  match rest with [] => True | c :: _ => is_digit c = false end ->
  leading_digits (digits ++ rest) = digits.
Proof.
  intros Hd Hrest. induction Hd as [|c digits Hc _ IH].
  - destruct rest as [|c rest]; [reflexivity|].
    cbn [app leading_digits]. rewrite Hrest. reflexivity.
  - cbn [app leading_digits]. rewrite Hc, IH. reflexivity.
Qed.

(** A match of the pattern at the start of a text is found. *)
Lemma match_konversation_complete ws digits rest :
  ws <> [] -> Forall (fun c => isspace c = true) ws ->
  digits <> [] -> Forall (fun c => is_digit c = true) digits ->
  match rest with [] => True | c :: _ => is_digit c = false end ->
  match_konversation (lit "konversation" ++ ws ++ digits ++ rest)
  = Some digits.
Proof.
  intros Hws Hspace Hdigits Hd Hrest. unfold match_konversation.
  rewrite startswith_app_self.
  rewrite skipn_app, skipn_all, Nat.sub_diag. cbn [app skipn].
  rewrite (lstrip_app_space ws _ Hspace).
  assert (Hfixed : lstrip (digits ++ rest) = digits ++ rest).
  { destruct digits as [|d digits]; [contradiction|].
    cbn [app lstrip]. apply Forall_inv in Hd.
    rewrite (digit_not_space d Hd). reflexivity. }
  rewrite Hfixed, (leading_digits_app _ _ Hd Hrest).
  destruct (Nat.ltb_spec (length (digits ++ rest))
                         (length (ws ++ digits ++ rest))) as [_|Hlen].
  - destruct digits; [contradiction|reflexivity].
  - rewrite length_app in Hlen. destruct ws; [contradiction|].
    cbn [length] in Hlen. lia.
Qed.

(** The search returns the group of the leftmost match. *)
Lemma search_konversation_leftmost before : forall s ws digits rest,
  konversation_match s before ws digits rest ->
  (forall before' ws' digits' rest',
     konversation_match s before' ws' digits' rest' ->
     length before <= length before') ->
  search_konversation s = Some digits.
Proof.
  induction before as [|c before IH]; intros s ws digits rest
    (-> & Hws & Hspace & Hdigits & Hd & Hrest) Hleft.
  - cbn [app].
    pose proof (match_konversation_complete ws digits rest
                  Hws Hspace Hdigits Hd Hrest) as Hm.
    destruct (lit "konversation" ++ ws ++ digits ++ rest) as [|x t];
      cbn [search_konversation]; rewrite Hm; reflexivity.
  - cbn [app search_konversation].
    destruct (match_konversation
                (c :: before ++ lit "konversation" ++ ws ++ digits ++ rest))
      as [found|] eqn:Hm.
    + destruct (match_konversation_sound _ _ Hm) as (ws' & rest' & Heq & H').
      specialize (Hleft [] ws' found rest' (conj Heq H')).
      cbn [length] in Hleft. lia.
    + apply (IH _ ws digits rest).
      * repeat split; assumption.
      * intros before' ws' digits' rest' (Heq & H').
        assert (Hm' : konversation_match
                  (c :: before ++ lit "konversation" ++ ws ++ digits ++ rest)
                  (c :: before') ws' digits' rest').
        { split; [cbn [app]; rewrite Heq; reflexivity|exact H']. }
        specialize (Hleft _ _ _ _ Hm'). cbn [length] in Hleft. lia.
Qed.

Lemma search_konversation_match s digits :
  search_konversation s = Some digits ->
  exists before ws rest, konversation_match s before ws digits rest.
Proof.
  intros H. destruct (search_konversation_sound _ _ H)
    as (before & tail & -> & Hm).
  destruct (match_konversation_sound _ _ Hm) as (ws & rest & -> & H').
  exists before, ws, rest. split; [reflexivity|exact H'].
Qed.

(** Among the matches of a text there is a leftmost one. *)
Lemma konversation_match_leftmost s : forall before ws digits rest,
  konversation_match s before ws digits rest ->
  exists digits0, search_konversation s = Some digits0.
Proof.
  induction s as [|c s IH]; intros before ws digits rest
    (Heq & Hws & Hspace & Hdigits & Hd & Hrest).
  - destruct before; discriminate.
  - cbn [search_konversation].
    destruct (match_konversation (c :: s)) as [found|] eqn:Hm;
      [exists found; reflexivity|].
    destruct before as [|x before].
    + cbn [app] in Heq. rewrite Heq in Hm.
      rewrite (match_konversation_complete ws digits rest
                 Hws Hspace Hdigits Hd Hrest) in Hm. discriminate.
    + cbn [app] in Heq. injection Heq as _ Heq.
      apply (IH before ws digits rest). repeat split; assumption.
Qed.

Section ConversationId.

Context {T : PyTime}.

Variable conversations : list (str * Conversation).
Variable base_chat_id : str.

Lemma user_turns_objects history_data :
  Forall (fun msg => is_object msg = true) history_data ->
  exists turns, user_turns history_data = Ok turns.
Proof.
  induction 1 as [|msg rest Hmsg _ (turns & IH)]; cbn [user_turns].
  - eexists. reflexivity.
  - destruct msg; try discriminate. rewrite IH. cbn. eexists. reflexivity.
Qed.

Lemma user_turns_raise history_data e :
  user_turns history_data = Raise e ->
  e = AttributeError /\
  exists msg, In msg history_data /\ is_object msg = false.
Proof.
  induction history_data as [|msg rest IH]; cbn [user_turns];
    [discriminate|].
  destruct (has_role msg (lit "user")) as [is_user|e'] eqn:Hrole;
    cbn [bind].
  - destruct (user_turns rest) as [turns|e'] eqn:Hrest; cbn [bind];
      [discriminate|].
    intros [= <-]. destruct (IH eq_refl) as [-> (m & Hm & Hobj)].
    split; [reflexivity|]. exists m. split; [right|]; assumption.
  - intros [= <-]. destruct msg; try discriminate;
      cbn in Hrole; injection Hrole as <-;
      (split; [reflexivity|]); eexists; (split; [left; reflexivity|]);
      reflexivity.
Qed.

(** X17. A message that holds the word "konversation", in any case,
    followed by white space and digits decides the id alone: the id is the
    chat id, [_conv] and the digits of the leftmost such place, whatever
    the time, the history and the conversations known so far.  The first
    heuristic finds a number exactly when the message holds one in this
    form. *)
Theorem explicit_number_decides_id (user_message : str) :
  (forall before ws digits rest,
     konversation_match (lower user_message) before ws digits rest ->
     (forall before' ws' digits' rest',
        konversation_match (lower user_message) before' ws' digits' rest' ->
        length before <= length before') ->
     forall timestamp history_data,
       determine_conversation_id conversations base_chat_id user_message
                                 timestamp history_data
       = Ok (base_chat_id ++ lit "_conv" ++ digits))
  /\
  ((exists before ws digits rest,
      konversation_match (lower user_message) before ws digits rest)
   <-> exists digits, search_konversation (lower user_message) = Some digits).
Proof.
  split; [|split].
  - intros before ws digits rest Hmatch Hleft timestamp history_data.
    unfold determine_conversation_id.
    rewrite (search_konversation_leftmost _ _ _ _ _ Hmatch Hleft).
    reflexivity.
  - intros (before & ws & digits & rest & Hmatch).
    apply (konversation_match_leftmost _ _ _ _ _ Hmatch).
  - intros (digits & Hsearch).
    destruct (search_konversation_match _ _ Hsearch)
      as (before & ws & rest & Hmatch).
    exists before, ws, digits, rest. exact Hmatch.
Qed.

(** X18. The history does not matter: for two histories made of objects
    [determine_conversation_id] gives the same id.  The test on the number
    of user turns guards a branch that the next test takes anyway. *)
Theorem history_does_not_change_id
        (user_message : str) (timestamp : datetime)
        (history_data history_data' : list json) :
  Forall (fun msg => is_object msg = true) history_data ->
  Forall (fun msg => is_object msg = true) history_data' ->
  determine_conversation_id conversations base_chat_id user_message
                            timestamp history_data
  = determine_conversation_id conversations base_chat_id user_message
                              timestamp history_data'.
Proof.
  intros H H'. unfold determine_conversation_id.
  destruct (search_konversation (lower user_message)); [reflexivity|].
  destruct (user_turns_objects _ H) as [turns ->].
  destruct (user_turns_objects _ H') as [turns' ->].
  cbn [bind].
  destruct (_should_start_new_conversation_by_time
              conversations base_chat_id timestamp 120);
    [rewrite !andb_true_r|rewrite !andb_false_r; reflexivity].
  destruct (length turns =? 1), (length turns' =? 1); reflexivity.
Qed.

(** X19. Every id that [determine_conversation_id] returns starts with
    the chat id. *)
Theorem conversation_id_starts_with_chat_id
        (user_message : str) (timestamp : datetime)
        (history_data : list json) (id : str) :
  determine_conversation_id conversations base_chat_id user_message
                            timestamp history_data = Ok id ->
  startswith base_chat_id id = true.
Proof.
  unfold determine_conversation_id.
  destruct (search_konversation (lower user_message)).
  { intros [= <-]. apply startswith_app_self. }
  destruct (user_turns history_data); cbn [bind]; [|discriminate].
  destruct (posix_seconds timestamp) as [seconds|e']; cbn [bind];
    repeat match goal with
           | |- (if ?c then _ else _) = _ -> _ =>
               destruct c;
               [first [discriminate
                      |intros [= <-]; apply startswith_app_self]|]
           end;
    (intros Hid; destruct (get_current_conversation_id_ok _ _ _ Hid)
      as [[_ ->]|(c & t & earlier & later & _ & Hst & _)]; [|exact Hst];
     rewrite <- (app_nil_r base_chat_id) at 2; apply startswith_app_self).
Qed.

End ConversationId.

Section ConversationIdFailure.

Context {T : PyTime}.

(** X20. [determine_conversation_id] has three ways to fail: with
    [AttributeError] on a history element that is not an object, with the
    exception of [timestamp] when the POSIX seconds of the time are asked
    for, and with [ValueError] in the fallback when a conversation of the
    chat has no message. *)
Theorem conversation_id_failures
        (conversations : list (str * Conversation))
        (base_chat_id user_message : str) (timestamp : datetime)
        (history_data : list json) (e : exn) :
  determine_conversation_id conversations base_chat_id user_message
                            timestamp history_data = Raise e ->
  (e = AttributeError /\
   exists msg, In msg history_data /\ is_object msg = false)
  \/
  posix_seconds timestamp = Raise e
  \/
  (e = ValueError /\
   exists id c, In (id, c) conversations /\
                startswith base_chat_id id = true /\ messages c = []).
Proof.
  unfold determine_conversation_id.
  destruct (search_konversation (lower user_message)); [discriminate|].
  destruct (user_turns history_data) as [turns|e'] eqn:Hturns; cbn [bind].
  - destruct (posix_seconds timestamp) as [seconds|e'] eqn:Hposix;
      cbn [bind];
      repeat match goal with
             | |- (if ?c then _ else _) = _ -> _ =>
                 destruct c;
                 [first [discriminate
                        |intros [= <-]; right; left; reflexivity]|]
             end;
      (intros H; right; right;
       apply (get_current_conversation_id_raised _ _ _ H)).
  - intros [= <-]. left. apply (user_turns_raise _ _ Hturns).
Qed.

End ConversationIdFailure.

(* ================================================================== *)
(** * The reply after a POST request                                   *)
(* ================================================================== *)

Section ReplyLookup.

Context {L : PyLib}.

Lemma first_nonempty_assistant_sound after reply :
  first_nonempty_assistant after = Ok (Some reply) ->
  reply <> [] /\
  exists between answer later,
    after = between ++ answer :: later /\
    has_role answer (lit "assistant") = Ok true /\
    content_stripped answer = Ok reply.
Proof.
  induction after as [|msg rest IH]; cbn [first_nonempty_assistant];
    [discriminate|].
  assert (Hnext : first_nonempty_assistant rest = Ok (Some reply) ->
            reply <> [] /\
            exists between answer later,
              msg :: rest = between ++ answer :: later /\
              has_role answer (lit "assistant") = Ok true /\
              content_stripped answer = Ok reply).
  { intros H. destruct (IH H) as [Hne (between & answer & later & -> & Hr)].
    split; [exact Hne|]. exists (msg :: between), answer, later.
    split; [reflexivity|exact Hr]. }
  destruct (has_role msg (lit "assistant")) as [[|]|] eqn:Hrole; cbn [bind];
    [|exact Hnext|discriminate].
  destruct (content_stripped msg) as [c|] eqn:Hc; cbn [bind];
    [|discriminate].
  destruct c as [|x c]; [exact Hnext|].
  intros [= <-]. split; [discriminate|].
  exists [], msg, rest. repeat split; assumption.
Qed.

Lemma reply_in_history_sound history_data wanted reply :
  reply_in_history history_data wanted = Ok (Some reply) ->
  reply <> [] /\ replies_to history_data wanted reply.
Proof.
  induction history_data as [|msg rest IH]; cbn [reply_in_history];
    [discriminate|].
  assert (Hnext : reply_in_history rest wanted = Ok (Some reply) ->
            reply <> [] /\ replies_to (msg :: rest) wanted reply).
  { intros H.
    destruct (IH H)
      as [Hne (before & m & between & answer & later & -> & Hr)].
    split; [exact Hne|].
    exists (msg :: before), m, between, answer, later.
    split; [reflexivity|exact Hr]. }
  destruct (has_role msg (lit "user")) as [[|]|] eqn:Hrole; cbn [bind];
    [|exact Hnext|discriminate].
  destruct (content_stripped msg) as [c|] eqn:Hc; cbn [bind];
    [|discriminate].
  destruct (str_eqb_spec c wanted) as [->|_]; [|exact Hnext].
  destruct (first_nonempty_assistant rest) as [[found|]|] eqn:Hfound;
    cbn [bind]; [|exact Hnext|discriminate].
  intros [= <-].
  destruct (first_nonempty_assistant_sound _ _ Hfound)
    as [Hne (between & answer & later & -> & Hanswer & Hreply)].
  split; [exact Hne|].
  exists [], msg, between, answer, later. repeat split; assumption.
Qed.

Lemma replies_to_trimmed history_data wanted reply :
  replies_to history_data wanted reply -> strip reply = reply.
Proof.
  intros (before & m & between & answer & later & _ & _ & _ & _ & Hreply).
  apply (content_stripped_trimmed _ _ Hreply).
Qed.

Variable post_timestamp : datetime.
Variable user_message : str.

Lemma reply_after_post_loop_blocks lines rest : forall i clock,
  skipn i lines = rest ->
  fst (reply_after_post_loop rest i post_timestamp user_message clock)
  = first_reply_in
      (fst (blocks_at lines
              (filter (fun k => is_block_start (nth k lines []))
                      (seq i (length rest))) clock))
      post_timestamp user_message.
Proof.
  induction rest as [|line rest' IH]; intros i clock Hskip; [reflexivity|].
  assert (Hline : nth i lines [] = line).
  { rewrite <- (Nat.add_0_r i), <- nth_skipn, Hskip. reflexivity. }
  assert (Hrest : skipn (S i) lines = rest').
  { change (S i) with (1 + i). rewrite <- skipn_skipn, Hskip. reflexivity. }
  cbn [reply_after_post_loop length seq filter]. rewrite Hline.
  rewrite re_match_atoms.
  destruct (is_block_start line) eqn:Hstart.
  - unfold is_block_start in Hstart. apply andb_true_iff in Hstart.
    destruct Hstart as [Hmark Hts]. rewrite Hmark, Hts.
    unfold py_bind. rewrite parse_timestamp_value.
    rewrite collect_block_body.
    rewrite blocks_at_cons, Hline.
    change (length TS_MILLIS) with 23.
    cbn [first_reply_in timestamp content fst snd].
    unfold block_text. rewrite Hline, Hrest.
    destruct (dt_ltb post_timestamp
                (fst (parse_timestamp_spec (firstn 23 line) clock)));
      [|apply IH; exact Hrest].
    change ([line] ++ block_body rest') with (line :: block_body rest').
    destruct (reply_in_block (join_lines (line :: block_body rest'))
                             user_message) as [[reply|]|e].
    + reflexivity.
    + apply IH. exact Hrest.
    + destruct (is_decode_error e); [apply IH; exact Hrest|reflexivity].
  - unfold is_block_start in Hstart.
    destruct (contains HISTORY_MARKER line);
      [destruct (atoms_match TS_MILLIS line); [discriminate|]|];
      apply IH; exact Hrest.
Qed.

Lemma find_after_post_blocks file_content clock blocks clock' :
  segment (split_lines file_content) clock = (Ok blocks, clock') ->
  fst (_find_claude_response_after_post file_content post_timestamp
                                        user_message clock)
  = first_reply_in blocks post_timestamp user_message.
Proof.
  rewrite segment_blocks_at. intros [= <- _].
  unfold _find_claude_response_after_post.
  rewrite (reply_after_post_loop_blocks (split_lines file_content));
    reflexivity.
Qed.

Lemma first_reply_in_sound blocks reply :
  first_reply_in blocks post_timestamp user_message = Ok (Some reply) ->
  exists b history_data,
    In b blocks /\
    dt_ltb post_timestamp (timestamp b) = true /\
    decode_block (content b) = Ok (Some history_data) /\
    replies_to history_data (strip user_message) reply /\
    reply <> [].
Proof.
  induction blocks as [|b rest IH]; cbn [first_reply_in]; [discriminate|].
  assert (Hnext :
    first_reply_in rest post_timestamp user_message = Ok (Some reply) ->
    exists b' history_data,
      In b' (b :: rest) /\
      dt_ltb post_timestamp (timestamp b') = true /\
      decode_block (content b') = Ok (Some history_data) /\
      replies_to history_data (strip user_message) reply /\
      reply <> []).
  { intros H. destruct (IH H) as (b' & items & Hin & Hr).
    exists b', items. split; [right; exact Hin|exact Hr]. }
  destruct (dt_ltb post_timestamp (timestamp b)) eqn:Hnewer;
    [|exact Hnext].
  destruct (reply_in_block (content b) user_message) as [[found|]|e]
    eqn:Hblock; [|exact Hnext|destruct (is_decode_error e);
                               [exact Hnext|discriminate]].
  intros [= <-]. unfold reply_in_block in Hblock.
  destruct (decode_block (content b)) as [[items|]|] eqn:Hd;
    cbn [bind] in Hblock; try discriminate.
  destruct (reply_in_history_sound _ _ _ Hblock) as [Hne Hr].
  exists b, items. repeat split; try assumption. left. reflexivity.
Qed.

(** X21. [_find_claude_response_after_post] scans the log line by line on
    its own, and yet it sees the blocks of the segmenter of
    [analyze_logfile]: its result is the first reply that those blocks, in
    file order, give among the ones newer than the POST request, a block
    that does not decode being passed over. *)
Theorem reply_lookup_sees_segmenter_blocks file_content clock blocks clock' :
  segment (split_lines file_content) clock = (Ok blocks, clock') ->
  fst (_find_claude_response_after_post file_content post_timestamp
                                        user_message clock)
  = first_reply_in blocks post_timestamp user_message.
Proof. apply find_after_post_blocks. Qed.

(** X22. A reply that [_find_claude_response_after_post] returns is not
    empty and is trimmed; it is the content of an assistant turn that
    comes after a user turn with the trimmed user message as content, in a
    block whose timestamp is later than the POST request. *)
Theorem reply_after_post_is_sound
        file_content clock blocks clock' reply clock'' :
  segment (split_lines file_content) clock = (Ok blocks, clock') ->
  _find_claude_response_after_post file_content post_timestamp
                                   user_message clock
  = (Ok (Some reply), clock'') ->
  reply <> [] /\ strip reply = reply /\
  exists b history_data,
    In b blocks /\
    dt_ltb post_timestamp (timestamp b) = true /\
    decode_block (content b) = Ok (Some history_data) /\
    replies_to history_data (strip user_message) reply.
Proof.
  intros Hseg Hfound.
  pose proof (find_after_post_blocks _ _ _ _ Hseg) as Hfirst.
  rewrite Hfound in Hfirst. cbn [fst] in Hfirst. symmetry in Hfirst.
  destruct (first_reply_in_sound _ _ Hfirst)
    as (b & items & Hb & Hnewer & Hd & Hr & Hne).
  split; [exact Hne|]. split; [apply (replies_to_trimmed _ _ _ Hr)|].
  exists b, items. repeat split; assumption.
Qed.

(** X23. Without a block later than the POST request the lookup returns
    [None], whatever the blocks hold: an older block is not even
    decoded. *)
Theorem no_reply_without_newer_block file_content clock blocks clock' :
  segment (split_lines file_content) clock = (Ok blocks, clock') ->
  (forall b, In b blocks -> dt_ltb post_timestamp (timestamp b) = false) ->
  fst (_find_claude_response_after_post file_content post_timestamp
                                        user_message clock)
  = Ok None.
Proof.
  intros Hseg Hold. rewrite (find_after_post_blocks _ _ _ _ Hseg).
  clear Hseg. induction blocks as [|b rest IH]; [reflexivity|].
  cbn [first_reply_in]. rewrite (Hold b (or_introl eq_refl)).
  apply IH. intros b' Hb'. apply Hold. right. exact Hb'.
Qed.

End ReplyLookup.

(* ================================================================== *)
(** * The overview and the choice by number                            *)
(* ================================================================== *)

Lemma stable_sort_sorted_id (A : Type) (before : A -> A -> bool) l :
  StronglySorted (fun a b => before b a = false) l ->
  stable_sort before l = l.
Proof.
  induction 1 as [|x l Hs IH Hall]; [reflexivity|].
  cbn [stable_sort fold_right]. fold (stable_sort before l). rewrite IH.
  destruct l as [|y l]; [reflexivity|].
  cbn [stable_insert]. apply Forall_inv in Hall. rewrite Hall. reflexivity.
Qed.

Lemma StronglySorted_map (A B : Type) (f : A -> B) (R : B -> B -> Prop) l :
  StronglySorted (fun a b => R (f a) (f b)) l ->
  StronglySorted R (map f l).
Proof.
  induction 1 as [|x l Hs IH Hall]; cbn [map]; constructor; [exact IH|].
  apply Forall_map. exact Hall.
Qed.

Lemma StronglySorted_impl_in (A : Type) (R R' : A -> A -> Prop) l :
  (forall a b, R a b -> R' a b) ->
  StronglySorted R l -> StronglySorted R' l.
Proof.
  intros HR. induction 1 as [|x l Hs IH Hall]; constructor; [exact IH|].
  eapply Forall_impl; [|exact Hall]. intros b. apply HR.
Qed.

Lemma choose_by_number_in_range (A : Type) (entries : list A) number :
  (1 <= number <= Z.of_nat (length entries))%Z ->
  choose_by_number A entries number
  = nth_error entries (Z.to_nat number - 1).
Proof.
  intros Hrange. unfold choose_by_number.
  destruct (Z.leb_spec 0 (number - 1)) as [_|]; [|lia].
  destruct (Z.ltb_spec (number - 1) (Z.of_nat (length entries))) as [_|];
    [|lia].
  cbn [andb]. f_equal. lia.
Qed.

Lemma choose_by_number_out_of_range (A : Type) (entries : list A) number :
  (number < 1 \/ Z.of_nat (length entries) < number)%Z ->
  choose_by_number A entries number = None.
Proof.
  intros Hrange. unfold choose_by_number.
  destruct (Z.leb_spec 0 (number - 1)) as [Hlo|]; [|reflexivity].
  destruct (Z.ltb_spec (number - 1) (Z.of_nat (length entries))) as [Hhi|_];
    [lia|reflexivity].
Qed.

Section Overview.

Context {L : PyLib}.

(** X24. The overview and the choice by number sort the conversations by
    [start_time] again; on the result of [analyze_logfile] that changes
    nothing, the dict is in that order already.  So a number [n] from 1 to
    the number of conversations selects the conversation under the key
    [conversation_n], and a number below 1 or above the number of
    conversations selects nothing. *)
Theorem overview_number_is_key_number file_content clock convs clock' :
  analyze_logfile file_content clock = (Ok convs, clock') ->
  sorted_conversations convs = map snd convs
  /\ (forall number,
        (1 <= number <= Z.of_nat (length convs))%Z ->
        exists c,
          choose_by_number Conversation (sorted_conversations convs) number
          = Some c /\
          nth_error convs (Z.to_nat number - 1)
          = Some (lit "conversation_" ++ str_of_nat (Z.to_nat number), c))
  /\ (forall number,
        (number < 1 \/ Z.of_nat (length convs) < number)%Z ->
        choose_by_number Conversation (sorted_conversations convs) number
        = None).
Proof.
  intros H. destruct (analyze_logfile_final_set _ _ _ _ H)
    as (Hkeys & _ & Hsorted).
  assert (Hid : sorted_conversations convs = map snd convs).
  { unfold sorted_conversations. apply stable_sort_sorted_id.
    apply StronglySorted_map.
    eapply StronglySorted_impl_in; [|exact Hsorted].
    intros a b Hab. unfold dt_leb in Hab. apply negb_true_iff in Hab.
    exact Hab. }
  split; [exact Hid|]. rewrite Hid. split.
  - intros number Hrange.
    rewrite choose_by_number_in_range by (rewrite length_map; exact Hrange).
    assert (Hlt : Z.to_nat number - 1 < length convs) by lia.
    destruct (nth_error convs (Z.to_nat number - 1)) as [[key c]|] eqn:Hconv;
      [|apply nth_error_None in Hconv; lia].
    exists c. rewrite nth_error_map, Hconv. split; [reflexivity|].
    assert (Hkey : nth_error (map fst convs) (Z.to_nat number - 1)
                   = Some key).
    { rewrite nth_error_map, Hconv. reflexivity. }
    rewrite Hkeys, nth_error_map, nth_error_seq in Hkey.
    destruct (Nat.ltb_spec (Z.to_nat number - 1) (length convs)) as [_|Hge];
      [|lia].
    cbn in Hkey. injection Hkey as <-.
    replace (Z.to_nat number - 1 + 1) with (Z.to_nat number) by lia.
    reflexivity.
  - intros number Hrange. apply choose_by_number_out_of_range.
    rewrite length_map. exact Hrange.
Qed.

End Overview.

(* ================================================================== *)
(** * Escaped newlines in the context documents                        *)
(* ================================================================== *)

Lemma replace_fuel_absent old new fuel : forall s k,
  find_at old s k = None -> replace_fuel fuel old new s = s.
Proof.
  induction fuel as [|fuel IH]; intros s k Hfind; [reflexivity|].
  destruct s as [|c r]; [reflexivity|].
  cbn [replace_fuel]. cbn [find_at] in Hfind.
  destruct (startswith old (c :: r)); [discriminate|].
  f_equal. apply (IH r (S k)). exact Hfind.
Qed.

Lemma contains_false_find_at sub s k :
  contains sub s = false -> find_at sub s k = None.
Proof.
  unfold contains, find. intros H.
  assert (Hshift : forall t a b, find_at sub t a = None ->
                                 find_at sub t b = None).
  { induction t as [|c t IH]; intros a b; cbn [find_at];
      destruct (startswith sub _); try discriminate; try reflexivity.
    apply IH. }
  destruct (find_at sub s 0) eqn:H0; [discriminate|].
  apply (Hshift s 0 k H0).
Qed.

Lemma find_at_none_contains sub s :
  find_at sub s 0 = None -> contains sub s = false.
Proof. unfold contains, find. intros ->. reflexivity. Qed.

Lemma startswith_cons a p b s :
  startswith (a :: p) (b :: s) = char_eqb a b && startswith p s.
Proof. reflexivity. Qed.

(** Decoding leaves no escaped newline behind: where a backslash stays in
    front of a character, the character was there before and is not [n]. *)
Lemma replace_fuel_decoded fuel : forall s,
  length s <= fuel ->
  (forall k, find_at [backslash; (Latin "n")]
               (replace_fuel fuel [backslash; (Latin "n")] [newline] s) k
             = None)
  /\ (startswith [(Latin "n")]
        (replace_fuel fuel [backslash; (Latin "n")] [newline] s) = true ->
      startswith [(Latin "n")] s = true).
Proof.
  induction fuel as [|fuel IH]; intros s Hlen.
  - destruct s; [|cbn in Hlen; lia]. split; [reflexivity|discriminate].
  - destruct s as [|c t]; [split; [reflexivity|discriminate]|].
    cbn [replace_fuel].
    destruct (startswith [backslash; (Latin "n")] (c :: t)) eqn:Hst.
    + destruct (IH (skipn (length [backslash; (Latin "n")]) (c :: t)))
        as [Hnone _].
      { rewrite length_skipn. cbn [length] in *. lia. }
      split; [|discriminate].
      intros k. cbn [app find_at]. apply Hnone.
    + cbn [length] in Hlen. destruct (IH t) as [Hnone Hhead]; [lia|].
      split.
      * intros k. cbn [find_at].
        replace (startswith [backslash; (Latin "n")]
                   (c :: replace_fuel fuel [backslash; (Latin "n")]
                                      [newline] t))
          with false; [apply Hnone|].
        symmetry. rewrite startswith_cons in Hst |- *.
        destruct (char_eqb backslash c); [|reflexivity].
        cbn [andb] in Hst |- *.
        destruct (startswith [(Latin "n")]
                    (replace_fuel fuel [backslash; (Latin "n")] [newline] t))
          eqn:Hn; [|reflexivity].
        rewrite (Hhead eq_refl) in Hst. discriminate.
      * cbn [startswith]. intros H. exact H.
Qed.

Section ContextDocumentsDecoding.

Context {L : PyLib}.

(** X25. [extract_context_documents] searches the text with every
    escaped newline decoded, and the test that guards the decoding decides
    nothing: a text without escaped newline is its own decoding.  Decoding
    leaves no escaped newline, so a log and its decoded form give the same
    documents; their ids and titles are trimmed. *)
Theorem documents_of_decoded_text (log_content : str) :
  extract_context_documents log_content
  = map (fun m : str * str * str =>
           {| doc_id := strip (fst (fst m));
              doc_title := strip (snd (fst m));
              doc_content := re_sub_trailer (strip (snd m)) |})
        (re_findall_documents (replace (lit "\n") [newline] log_content))
  /\ extract_context_documents (replace (lit "\n") [newline] log_content)
     = extract_context_documents log_content
  /\ Forall (fun d => strip (doc_id d) = doc_id d /\
                      strip (doc_title d) = doc_title d)
            (extract_context_documents log_content).
Proof.
  assert (Hmap : forall text,
    map (fun m : str * str * str =>
           let '(id, title, content) := m in
           let content_clean := strip content in
           let content_clean := re_sub_trailer content_clean in
           {| doc_id := strip id; doc_title := strip title;
              doc_content := content_clean |})
        (re_findall_documents text)
    = map (fun m : str * str * str =>
             {| doc_id := strip (fst (fst m));
                doc_title := strip (snd (fst m));
                doc_content := re_sub_trailer (strip (snd m)) |})
          (re_findall_documents text)).
  { intros text. apply map_ext. intros [[id title] content]. reflexivity. }
  assert (Hdecoded : forall text,
    extract_context_documents text
    = map (fun m : str * str * str =>
             {| doc_id := strip (fst (fst m));
                doc_title := strip (snd (fst m));
                doc_content := re_sub_trailer (strip (snd m)) |})
          (re_findall_documents (replace (lit "\n") [newline] text))).
  { intros text. unfold extract_context_documents. rewrite Hmap.
    destruct (contains (lit "\n") text) eqn:Hc; [reflexivity|].
    unfold replace.
    rewrite (replace_fuel_absent _ _ _ _ 0
               (contains_false_find_at _ _ 0 Hc)).
    reflexivity. }
  split; [apply Hdecoded|]. split.
  - rewrite (Hdecoded log_content).
    unfold extract_context_documents. rewrite Hmap.
    replace (contains (lit "\n") (replace (lit "\n") [newline] log_content))
      with false; [reflexivity|].
    symmetry. apply find_at_none_contains.
    apply (proj1 (replace_fuel_decoded _ _ (le_n _))).
  - rewrite (Hdecoded log_content). apply Forall_forall.
    intros d Hd. apply in_map_iff in Hd. destruct Hd as (m & <- & _).
    cbn [doc_id doc_title]. split; apply strip_idem.
Qed.

End ContextDocumentsDecoding.

(* ================================================================== *)
(** * The properties on the logs of the demonstration                  *)
(* ================================================================== *)

Import DemoTime.

Ltac run := vm_compute; reflexivity.

(** X2 on [log_number_in_array]: the number 5 among the turns stops the
    analysis. *)
Lemma non_object_element_aborts_witness :
  exists e,
    analyze_logfile log_number_in_array 0 = (Raise e, 0) /\
    is_decode_error e = false.
Proof.
  apply (non_object_element_aborts
           log_number_in_array 0 (blocks_of log_number_in_array) 0
           (block log_number_in_array 0)
           (turns_of (block log_number_in_array 0)) (JNum (lit "5"))).
  - run.
  - vm_compute. left. reflexivity.
  - run.
  - vm_compute. right. left. reflexivity.
  - reflexivity.
Defined.

(** X3 on [log_three_snapshots]: three blocks, one conversation. *)
Lemma conversations_bounded_by_blocks_witness :
  length [(lit "conversation_1", conversation log_three_snapshots 0)]
  <= length (filter (fun b => negb (ignored_block b))
                    (blocks_of log_three_snapshots))
  /\ length [(lit "conversation_1", conversation log_three_snapshots 0)]
     <= length (blocks_of log_three_snapshots).
Proof.
  apply (conversations_bounded_by_blocks
           log_three_snapshots 0 (blocks_of log_three_snapshots) 0
           [(lit "conversation_1", conversation log_three_snapshots 0)]).
  - run.
  - run.
Defined.

(** X4 on [log_shorter_newer], which gives two conversations. *)
Lemma final_set_keys_and_order_witness :
  map fst [(lit "conversation_1", conversation log_shorter_newer 0);
           (lit "conversation_2", conversation log_shorter_newer 1)]
  = map (fun k => lit "conversation_" ++ str_of_nat (k + 1)) (seq 0 2)
  /\ NoDup (map fst [(lit "conversation_1", conversation log_shorter_newer 0);
                     (lit "conversation_2", conversation log_shorter_newer 1)])
  /\ StronglySorted
       (fun a b => dt_leb (start_time (snd a)) (start_time (snd b)) = true)
       [(lit "conversation_1", conversation log_shorter_newer 0);
        (lit "conversation_2", conversation log_shorter_newer 1)].
Proof.
  apply (final_set_keys_and_order
           log_shorter_newer 0
           [(lit "conversation_1", conversation log_shorter_newer 0);
            (lit "conversation_2", conversation log_shorter_newer 1)] 0).
  run.
Defined.

(** X5 on [log_three_snapshots]. *)
Lemma messages_share_block_timestamp_witness :
  (exists b, In b (blocks_of log_three_snapshots) /\
             start_time (conversation log_three_snapshots 0) = timestamp b)
  /\ Forall (fun m => msg_timestamp m
                      = start_time (conversation log_three_snapshots 0))
            (messages (conversation log_three_snapshots 0)).
Proof.
  apply (messages_share_block_timestamp
           log_three_snapshots 0 (blocks_of log_three_snapshots) 0
           [(lit "conversation_1", conversation log_three_snapshots 0)]
           (lit "conversation_1") (conversation log_three_snapshots 0)).
  - run.
  - run.
  - left. reflexivity.
Defined.

(** X6 on [log_shorter_newer]: the older conversation [hi; bye] is no
    prefix of the newer conversation [hi]. *)
Lemma no_prefix_of_newer_conversation_witness :
  dt_ltb (start_time (conversation log_shorter_newer 0))
         (start_time (conversation log_shorter_newer 1)) = true
  /\ ~ is_prefix_of
         (map user_message (messages (conversation log_shorter_newer 0)))
         (map user_message (messages (conversation log_shorter_newer 1))).
Proof.
  split; [run|].
  apply (no_prefix_of_newer_conversation
           log_shorter_newer 0
           [(lit "conversation_1", conversation log_shorter_newer 0);
            (lit "conversation_2", conversation log_shorter_newer 1)] 0
           (lit "conversation_1") (conversation log_shorter_newer 0)
           (lit "conversation_2") (conversation log_shorter_newer 1)).
  - run.
  - left. reflexivity.
  - right. left. reflexivity.
  - run.
Defined.

(** X7 on [log_late_reply], whose turns have white space around their
    text. *)
Lemma conversation_texts_are_trimmed_witness :
  strip (first_message (conversation log_late_reply 0))
  = first_message (conversation log_late_reply 0)
  /\ Forall (fun m => strip (user_message m) = user_message m /\
                      strip (claude_response m) = claude_response m)
            (messages (conversation log_late_reply 0)).
Proof.
  apply (conversation_texts_are_trimmed
           log_late_reply 0
           [(lit "conversation_1", conversation log_late_reply 0)] 0
           (lit "conversation_1") (conversation log_late_reply 0)).
  - run.
  - left. reflexivity.
Defined.

(** X8 on [log_three_snapshots]. *)
Lemma new_message_gets_its_reply_witness :
  exists b items,
    In b (blocks_of log_three_snapshots) /\
    decode_block (content b) = Ok (Some items) /\
    user_messages_of items
    = Ok (map user_message (messages (conversation log_three_snapshots 0)))
    /\
    forall i m,
      nth_error (messages (conversation log_three_snapshots 0)) i = Some m ->
      (forall j, j < i ->
         nth_error (map user_message
                        (messages (conversation log_three_snapshots 0))) j
         <> Some (user_message m)) ->
      reply_to_turn items i = Ok (claude_response m).
Proof.
  apply (new_message_gets_its_reply
           log_three_snapshots 0 (blocks_of log_three_snapshots) 0
           [(lit "conversation_1", conversation log_three_snapshots 0)]
           (lit "conversation_1") (conversation log_three_snapshots 0)).
  - run.
  - run.
  - left. reflexivity.
Defined.

(** X9 on [log_three_snapshots]. *)
Lemma blocks_in_file_order_disjoint_witness :
  StronglySorted lt (map line_number (blocks_of log_three_snapshots)) /\
  forall b b',
    In b (blocks_of log_three_snapshots) ->
    In b' (blocks_of log_three_snapshots) ->
    line_number b < line_number b' ->
    line_number b
    + length (block_body
                (skipn (S (line_number b)) (split_lines log_three_snapshots)))
    < line_number b'.
Proof.
  apply (blocks_in_file_order_disjoint
           log_three_snapshots 0 (blocks_of log_three_snapshots) 0).
  run.
Defined.

(** X10 on the second block of [log_three_snapshots]. *)
Lemma block_text_is_part_of_log_witness :
  (exists pre post,
     log_three_snapshots
     = pre ++ content (block log_three_snapshots 1) ++ post) /\
  (exists tail,
     content (block log_three_snapshots 1)
     = nth (line_number (block log_three_snapshots 1))
           (split_lines log_three_snapshots) [] ++ tail).
Proof.
  apply (block_text_is_part_of_log
           log_three_snapshots 0 (blocks_of log_three_snapshots) 0
           (block log_three_snapshots 1)).
  - run.
  - vm_compute. right. left. reflexivity.
Defined.

(** X11 on the second block of [log_three_snapshots]. *)
Lemma block_holds_marker_witness :
  exists k,
    find HISTORY_MARKER (content (block log_three_snapshots 1)) = Some k /\
    find HISTORY_MARKER
         (nth (line_number (block log_three_snapshots 1))
              (split_lines log_three_snapshots) []) = Some k.
Proof.
  apply (block_holds_marker
           log_three_snapshots 0 (blocks_of log_three_snapshots) 0
           (block log_three_snapshots 1)).
  - run.
  - vm_compute. right. left. reflexivity.
Defined.

(** X13 on [two_conversations]: the newest conversation of the chat [abc]
    is [abc_2]. *)
Lemma current_conversation_is_first_latest_witness :
  (filter (fun x => startswith (lit "abc") (fst x)) two_conversations = []
   /\ lit "abc_2" = lit "abc")
  \/
  exists c t earlier later,
    filter (fun x => startswith (lit "abc") (fst x)) two_conversations
    = earlier ++ (lit "abc_2", c) :: later /\
    startswith (lit "abc") (lit "abc_2") = true /\
    newest_message_at c t /\
    (forall x m, In x earlier -> In m (messages (snd x)) ->
                 dt_ltb (msg_timestamp m) t = true) /\
    (forall x m, In x later -> In m (messages (snd x)) ->
                 dt_leb (msg_timestamp m) t = true).
Proof.
  apply (current_conversation_is_first_latest
           two_conversations (lit "abc") (lit "abc_2")).
  run.
Defined.

(** X16 on [two_conversations], ten minutes after the first message. *)
Lemma time_heuristic_uses_newest_message_witness :
  exists t,
    _should_start_new_conversation_by_time
      two_conversations (lit "abc") T3 120
    = minutes_apart_exceed T3 t 120
    /\ (exists y m, In y two_conversations /\
                    relevant_conversation (lit "abc") y = true /\
                    In m (messages (snd y)) /\ msg_timestamp m = t)
    /\ forall y m, In y two_conversations ->
                   relevant_conversation (lit "abc") y = true ->
                   In m (messages (snd y)) ->
                   dt_leb (msg_timestamp m) t = true.
Proof.
  apply (time_heuristic_uses_newest_message
           (lit "abc") two_conversations T3 120
           (lit "abc_1", conversation_at T1)).
  - left. reflexivity.
  - run.
Defined.

(** X17 on a message that names two conversations: the first one
    counts. *)
Lemma explicit_number_decides_id_witness :
  determine_conversation_id two_conversations (lit "abc")
                            (lit "Konversation 7 und Konversation 3")
                            T3 []
  = Ok (lit "abc_conv7").
Proof.
  apply (proj1 (explicit_number_decides_id
                  two_conversations (lit "abc")
                  (lit "Konversation 7 und Konversation 3"))
               [] (lit " ") (lit "7") (lit " und konversation 3")).
  - repeat split.
    + discriminate.
    + repeat constructor.
    + discriminate.
    + repeat constructor.
  - intros before' ws' digits' rest' _. cbn [length]. lia.
Defined.

(** X18 on [two_conversations]: an empty history and a history with one
    user turn. *)
Lemma history_does_not_change_id_witness :
  determine_conversation_id two_conversations (lit "abc") (lit "frage") T3
                            []
  = determine_conversation_id two_conversations (lit "abc") (lit "frage") T3
                              [turn (lit "user") (lit "frage")].
Proof.
  apply (history_does_not_change_id
           two_conversations (lit "abc") (lit "frage") T3
           [] [turn (lit "user") (lit "frage")]).
  - constructor.
  - constructor; [reflexivity|constructor].
Defined.

(** X19 on [two_conversations]: the fallback gives [abc_2]. *)
Lemma conversation_id_starts_with_chat_id_witness :
  startswith (lit "abc") (lit "abc_2") = true.
Proof.
  apply (conversation_id_starts_with_chat_id
           two_conversations (lit "abc") (lit "frage") T3 []
           (lit "abc_2")).
  run.
Defined.

(** X20 on [two_conversations] with one more conversation of the chat,
    which has no message. *)
Lemma conversation_id_failures_witness :
  (ValueError = AttributeError /\
   exists msg, In msg [] /\ is_object msg = false)
  \/
  posix_seconds T3 = Raise ValueError
  \/
  (ValueError = ValueError /\
   exists id c,
     In (id, c)
        (two_conversations ++ [(lit "abc_3", conversation_without_message)])
     /\ startswith (lit "abc") id = true /\ messages c = []).
Proof.
  apply (conversation_id_failures
           (two_conversations ++ [(lit "abc_3", conversation_without_message)])
           (lit "abc") (lit "frage") T3 [] ValueError).
  run.
Defined.

(** X21 on [log_late_reply]. *)
Lemma reply_lookup_sees_segmenter_blocks_witness :
  fst (_find_claude_response_after_post log_late_reply T1 (lit " hi") 0)
  = first_reply_in (blocks_of log_late_reply) T1 (lit " hi").
Proof.
  apply (reply_lookup_sees_segmenter_blocks
           T1 (lit " hi") log_late_reply 0 (blocks_of log_late_reply) 0).
  run.
Defined.

(** X22 on [log_late_reply]: the reply [hello] comes from the second
    block. *)
Lemma reply_after_post_is_sound_witness :
  lit "hello" <> [] /\ strip (lit "hello") = lit "hello" /\
  exists b history_data,
    In b (blocks_of log_late_reply) /\
    dt_ltb T1 (timestamp b) = true /\
    decode_block (content b) = Ok (Some history_data) /\
    replies_to history_data (strip (lit " hi")) (lit "hello").
Proof.
  apply (reply_after_post_is_sound
           T1 (lit " hi") log_late_reply 0 (blocks_of log_late_reply) 0
           (lit "hello") 0).
  - run.
  - run.
Defined.

(** X23 on [log_late_reply], for a POST request later than its blocks. *)
Lemma no_reply_without_newer_block_witness :
  fst (_find_claude_response_after_post log_late_reply T3 (lit "hi") 0)
  = Ok None.
Proof.
  apply (no_reply_without_newer_block
           T3 (lit "hi") log_late_reply 0 (blocks_of log_late_reply) 0).
  - run.
  - intros b Hb. vm_compute in Hb.
    destruct Hb as [<-|[<-|[]]]; reflexivity.
Defined.

(** X24 on [log_shorter_newer], which gives two conversations: the
    number 2 selects the conversation under [conversation_2], the numbers
    0 and 3 select nothing. *)
Lemma overview_number_is_key_number_witness :
  (sorted_conversations (final_set log_shorter_newer)
   = map snd (final_set log_shorter_newer)
   /\ (forall number,
         (1 <= number
          <= Z.of_nat (length (final_set log_shorter_newer)))%Z ->
         exists c,
           choose_by_number Conversation
             (sorted_conversations (final_set log_shorter_newer)) number
           = Some c /\
           nth_error (final_set log_shorter_newer) (Z.to_nat number - 1)
           = Some (lit "conversation_" ++ str_of_nat (Z.to_nat number), c))
   /\ (forall number,
         (number < 1
          \/ Z.of_nat (length (final_set log_shorter_newer)) < number)%Z ->
         choose_by_number Conversation
           (sorted_conversations (final_set log_shorter_newer)) number
         = None))
  /\ map fst (final_set log_shorter_newer)
     = [lit "conversation_1"; lit "conversation_2"]
  /\ choose_by_number Conversation
       (sorted_conversations (final_set log_shorter_newer)) 2
     = nth_error (map snd (final_set log_shorter_newer)) 1
  /\ choose_by_number Conversation
       (sorted_conversations (final_set log_shorter_newer)) 0
     = None
  /\ choose_by_number Conversation
       (sorted_conversations (final_set log_shorter_newer)) 3
     = None.
Proof.
  split; [|repeat split; vm_compute; reflexivity].
  apply (overview_number_is_key_number
           log_shorter_newer 0 (final_set log_shorter_newer) 0).
  run.
Defined.

(** X26 on [log_too_deep]: the decoder gives up with [RecursionError],
    and so does the analysis. *)
Lemma decoder_exception_aborts_witness :
  (exists e',
     analyze_logfile log_too_deep 0 = (Raise e', 0) /\
     is_decode_error e' = false)
  /\ decode_block (content (block log_too_deep 0)) = Raise RecursionError
  /\ run log_too_deep = Raise RecursionError.
Proof.
  split; [|split; vm_compute; reflexivity].
  apply (decoder_exception_aborts
           log_too_deep 0 (blocks_of log_too_deep) 0
           (block log_too_deep 0) RecursionError).
  - run.
  - vm_compute. left. reflexivity.
  - run.
  - reflexivity.
Defined.
